(** * Validacao de NFe's: a shallow embedding of [script_validacao_nfe.py]

    The development follows the pipeline of the script: normalisation
    utilities, ingestion of the sheet, grouping by invoice number,
    confrontation against the invoice index, numbering of the combined
    divergences, and the final summary.  It also embeds the amounts of
    [utils/valor_monetario.py] (parsing, printing, comparison within a
    tolerance, addition and subtraction) and the configuration of
    [models/models.py].

    Conventions of the embedding.
    - A Python [str] is a [string] (a sequence of bytes; the texts the
      script inspects are ASCII).
    - A monetary [Decimal] that takes part in the arithmetic of the engine
      is the integer number of its hundredths ([Z]); Decimal addition,
      subtraction, [abs] and comparison are exact on such values as long
      as they stay within the 28 digits of the context, which amounts of
      money do.  The currency parser itself is embedded over a
      digit-level model of [Decimal] (module [Dec]).
    - A Python [int] is a [Z]; a [date] is a record whose [toordinal]
      gives the day number, so that [(a - b).days] is a difference of
      ordinals.
    - A [set] of strings is a [gset string]; iterating over it visits
      [elements]; a [dict] whose insertion order is observable is an
      association list with unique keys ([dict]); a [dict] that is only
      looked up is a [gmap].
    - Code that may raise returns in the monad [exc]. *)

From Stdlib Require Import ZArith Ascii String.
From stdpp Require Import gmap strings list sorting pretty.

Open Scope Z_scope.

(** ** Python exceptions *)

Inductive excecao : Type :=
| IndexError
| InvalidOperation
| ValueError.

Inductive exc (A : Type) : Type :=
| Ret (a : A)
| Raise (e : excecao).
Arguments Ret {A} a.
Arguments Raise {A} e.

Definition exc_bind {A B} (m : exc A) (k : A -> exc B) : exc B :=
  match m with
  | Ret a => k a
  | Raise e => Raise e
  end.

Notation "'let*' x ':=' m 'in' k" := (exc_bind m (fun x => k))
  (at level 10, x name, m at level 100, k at level 200).

(** ** Insertion-ordered dictionaries *)

Section Dict.
Context {K : Type} `{EqDecision K} {V : Type}.

Definition dict := list (K * V).

Fixpoint dict_get (k : K) (d : dict) : option V :=
  match d with
  | [] => None
  | (k', v) :: r => if decide (k = k') then Some v else dict_get k r
  end.

(** [d[k] = v]: an existing key keeps its position, a new key goes last. *)
Fixpoint dict_set (k : K) (v : V) (d : dict) : dict :=
  match d with
  | [] => [(k, v)]
  | (k', v') :: r =>
      if decide (k = k') then (k', v) :: r else (k', v') :: dict_set k v r
  end.

(** [f(d[k])] on a [defaultdict]: a missing key is first created, last,
    with the default value. *)
Fixpoint dict_default_alter (dflt : V) (f : V -> V) (k : K) (d : dict)
  : dict :=
  match d with
  | [] => [(k, f dflt)]
  | (k', v') :: r =>
      if decide (k = k') then (k', f v') :: r
      else (k', v') :: dict_default_alter dflt f k r
  end.

Definition dict_keys (d : dict) : list K := map fst d.
Definition dict_values (d : dict) : list V := map snd d.
End Dict.
Arguments dict K V : clear implicits.

(** ** Data model *)

Record date : Type := mk_date { year : Z; month : Z; day : Z }.

Definition is_leap (y : Z) : bool :=
  (y mod 4 =? 0) && (negb (y mod 100 =? 0) || (y mod 400 =? 0)).

Definition days_before_year (y : Z) : Z :=
  let y' := y - 1 in y' * 365 + y' / 4 - y' / 100 + y' / 400.

Definition days_before_month (y m : Z) : Z :=
  nth (Z.to_nat m) [0; 0; 31; 59; 90; 120; 151; 181; 212; 243; 273; 304; 334] 0
  + (if (2 <? m) && is_leap y then 1 else 0).

Definition toordinal (d : date) : Z :=
  days_before_year (year d) + days_before_month (year d) (month d) + day d.

Record NFe : Type := mk_NFe {
  numero : string;
  data_emissao : date;
  cnpj_emitente : string;
  cnpj_destinatario : string;
  valor : Z;
  xml_path : string
}.

Record TransacaoOriginal : Type := mk_TransacaoOriginal {
  numeros_nfe : gset string;
  data_abastecimento : date;
  cnpj_posto : string;
  cnpj_empresa : string;
  valor_boleto : Z;
  postergado : string;
  linha : Z;
  texto_original : string;
  eh_cancelamento : bool;
  eh_estorno : bool
}.

Definition eh_agrupamento (t : TransacaoOriginal) : bool :=
  (1 <? Z.of_nat (size (numeros_nfe t))).

(** The fields [GrupoNFe] shares by name with [TransacaoOriginal] carry
    the prefix [g_]. *)
Record GrupoNFe : Type := mk_GrupoNFe {
  numero_nfe : string;
  g_data_abastecimento : date;
  g_cnpj_posto : string;
  g_cnpj_empresa : string;
  valor_planilha : Z;
  g_postergado : string;
  transacoes_individuais : list TransacaoOriginal;
  transacoes_agrupadas : list TransacaoOriginal;
  linhas : list Z
}.

Definition tem_individual (g : GrupoNFe) : bool :=
  (0 <? Z.of_nat (length (transacoes_individuais g))).

Definition tem_agrupado (g : GrupoNFe) : bool :=
  (0 <? Z.of_nat (length (transacoes_agrupadas g))).

Inductive TipoOrigem : Type := AMBOS | INDIVIDUAL | AGRUPADO | NENHUM.

Definition tipo_origem (g : GrupoNFe) : TipoOrigem :=
  if tem_individual g && tem_agrupado g then AMBOS
  else if tem_individual g then INDIVIDUAL
  else if tem_agrupado g then AGRUPADO
  else NENHUM.

(** Python's [sum]: a left fold of [+] starting from 0. *)
Definition sum (xs : list Z) : Z := foldl Z.add 0 xs.

(** ** Text: the [str] methods the script uses *)

Module Texto.
(** The ASCII characters [str.isspace] accepts. *)
Definition is_space (c : ascii) : bool :=
  let n := N_of_ascii c in
  ((9 <=? n) && (n <=? 13) || (28 <=? n) && (n <=? 32))%N.

Definition is_digit (c : ascii) : bool :=
  let n := N_of_ascii c in ((48 <=? n) && (n <=? 57))%N.

Fixpoint lstrip (s : string) : string :=
  match s with
  | String c r => if is_space c then lstrip r else s
  | EmptyString => EmptyString
  end.

Definition rstrip (s : string) : string := String.rev (lstrip (String.rev s)).

(** [s.strip()] *)
Definition strip (s : string) : string := rstrip (lstrip s).

(** [c in s] for a one-character [c] *)
Fixpoint contains_char (c : ascii) (s : string) : bool :=
  match s with
  | String c' r => Ascii.eqb c c' || contains_char c r
  | EmptyString => false
  end.

(** [s.replace(c, '')] for a one-character [c] *)
Fixpoint remove_char (c : ascii) (s : string) : string :=
  match s with
  | String c' r =>
      if Ascii.eqb c c' then remove_char c r else String c' (remove_char c r)
  | EmptyString => EmptyString
  end.

(** [s.replace(c, d)] for one-character [c] and [d] *)
Fixpoint replace_char (c d : ascii) (s : string) : string :=
  match s with
  | String c' r =>
      String (if Ascii.eqb c c' then d else c') (replace_char c d r)
  | EmptyString => EmptyString
  end.

(** [s.replace(ab, '')] for a two-character [ab]: occurrences are found
    from the left and do not overlap. *)
Fixpoint remove_par (a b : ascii) (s : string) : string :=
  match s with
  | String c ((String c' r) as t) =>
      if Ascii.eqb a c && Ascii.eqb b c' then remove_par a b r
      else String c (remove_par a b t)
  | _ => s
  end.

(** [s.rfind(c)]: the last position of [c], or -1. *)
Fixpoint rfind_desde (c : ascii) (s : string) (pos ultima : Z) : Z :=
  match s with
  | String c' r =>
      rfind_desde c r (pos + 1) (if Ascii.eqb c c' then pos else ultima)
  | EmptyString => ultima
  end.

Definition rfind (c : ascii) (s : string) : Z := rfind_desde c s 0 (-1).

(** [sub in s] *)
Fixpoint contains (sub s : string) : bool :=
  String.prefix sub s
  || match s with
     | String _ r => contains sub r
     | EmptyString => false
     end.

Definition lower_char (c : ascii) : ascii :=
  let n := N_of_ascii c in
  if ((65 <=? n) && (n <=? 90))%N then ascii_of_N (n + 32) else c.

(** [s.lower()] on ASCII letters *)
Fixpoint lower (s : string) : string :=
  match s with
  | String c r => String (lower_char c) (lower r)
  | EmptyString => EmptyString
  end.

(** [re.sub] that deletes every character not accepted by [keep]. *)
Fixpoint keep_only (keep : ascii → bool) (s : string) : string :=
  match s with
  | String c r => if keep c then String c (keep_only keep r) else keep_only keep r
  | EmptyString => EmptyString
  end.

(** [s.split(c)] for a one-character separator. *)
Fixpoint split_go (c : ascii) (cur : string) (s : string) : list string :=
  match s with
  | String c' r =>
      if Ascii.eqb c c' then String.rev cur :: split_go c EmptyString r
      else split_go c (String c' cur) r
  | EmptyString => [String.rev cur]
  end.

Definition split (c : ascii) (s : string) : list string :=
  split_go c EmptyString s.

(** Every character of [s] is accepted by [p]. *)
Fixpoint todos (p : ascii → bool) (s : string) : bool :=
  match s with
  | String c r => p c && todos p r
  | EmptyString => true
  end.

(** [s.zfill(n)] for a string of digits. *)
Definition zfill (n : nat) (s : string) : string :=
  String.app (string_of_list_ascii (replicate (n - String.length s) "0"%char)) s.
End Texto.

(** ** Decimal: the values and the two operations the script uses

    A finite [Decimal] is a sign, a coefficient and an exponent; the
    payload of a NaN is not modelled.  [of_string] is the constructor
    [Decimal(str)] and [quantize_centavos] is
    [.quantize(Decimal('0.01'), rounding=ROUND_HALF_UP)] in the default
    context (28 digits of precision), both on ASCII text and on exponents
    within the limits of the context. *)

Module Dec.
Inductive Decimal : Type :=
| Finito (negativo : bool) (coeficiente : N) (expoente : Z)
| Infinito (negativo : bool)
| NaN (negativo : bool) (sinalizador : bool).

Definition prec : Z := 28.

(** [Decimal('0')] *)
Definition zero : Decimal := Finito false 0 0.

(** The longest prefix of digits and what follows it. *)
Fixpoint digitos (s : string) : string * string :=
  match s with
  | String c r =>
      if Texto.is_digit c
      then let '(ds, resto) := digitos r in (String c ds, resto)
      else (EmptyString, s)
  | EmptyString => (EmptyString, EmptyString)
  end.

Fixpoint valor_digitos_desde (acc : N) (ds : string) : N :=
  match ds with
  | String c r => valor_digitos_desde (10 * acc + (N_of_ascii c - 48))%N r
  | EmptyString => acc
  end.

Definition valor_digitos (ds : string) : N := valor_digitos_desde 0 ds.

Definition sinal (s : string) : bool * string :=
  match s with
  | String "-" r => (true, r)
  | String "+" r => (false, r)
  | _ => (false, s)
  end.

(** The optional exponent part, up to the end of the text. *)
Definition expoente_final (s : string) : option Z :=
  match s with
  | EmptyString => Some 0
  | String c r =>
      if Ascii.eqb (Texto.lower_char c) "e" then
        let '(neg, r1) := sinal r in
        let '(ds, r2) := digitos r1 in
        match ds, r2 with
        | String _ _, EmptyString =>
            Some (if neg then - Z.of_N (valor_digitos ds)
                  else Z.of_N (valor_digitos ds))
        | _, _ => None
        end
      else None
  end.

Definition so_digitos (s : string) : bool :=
  match digitos s with
  | (_, EmptyString) => true
  | _ => false
  end.

Definition especial (neg : bool) (s : string) : option Decimal :=
  let s := Texto.lower s in
  if String.eqb s "inf" || String.eqb s "infinity" then Some (Infinito neg)
  else if String.prefix "nan" s && so_digitos (String.substring 3 (String.length s) s)
  then Some (NaN neg false)
  else if String.prefix "snan" s && so_digitos (String.substring 4 (String.length s) s)
  then Some (NaN neg true)
  else None.

Definition of_string (s : string) : option Decimal :=
  let s := Texto.remove_char "_" (Texto.strip s) in
  let '(neg, r) := sinal s in
  let '(intpart, r1) := digitos r in
  let '(fracpart, r2) :=
    match r1 with
    | String "." r' => digitos r'
    | _ => (EmptyString, r1)
    end in
  match String.app intpart fracpart with
  | EmptyString => especial neg r
  | String _ _ as ds =>
      match expoente_final r2 with
      | Some e =>
          Some (Finito neg (valor_digitos ds)
                  (e - Z.of_nat (String.length fracpart)))
      | None => None
      end
  end.

(** The coefficient of [c * 10^e] at exponent -2, rounded half up (the
    discarded half goes away from zero; the sign is kept apart). *)
Definition coeficiente_centavos (c : N) (e : Z) : N :=
  if (-2 <=? e)%Z then (c * 10 ^ Z.to_N (e + 2))%N
  else
    let k := Z.to_N (- 2 - e) in
    ((c + 5 * 10 ^ (k - 1)) / 10 ^ k)%N.

Definition quantize_centavos (d : Decimal) : exc Decimal :=
  match d with
  | Finito neg c e =>
      let c' := coeficiente_centavos c e in
      if (c' <? 10 ^ Z.to_N prec)%N then Ret (Finito neg c' (-2))
      else Raise InvalidOperation
  | Infinito _ => Raise InvalidOperation
  | NaN neg false => Ret (NaN neg false)
  | NaN _ true => Raise InvalidOperation
  end.

(** The amount of a [Decimal] in hundredths: exact on every finite value
    with at most two fractional digits, which is what
    [quantize_centavos] returns; finer digits are dropped, and a special
    value, which is no amount, reads as 0. *)
Definition centavos (d : Decimal) : Z :=
  match d with
  | Finito neg c e =>
      let m :=
        if (-2 <=? e)%Z then Z.of_N c * 10 ^ (e + 2)
        else Z.of_N c / 10 ^ (- 2 - e) in
      if neg then - m else m
  | _ => 0
  end.
End Dec.

(** ** Values read from the sheet *)

Inductive Celula : Type :=
| CNone
| CBool (b : bool)
| CInt (z : Z)
| CFloat (repr : string)
| CStr (s : string)
| CDate (d : date)
| CDateTime (d : date) (hora minuto segundo microsegundo : Z).

(** What [converter_valor] may be handed: a [Decimal] or a cell value. *)
Inductive Valor : Type :=
| VDecimal (d : Dec.Decimal)
| VCelula (c : Celula).

Definition iso_date (d : date) : string :=
  String.app (Texto.zfill 4 (pretty (year d)))
    (String.app "-" (String.app (Texto.zfill 2 (pretty (month d)))
      (String.app "-" (Texto.zfill 2 (pretty (day d)))))).

(** [str(valor)]; a float is represented by its [repr]. *)
Definition py_str (c : Celula) : string :=
  match c with
  | CNone => "None"
  | CBool true => "True"
  | CBool false => "False"
  | CInt z => pretty z
  | CFloat repr => repr
  | CStr s => s
  | CDate d => iso_date d
  | CDateTime d h m s us =>
      String.app (iso_date d)
        (String.app " " (String.app (Texto.zfill 2 (pretty h))
          (String.app ":" (String.app (Texto.zfill 2 (pretty m))
            (String.app ":" (String.app (Texto.zfill 2 (pretty s))
              (if us =? 0 then ""
               else String.app "." (Texto.zfill 6 (pretty us)))))))))
  end.

(** Truthiness, [bool(valor)]. *)
Definition py_bool (c : Celula) : bool :=
  match c with
  | CNone => false
  | CBool b => b
  | CInt z => negb (z =? 0)
  | CFloat repr =>
      match Dec.of_string repr with
      | Some (Dec.Finito _ 0 _) => false
      | _ => true
      end
  | CStr s => negb (String.eqb s "")
  | CDate _ => true
  | CDateTime _ _ _ _ _ => true
  end.

(** ** The currency parser *)

(** [Decimal(text).quantize(Decimal('0.01'), rounding=ROUND_HALF_UP)] *)
Definition decimal_quantizado (text : string) : exc Dec.Decimal :=
  match Dec.of_string text with
  | Some d => Dec.quantize_centavos d
  | None => Raise InvalidOperation
  end.

(** The normalisation of the separators of a text. *)
Definition normalizar_separadores (valor_str : string) : string :=
  if Texto.contains_char "," valor_str && Texto.contains_char "." valor_str then
    let ultima_virgula := Texto.rfind "," valor_str in
    let ultimo_ponto := Texto.rfind "." valor_str in
    if ultimo_ponto <? ultima_virgula
    then Texto.replace_char "," "." (Texto.remove_char "." valor_str)
    else Texto.remove_char "," valor_str
  else if Texto.contains_char "," valor_str
  then Texto.replace_char "," "." valor_str
  else valor_str.

(** [.strip().replace('R$', '').replace('$', '').strip()] *)
Definition limpar_simbolos (texto : string) : string :=
  Texto.strip (Texto.remove_char "$"
                 (Texto.remove_par "R" "$" (Texto.strip texto))).

Definition converter_valor (valor : Valor) : exc Dec.Decimal :=
  match valor with
  | VCelula CNone => Ret Dec.zero
  | VDecimal d => Ret d
  | VCelula ((CBool _ | CInt _ | CFloat _) as c) =>
      decimal_quantizado (py_str c)
  | VCelula c =>
      let valor_str := limpar_simbolos (py_str c) in
      let valor_str := normalizar_separadores valor_str in
      match decimal_quantizado valor_str with
      | Ret d => Ret d
      | Raise _ => Ret Dec.zero
      end
  end.

(** [ValorMonetario.__init__] of [utils/valor_monetario.py]: the value it
    stores in [_valor].  [Decimal(str(d))] gives back the Decimal [d]. *)
Definition ValorMonetario_init (valor : Valor) : exc Dec.Decimal :=
  let tentativa :=
    match valor with
    | VCelula (CStr valor) =>
        let valor := limpar_simbolos valor in
        decimal_quantizado (normalizar_separadores valor)
    | VCelula c => decimal_quantizado (py_str c)
    | VDecimal d => Dec.quantize_centavos d
    end in
  match tentativa with
  | Ret d => Ret d
  | Raise _ => Raise ValueError
  end.

(** ** Grouping by invoice number *)

Record EntradaIndice : Type := mk_EntradaIndice {
  dados_individuais : list TransacaoOriginal;
  dados_agrupadas : list TransacaoOriginal
}.

Definition entrada_vazia : EntradaIndice :=
  {| dados_individuais := []; dados_agrupadas := [] |}.

Definition append_agrupada (t : TransacaoOriginal) (e : EntradaIndice) :=
  {| dados_individuais := dados_individuais e;
     dados_agrupadas := dados_agrupadas e ++ [t] |}.

Definition append_individual (t : TransacaoOriginal) (e : EntradaIndice) :=
  {| dados_individuais := dados_individuais e ++ [t];
     dados_agrupadas := dados_agrupadas e |}.

(** The body of [for numero in trans.numeros_nfe]. *)
Definition indexar_numero (trans : TransacaoOriginal)
    (indice : dict string EntradaIndice) (numero : string) : dict string EntradaIndice :=
  if eh_agrupamento trans
  then dict_default_alter entrada_vazia (append_agrupada trans) numero indice
  else dict_default_alter entrada_vazia (append_individual trans) numero indice.

(** The body of [for trans in transacoes]. *)
Definition indexar_transacao (indice : dict string EntradaIndice)
    (trans : TransacaoOriginal) : dict string EntradaIndice :=
  if eh_cancelamento trans || eh_estorno trans then indice
  else foldl (indexar_numero trans) indice (elements (numeros_nfe trans)).

Definition construir_indice (transacoes : list TransacaoOriginal)
  : dict string EntradaIndice :=
  foldl indexar_transacao [] transacoes.

(** [sorted] on strings: a stable merge sort by the lexicographic order
    [String.le] of the byte sequences. *)
Definition sorted (l : list string) : list string := merge_sort String.le l.

(** The body of [for numero, dados in indice.items()], up to the
    construction of the group.  [len(l) > 0] is a match on [l];
    [Ret None] is the [continue] branch; [numeros_na_ordem[0]] raises
    [IndexError] on an empty list. *)
Definition criar_grupo (numero : string) (dados : EntradaIndice)
  : exc (option GrupoNFe) :=
  let individuais := dados_individuais dados in
  let agrupadas := dados_agrupadas dados in
  match individuais with
  | primeira :: _ =>
      let valor_planilha := sum (map valor_boleto individuais) in
      let linhas := map linha individuais in
      Ret (Some {| numero_nfe := numero;
                   g_data_abastecimento := data_abastecimento primeira;
                   g_cnpj_posto := cnpj_posto primeira;
                   g_cnpj_empresa := cnpj_empresa primeira;
                   valor_planilha := valor_planilha;
                   g_postergado := postergado primeira;
                   transacoes_individuais := individuais;
                   transacoes_agrupadas := agrupadas;
                   linhas := linhas |})
  | [] =>
      match agrupadas with
      | primeira_trans_agrupada :: _ =>
          match sorted (elements (numeros_nfe primeira_trans_agrupada)) with
          | primeiro_numero :: _ =>
              let valor_planilha :=
                if decide (numero = primeiro_numero)
                then sum (map valor_boleto agrupadas)
                else 0 in
              let linhas := map linha agrupadas in
              Ret (Some {| numero_nfe := numero;
                           g_data_abastecimento := data_abastecimento primeira_trans_agrupada;
                           g_cnpj_posto := cnpj_posto primeira_trans_agrupada;
                           g_cnpj_empresa := cnpj_empresa primeira_trans_agrupada;
                           valor_planilha := valor_planilha;
                           g_postergado := postergado primeira_trans_agrupada;
                           transacoes_individuais := individuais;
                           transacoes_agrupadas := agrupadas;
                           linhas := linhas |})
          | [] => Raise IndexError
          end
      | [] => Ret None
      end
  end.

Fixpoint criar_grupos_de (itens : dict string EntradaIndice) (grupos : dict string GrupoNFe)
  : exc (dict string GrupoNFe) :=
  match itens with
  | [] => Ret grupos
  | (numero, dados) :: resto =>
      let* g := criar_grupo numero dados in
      match g with
      | Some grupo => criar_grupos_de resto (dict_set numero grupo grupos)
      | None => criar_grupos_de resto grupos
      end
  end.

Definition criar_grupos_nfe (transacoes : list TransacaoOriginal)
  : exc (dict string GrupoNFe) :=
  criar_grupos_de (construir_indice transacoes) [].

(** ** Contributors of an invoice number

    The transactions of the sheet that reach the group of [n]: the ones
    not flagged as cancellation or reversal that reference [n], split by
    the number of invoices they reference. *)

Definition contribui (n : string) (t : TransacaoOriginal) : Prop :=
  eh_cancelamento t = false ∧ eh_estorno t = false ∧ n ∈ numeros_nfe t.

Definition contribuinte_individual (n : string) (t : TransacaoOriginal) : Prop :=
  contribui n t ∧ eh_agrupamento t = false.

Definition contribuinte_agrupado (n : string) (t : TransacaoOriginal) : Prop :=
  contribui n t ∧ eh_agrupamento t = true.

Global Instance contribui_dec n t : Decision (contribui n t).
Proof. unfold contribui. apply _. Defined.
Global Instance contribuinte_individual_dec n t :
  Decision (contribuinte_individual n t).
Proof. unfold contribuinte_individual. apply _. Defined.
Global Instance contribuinte_agrupado_dec n t :
  Decision (contribuinte_agrupado n t).
Proof. unfold contribuinte_agrupado. apply _. Defined.

Definition individuais_de (n : string) (ts : list TransacaoOriginal) :=
  filter (contribuinte_individual n) ts.

Definition agrupadas_de (n : string) (ts : list TransacaoOriginal) :=
  filter (contribuinte_agrupado n) ts.

(** [m] is the lexicographic minimum of the set [s]. *)
Definition menor_lexicografico (m : string) (s : gset string) : Prop :=
  m ∈ s ∧ ∀ x, x ∈ s → String.le m x.


(** What one contributing transaction does to the index entry of each
    number it references, and the entry a number ends up with. *)
Definition registrar (t : TransacaoOriginal) (e : EntradaIndice) : EntradaIndice :=
  if eh_agrupamento t then append_agrupada t e else append_individual t e.

Definition entrada_de (n : string) (ts : list TransacaoOriginal)
  : option EntradaIndice :=
  match individuais_de n ts, agrupadas_de n ts with
  | [], [] => None
  | i, a => Some {| dados_individuais := i; dados_agrupadas := a |}
  end.

(** The group a number has after the second loop has run over [itens],
    starting from the groups [acc]. *)
Definition grupo_resultante (itens : dict string EntradaIndice)
    (acc : dict string GrupoNFe) (n : string) : option GrupoNFe :=
  match dict_get n itens with
  | Some dados =>
      match criar_grupo n dados with
      | Ret (Some g) => Some g
      | _ => dict_get n acc
      end
  | None => dict_get n acc
  end.

(** ** Configuration *)

Record Config : Type := mk_Config {
  CNPJ_EMPRESA : string;
  DATA_FECHAMENTO : date;
  PERIODO_MAXIMO_DIAS : Z;
  TOLERANCIA_VALOR : Z
}.

(** The class attributes of [Config]; the tolerance [Decimal("1.01")] is
    101 hundredths. *)
Definition config_padrao : Config :=
  {| CNPJ_EMPRESA := "17122471000175";
     DATA_FECHAMENTO := mk_date 2025 9 30;
     PERIODO_MAXIMO_DIAS := 60;
     TOLERANCIA_VALOR := 101 |}.

(** ** Confrontation *)

Inductive TipoResultado : Type :=
| IDENTICA
| DIVERGENTE
| DIVERGENTE_AGRUPADA
| NAO_ENCONTRADA
| DESCONSIDERADA.

Global Instance TipoResultado_eq_dec : EqDecision TipoResultado.
Proof. solve_decision. Defined.

(** The free-text reason of a result, kept structured: each constructor
    stands for one of the texts the script formats. *)
Inductive Motivo : Type :=
| XmlNaoEncontrado
| Postergada (dias periodo : Z)
| MatchExato
| DivergenciaSoAgrupado (diferenca : Z)
| Divergencia (diferenca : Z).

Record Resultado : Type := mk_Resultado {
  tipo : TipoResultado;
  grupo : GrupoNFe;
  nfe : option NFe;
  diferenca : Z;
  dias_postergados : Z;
  motivo : Motivo;
  grupo_divergencia_id : option Z
}.

Definition calcular_dias_postergados (data_abastecimento data_fechamento : date) : Z :=
  let delta_days := toordinal data_fechamento - toordinal data_abastecimento in
  Z.max 0 delta_days.

Definition confrontar_grupo (grupo : GrupoNFe) (nfes_index : gmap string NFe)
    (config : Config) : Resultado :=
  match nfes_index !! numero_nfe grupo with
  | None =>
      let dias := calcular_dias_postergados (g_data_abastecimento grupo)
                    (DATA_FECHAMENTO config) in
      {| tipo := NAO_ENCONTRADA;
         grupo := grupo;
         nfe := None;
         diferenca := valor_planilha grupo;
         dias_postergados := dias;
         motivo := XmlNaoEncontrado;
         grupo_divergencia_id := None |}
  | Some nfe =>
      let dias := calcular_dias_postergados (g_data_abastecimento grupo)
                    (DATA_FECHAMENTO config) in
      if PERIODO_MAXIMO_DIAS config <? dias then
        {| tipo := DESCONSIDERADA;
           grupo := grupo;
           nfe := Some nfe;
           diferenca := Z.abs (valor_planilha grupo - valor nfe);
           dias_postergados := dias;
           motivo := Postergada dias (PERIODO_MAXIMO_DIAS config);
           grupo_divergencia_id := None |}
      else
        let diferenca := Z.abs (valor_planilha grupo - valor nfe) in
        let '(tipo, motivo) :=
          if diferenca <=? TOLERANCIA_VALOR config then (IDENTICA, MatchExato)
          else
            match tipo_origem grupo with
            | AGRUPADO => (DIVERGENTE_AGRUPADA, DivergenciaSoAgrupado diferenca)
            | _ => (DIVERGENTE, Divergencia diferenca)
            end in
        {| tipo := tipo;
           grupo := grupo;
           nfe := Some nfe;
           diferenca := diferenca;
           dias_postergados := dias;
           motivo := motivo;
           grupo_divergencia_id := None |}
  end.

(** [{nfe.numero: nfe for nfe in nfes}]: the last invoice of a number wins. *)
Definition criar_indice_nfes (nfes : list NFe) : gmap string NFe :=
  foldl (λ m nfe, <[numero nfe := nfe]> m) ∅ nfes.

(** The dictionary [resultados]: its five keys are fixed, so it is a total
    map from the classification to the list filed under it. *)
Definition Resultados : Type := TipoResultado → list Resultado.

Definition resultados_vazios : Resultados := λ _, [].

(** [resultados[resultado.tipo].append(resultado)] *)
Definition resultados_append (resultados : Resultados) (resultado : Resultado)
  : Resultados :=
  λ k, if decide (k = tipo resultado) then resultados k ++ [resultado]
       else resultados k.

Definition processar_confrontamento (grupos : dict string GrupoNFe)
    (nfes : list NFe) (config : Config) : Resultados :=
  let nfes_index := criar_indice_nfes nfes in
  foldl (λ resultados grupo,
           resultados_append resultados (confrontar_grupo grupo nfes_index config))
        resultados_vazios (dict_values grupos).

(** ** Groups of combined divergences

    [detectar_grupos_divergentes_agrupadas] writes [grupo_divergencia_id]
    into the result objects it was handed, and returns lists that alias
    them.  The objects live in a store (the list passed in); a reference
    to a result is its position in the store. *)

Definition set_grupo_divergencia_id (id : Z) (r : Resultado) : Resultado :=
  {| tipo := tipo r;
     grupo := grupo r;
     nfe := nfe r;
     diferenca := diferenca r;
     dias_postergados := dias_postergados r;
     motivo := motivo r;
     grupo_divergencia_id := Some id |}.

(** [r.grupo_divergencia_id = grupo_id] through the reference [ref]. *)
Definition atribuir_id (id : Z) (store : list Resultado) (ref : nat)
  : list Resultado :=
  alter (set_grupo_divergencia_id id) ref store.

(** The body of the first loop: [ref] is the reference to [resultado]. *)
Definition agrupar_por_linha (grupos : dict Z (list nat))
    (item : nat * Resultado) : dict Z (list nat) :=
  let '(ref, resultado) := item in
  match transacoes_agrupadas (grupo resultado) with
  | primeira_trans :: _ =>
      let chave := linha primeira_trans in
      dict_default_alter [] (λ l, l ++ [ref]) chave grupos
  | [] => grupos
  end.

Record EstadoNumeracao : Type := mk_EstadoNumeracao {
  store : list Resultado;
  grupos_numerados : dict Z (list nat);
  grupo_id : Z
}.

(** The body of the second loop. *)
Definition numerar_grupo (st : EstadoNumeracao) (item : Z * list nat)
  : exc EstadoNumeracao :=
  let '(chave, resultados_grupo) := item in
  if 2 <=? Z.of_nat (length resultados_grupo) then
    Ret {| store := foldl (atribuir_id (grupo_id st)) (store st) resultados_grupo;
           grupos_numerados :=
             dict_set (grupo_id st) resultados_grupo (grupos_numerados st);
           grupo_id := grupo_id st + 1 |}
  else
    match resultados_grupo with
    | r0 :: _ =>
        Ret {| store := atribuir_id (grupo_id st) (store st) r0;
               grupos_numerados :=
                 dict_set (grupo_id st) resultados_grupo (grupos_numerados st);
               grupo_id := grupo_id st + 1 |}
    | [] => Raise IndexError
    end.

Fixpoint numerar_grupos (itens : dict Z (list nat)) (st : EstadoNumeracao)
  : exc EstadoNumeracao :=
  match itens with
  | [] => Ret st
  | item :: resto =>
      let* st' := numerar_grupo st item in
      numerar_grupos resto st'
  end.

(** Returns the store after the writes together with [grupos_numerados],
    whose lists hold references into that store. *)
Definition detectar_grupos_divergentes_agrupadas
    (divergentes_agrupadas : list Resultado)
  : exc (list Resultado * dict Z (list nat)) :=
  let grupos := foldl agrupar_por_linha [] (imap pair divergentes_agrupadas) in
  let* st := numerar_grupos grupos
               {| store := divergentes_agrupadas;
                  grupos_numerados := [];
                  grupo_id := 1 |} in
  Ret (store st, grupos_numerados st).

(** ** Cancellations and reversals *)

Definition calcular_cancelamentos_estornos (transacoes : list TransacaoOriginal)
  : Z * Z :=
  let cancelamento := sum (map valor_boleto (List.filter eh_cancelamento transacoes)) in
  let estorno := sum (map valor_boleto (List.filter eh_estorno transacoes)) in
  let estorno := if 0 <? estorno then - estorno else estorno in
  (cancelamento, estorno).

(** ** Summary *)

Record Resumo : Type := mk_Resumo {
  valor_do_boleto : Z;
  identicas : Z;
  agrupadas : Z;
  divergentes : Z;
  desconsideradas : Z;
  nao_encontradas : Z;
  cancelamento : Z;
  estornos : Z;
  total : Z;
  valor_a_pagar : Z;
  diferenca_validacao : Z
}.

Definition gerar_resumo (resultados : Resultados) (valor_total_boleto : Z)
    (cancelamento estorno : Z) : Resumo :=
  let identicas :=
    sum (map (λ r, valor_planilha (grupo r)) (resultados IDENTICA)) in
  let divergentes_agrupadas :=
    sum (map (λ r, valor_planilha (grupo r)) (resultados DIVERGENTE_AGRUPADA)) in
  let divergentes :=
    sum (map (λ r, valor_planilha (grupo r)) (resultados DIVERGENTE)) in
  let desconsideradas :=
    sum (omap (λ r, valor <$> nfe r) (resultados DESCONSIDERADA)) in
  let nao_encontradas :=
    sum (map (λ r, valor_planilha (grupo r)) (resultados NAO_ENCONTRADA)) in
  let total :=
    identicas + divergentes_agrupadas + divergentes + desconsideradas
    - nao_encontradas in
  let valor_a_pagar := total - desconsideradas in
  let diferenca_validacao := Z.abs (valor_a_pagar - valor_total_boleto) in
  {| valor_do_boleto := valor_total_boleto;
     identicas := identicas;
     agrupadas := divergentes_agrupadas;
     divergentes := divergentes;
     desconsideradas := desconsideradas;
     nao_encontradas := nao_encontradas;
     cancelamento := cancelamento;
     estornos := estorno;
     total := total;
     valor_a_pagar := valor_a_pagar;
     diferenca_validacao := diferenca_validacao |}.

(** ** A worked sheet

    Row 2 and row 4 bill invoice 1001 alone; row 3 bills 1001 and 1002
    together; row 5 bills 2001 and 2002 together; row 6 is a cancellation
    and row 7 a reversal entered as a negative amount. *)

Definition exemplo_data : date := mk_date 2025 9 1.

Definition exemplo_transacao (numeros : gset string) (valor linha : Z)
    (texto : string) (cancelamento estorno : bool) : TransacaoOriginal :=
  {| numeros_nfe := numeros;
     data_abastecimento := exemplo_data;
     cnpj_posto := "11222333000181";
     cnpj_empresa := "17122471000175";
     valor_boleto := valor;
     postergado := "Nao";
     linha := linha;
     texto_original := texto;
     eh_cancelamento := cancelamento;
     eh_estorno := estorno |}.

Definition exemplo_t2 := exemplo_transacao {["1001"]} 50000 2 "NFe1001" false false.
Definition exemplo_t3 :=
  exemplo_transacao {["1001"; "1002"]} 30000 3 "NFe1001, NFe1002" false false.
Definition exemplo_t4 := exemplo_transacao {["1001"]} 2500 4 "NFe1001" false false.
Definition exemplo_t5 :=
  exemplo_transacao {["2001"; "2002"]} 30000 5 "NFe2001, NFe2002" false false.
Definition exemplo_t6 := exemplo_transacao ∅ 5000 6 "Cancelado" true false.
Definition exemplo_t7 := exemplo_transacao ∅ (-1200) 7 "Estorno" false true.

Definition exemplo_transacoes : list TransacaoOriginal :=
  [exemplo_t2; exemplo_t3; exemplo_t4; exemplo_t5; exemplo_t6; exemplo_t7].

Definition exemplo_grupo (numero : string) (valor : Z)
    (individuais agrupadas : list TransacaoOriginal) (linhas : list Z) : GrupoNFe :=
  {| numero_nfe := numero;
     g_data_abastecimento := exemplo_data;
     g_cnpj_posto := "11222333000181";
     g_cnpj_empresa := "17122471000175";
     valor_planilha := valor;
     g_postergado := "Nao";
     transacoes_individuais := individuais;
     transacoes_agrupadas := agrupadas;
     linhas := linhas |}.

Definition exemplo_g1001 :=
  exemplo_grupo "1001" 52500 [exemplo_t2; exemplo_t4] [exemplo_t3] [2; 4].
Definition exemplo_g1002 := exemplo_grupo "1002" 0 [] [exemplo_t3] [3].
Definition exemplo_g2001 := exemplo_grupo "2001" 30000 [] [exemplo_t5] [5].
Definition exemplo_g2002 := exemplo_grupo "2002" 0 [] [exemplo_t5] [5].

Definition exemplo_grupos : dict string GrupoNFe :=
  [("1001", exemplo_g1001); ("1002", exemplo_g1002);
   ("2001", exemplo_g2001); ("2002", exemplo_g2002)].

(** Invoices and groups at the boundaries of the grace period and of the
    tolerance: the closing date of [config_padrao] is 2025-09-30, so a
    purchase of 2025-08-01 is deferred by 60 days and one of 2025-07-31 by
    61 days. *)

Definition exemplo_nfe (numero : string) (valor : Z) : NFe :=
  {| numero := numero;
     data_emissao := exemplo_data;
     cnpj_emitente := "11222333000181";
     cnpj_destinatario := "17122471000175";
     valor := valor;
     xml_path := "nfe.xml" |}.

Definition exemplo_grupo_em (numero : string) (d : date) (valor : Z) : GrupoNFe :=
  {| numero_nfe := numero;
     g_data_abastecimento := d;
     g_cnpj_posto := "11222333000181";
     g_cnpj_empresa := "17122471000175";
     valor_planilha := valor;
     g_postergado := "Nao";
     transacoes_individuais := [exemplo_t2];
     transacoes_agrupadas := [];
     linhas := [2] |}.

Definition exemplo_indice : gmap string NFe :=
  criar_indice_nfes [exemplo_nfe "1001" 50000; exemplo_nfe "3001" 10000].


(** 61 days, no difference. *)
Definition exemplo_g_vencido : GrupoNFe :=
  exemplo_grupo_em "3001" (mk_date 2025 7 31) 10000.

(** 61 days, no invoice of that number. *)
Definition exemplo_g_ausente : GrupoNFe :=
  exemplo_grupo_em "9999" (mk_date 2025 7 31) 4200.

(** ** Keys of the combined divergences

    The key of a result is the row of the first combined contributor of
    its group; [agrupar] is the dictionary the first loop of
    [detectar_grupos_divergentes_agrupadas] builds, [refs_de] the
    references it files under a key, [id_em] the identifier the second
    loop leaves on a reference. *)

Definition chave_de (r : Resultado) : option Z :=
  linha <$> head (transacoes_agrupadas (grupo r)).

Definition agrupar (rs : list Resultado) : dict Z (list nat) :=
  foldl agrupar_por_linha [] (imap pair rs).

Definition refs_de (c : Z) (rs : list Resultado) : list nat :=
  omap (λ item : nat * Resultado,
          if decide (chave_de item.2 = Some c) then Some item.1 else None)
       (imap pair rs).

Definition chaves_de (rs : list Resultado) : gset Z :=
  list_to_set (omap chave_de rs).

Fixpoint id_em (itens : dict Z (list nat)) (id0 : Z) (ref : nat) : option Z :=
  match itens with
  | [] => None
  | (_, refs) :: resto =>
      match id_em resto (id0 + 1) ref with
      | Some id => Some id
      | None => if decide (ref ∈ refs) then Some id0 else None
      end
  end.

(** A result that the confrontation classified as DIVERGENTE_AGRUPADA. *)
Definition resultado_divergente_agrupada (r : Resultado) : Prop :=
  ∃ g nfes_index config,
    confrontar_grupo g nfes_index config = r ∧ tipo r = DIVERGENTE_AGRUPADA.

(** The identifier found through reference [i] in a store. *)
Definition id_de (st : list Resultado) (i : nat) : option Z :=
  st !! i ≫= grupo_divergencia_id.

(** The invoices of the worked sheet, its results, and the combined
    divergences among them: 1002 comes from row 3, 2001 and 2002 from
    row 5. *)
Definition exemplo_nfes : list NFe :=
  [exemplo_nfe "1001" 52500; exemplo_nfe "1002" 20000;
   exemplo_nfe "2001" 10000; exemplo_nfe "2002" 15000].

Definition exemplo_resultados : Resultados :=
  processar_confrontamento exemplo_grupos exemplo_nfes config_padrao.

Definition exemplo_divergentes_agrupadas : list Resultado :=
  [confrontar_grupo exemplo_g1002 (criar_indice_nfes exemplo_nfes) config_padrao;
   confrontar_grupo exemplo_g2001 (criar_indice_nfes exemplo_nfes) config_padrao;
   confrontar_grupo exemplo_g2002 (criar_indice_nfes exemplo_nfes) config_padrao].

(** ** Ingestion of the sheet

    A row of the sheet is the six cells the script reads from it; the
    first data row is row 2. *)

Definition limpar_cnpj_texto (cnpj : string) : string :=
  Texto.keep_only Texto.is_digit cnpj.

(** The constructor of [TransacaoOriginal], with its [__post_init__]. *)
Definition nova_TransacaoOriginal (numeros_nfe : gset string)
    (data_abastecimento : date) (cnpj_posto cnpj_empresa : string)
    (valor_boleto : Z) (postergado : string) (linha : Z)
    (texto_original : string) (eh_cancelamento eh_estorno : bool)
  : TransacaoOriginal :=
  {| numeros_nfe := numeros_nfe;
     data_abastecimento := data_abastecimento;
     cnpj_posto := limpar_cnpj_texto cnpj_posto;
     cnpj_empresa := limpar_cnpj_texto cnpj_empresa;
     valor_boleto := valor_boleto;
     postergado := postergado;
     linha := linha;
     texto_original := texto_original;
     eh_cancelamento := eh_cancelamento;
     eh_estorno := eh_estorno |}.

Definition extrair_numeros_nfe (texto : Celula) : gset string * bool * bool :=
  if negb (py_bool texto) then (∅, false, false)
  else
    let texto_str := Texto.strip (py_str texto) in
    let texto_lower := Texto.lower texto_str in
    let eh_cancelamento :=
      Texto.contains "cancelado" texto_lower
      || Texto.contains "cancelamento" texto_lower in
    let eh_estorno := Texto.contains "estorno" texto_lower in
    if eh_cancelamento || eh_estorno then (∅, eh_cancelamento, eh_estorno)
    else
      let texto_limpo :=
        Texto.keep_only (λ c, Texto.is_digit c || Ascii.eqb c ",") texto_str in
      let numeros := Texto.split "," texto_limpo in
      let numeros_set :=
        list_to_set (List.filter (λ n, negb (String.eqb n ""))
                       (map Texto.strip numeros)) in
      (numeros_set, false, false).

Record LinhaPlanilha : Type := mk_LinhaPlanilha {
  col_numero_nfe : Celula;
  col_data_abastecimento : Celula;
  col_cnpj_posto : Celula;
  col_cnpj_empresa : Celula;
  col_valor_boleto : Celula;
  col_postergado : Celula
}.

Record EstadoCarga : Type := mk_EstadoCarga {
  transacoes_lidas : list TransacaoOriginal;
  erros : Z;
  total_boleto : Z
}.

(** The running total agrees with the transactions read so far. *)
Definition total_coerente (st : EstadoCarga) : Prop :=
  total_boleto st = sum (map valor_boleto (transacoes_lidas st)).

Section Planilha.
(** [datetime.strptime(texto, formato).date()]; [None] when it raises. *)
Variable strptime_date : string → string → option date.

Fixpoint primeira_data (valor_str : string) (formatos : list string)
  : option date :=
  match formatos with
  | [] => None
  | formato :: resto =>
      match strptime_date valor_str formato with
      | Some d => Some d
      | None => primeira_data valor_str resto
      end
  end.

Definition converter_data (valor : Celula) : option date :=
  match valor with
  | CNone => None
  | CDate d => Some d
  | CDateTime d _ _ _ _ => Some d
  | _ =>
      let valor_str := Texto.strip (py_str valor) in
      primeira_data valor_str ["%Y-%m-%d"; "%d/%m/%Y"; "%Y-%m-%d %H:%M:%S"]
  end.

(** The body of [for linha in range(2, ws.max_row + 1)]. *)
Definition carregar_linha (config : Config) (st : EstadoCarga)
    (linha : Z) (cels : LinhaPlanilha) : EstadoCarga :=
  let numero_nfe_texto := col_numero_nfe cels in
  let data_abast := col_data_abastecimento cels in
  let cnpj_posto := col_cnpj_posto cels in
  let cnpj_empresa := col_cnpj_empresa cels in
  let valor := col_valor_boleto cels in
  let postergado := col_postergado cels in
  if negb (py_bool numero_nfe_texto) || negb (py_bool data_abast) then st
  else
    match converter_data data_abast with
    | None =>
        {| transacoes_lidas := transacoes_lidas st;
           erros := erros st + 1;
           total_boleto := total_boleto st |}
    | Some data_convertida =>
        match converter_valor (VCelula valor) with
        | Raise _ =>
            {| transacoes_lidas := transacoes_lidas st;
               erros := erros st + 1;
               total_boleto := total_boleto st |}
        | Ret valor_convertido =>
            let valor_convertido := Dec.centavos valor_convertido in
            let valor_total_boleto := total_boleto st + valor_convertido in
            let '(numeros_nfe, eh_cancelamento, eh_estorno) :=
              extrair_numeros_nfe numero_nfe_texto in
            let transacao :=
              nova_TransacaoOriginal numeros_nfe data_convertida
                (if py_bool cnpj_posto then py_str cnpj_posto else "")
                (if py_bool cnpj_empresa then py_str cnpj_empresa
                 else CNPJ_EMPRESA config)
                valor_convertido
                (if py_bool postergado then py_str postergado else "Não")
                linha
                (py_str numero_nfe_texto)
                eh_cancelamento eh_estorno in
            {| transacoes_lidas := transacoes_lidas st ++ [transacao];
               erros := erros st;
               total_boleto := valor_total_boleto |}
        end
    end.

Definition carregar_linhas (config : Config) (st : EstadoCarga)
    (linhas : list LinhaPlanilha) : EstadoCarga :=
  foldl (λ st item, carregar_linha config st (2 + Z.of_nat item.1) item.2)
        st (imap pair linhas).

(** Returns [(transacoes, valor_total_boleto)]. *)
Definition carregar_transacoes_da_planilha (linhas : list LinhaPlanilha)
    (config : Config) : list TransacaoOriginal * Z :=
  let st := carregar_linhas config
              {| transacoes_lidas := []; erros := 0; total_boleto := 0 |}
              linhas in
  (transacoes_lidas st, total_boleto st).
End Planilha.

(** A sheet with a plain row and a cancelled row. *)
Definition exemplo_linha (texto : string) (valor : Celula) : LinhaPlanilha :=
  {| col_numero_nfe := CStr texto;
     col_data_abastecimento := CDateTime (mk_date 2025 9 1) 0 0 0 0;
     col_cnpj_posto := CStr "11.222.333/0001-81";
     col_cnpj_empresa := CNone;
     col_valor_boleto := valor;
     col_postergado := CNone |}.

Definition exemplo_planilha : list LinhaPlanilha :=
  [exemplo_linha "NFe1001" (CStr "500,00");
   exemplo_linha "Cancelado" (CFloat "50.0")].

(** A reading of dates that accepts no text at all. *)
Definition strptime_nenhum : string → string → option date := λ _ _, None.

(** The part of [main] that leads to the summary: ingestion, grouping,
    confrontation, numbering of the combined divergences (whose writes
    are seen through [resultados]), cancellations and reversals, summary.
    [Ret None] is an early [return]. *)
Definition main_resumo (strptime_date : string → string → option date)
    (nfes : list NFe) (linhas : list LinhaPlanilha) (config : Config)
  : exc (option Resumo) :=
  match nfes with
  | [] => Ret None
  | _ =>
      let '(transacoes, valor_total_boleto) :=
        carregar_transacoes_da_planilha strptime_date linhas config in
      match transacoes with
      | [] => Ret None
      | _ =>
          let* grupos := criar_grupos_nfe transacoes in
          match grupos with
          | [] => Ret None
          | _ =>
              let resultados := processar_confrontamento grupos nfes config in
              let* detectados := detectar_grupos_divergentes_agrupadas
                                   (resultados DIVERGENTE_AGRUPADA) in
              let resultados : Resultados :=
                λ k, if decide (k = DIVERGENTE_AGRUPADA) then detectados.1
                     else resultados k in
              let '(cancelamento, estorno) :=
                calcular_cancelamentos_estornos transacoes in
              Ret (Some (gerar_resumo resultados valor_total_boleto
                           cancelamento estorno))
          end
      end
  end.


(** A [Decimal] with exactly two fractional digits. *)
Definition duas_casas (d : Dec.Decimal) : Prop :=
  ∃ neg c, d = Dec.Finito neg c (-2).

(** ** Tax identifiers *)

(** [limpar_cnpj]: [None] gives the empty text, anything else the digits
    of its [str]. *)
Definition limpar_cnpj (cnpj : Celula) : string :=
  match cnpj with
  | CNone => ""
  | _ => Texto.keep_only Texto.is_digit (py_str cnpj)
  end.

(** [formatar_cnpj]: the slices [cnpj[a:b]] of a text of 14 characters are
    [substring a (b - a)]. *)
Definition formatar_cnpj (cnpj : Celula) : string :=
  let cnpj := limpar_cnpj cnpj in
  if negb (String.length cnpj =? 14)%nat then cnpj
  else
    String.app (String.substring 0 2 cnpj)
      (String.app "." (String.app (String.substring 2 3 cnpj)
        (String.app "." (String.app (String.substring 5 3 cnpj)
          (String.app "/" (String.app (String.substring 8 4 cnpj)
            (String.app "-" (String.substring 12 2 cnpj)))))))).

(** A quiet NaN. *)
Definition nan_silencioso (d : Dec.Decimal) : Prop :=
  ∃ neg, d = Dec.NaN neg false.

(** ** [models/models.py]: the configuration *)

Module Models.
Record Configuracao : Type := mk_Configuracao {
  data_fechamento : date;
  periodo_maximo_dias : Z;
  tolerancia_valor : Z;
  cnpj_destinatario_padrao : string
}.

(** The constructor with its [__post_init__]. *)
Definition nova_Configuracao (data_fechamento : date)
    (periodo_maximo_dias tolerancia_valor : Z)
    (cnpj_destinatario_padrao : string) : exc Configuracao :=
  if periodo_maximo_dias <=? 0 then Raise ValueError
  else if tolerancia_valor <? 0 then Raise ValueError
  else Ret {| data_fechamento := data_fechamento;
              periodo_maximo_dias := periodo_maximo_dias;
              tolerancia_valor := tolerancia_valor;
              cnpj_destinatario_padrao := cnpj_destinatario_padrao |}.

Definition calcular_dias_postergados (self : Configuracao)
    (data_abastecimento : date) : Z :=
  let delta_days := toordinal (data_fechamento self)
                    - toordinal data_abastecimento in
  Z.max 0 delta_days.

Definition esta_dentro_prazo (self : Configuracao)
    (data_abastecimento : date) : bool :=
  let dias := calcular_dias_postergados self data_abastecimento in
  dias <=? periodo_maximo_dias self.
End Models.

(** The script's [Config] holding the values of a [Configuracao]. *)
Definition config_de (c : Models.Configuracao) : Config :=
  {| CNPJ_EMPRESA := Models.cnpj_destinatario_padrao c;
     DATA_FECHAMENTO := Models.data_fechamento c;
     PERIODO_MAXIMO_DIAS := Models.periodo_maximo_dias c;
     TOLERANCIA_VALOR := Models.tolerancia_valor c |}.

(** A partition that differs from [resultados] in the DESCONSIDERADA
    bucket only. *)
Definition com_desconsideradas (resultados : Resultados)
    (rs : list Resultado) : Resultados :=
  λ k, if decide (k = DESCONSIDERADA) then rs else resultados k.


(** ** Rows and the transactions read from them *)

Section Leitura.
Variable strptime_date : string → string → option date.

(** The row passes the guards of the loop body: both key cells are truthy
    and neither the date nor the amount fails to convert. *)
Definition linha_aceita (cels : LinhaPlanilha) : Prop :=
  py_bool (col_numero_nfe cels) = true
  ∧ py_bool (col_data_abastecimento cels) = true
  ∧ is_Some (converter_data strptime_date (col_data_abastecimento cels))
  ∧ ∃ d, converter_valor (VCelula (col_valor_boleto cels)) = Ret d.

(** The fields of [t] are the readings of the cells of the row. *)
Definition lida_de (config : Config) (cels : LinhaPlanilha)
    (t : TransacaoOriginal) : Prop :=
  converter_data strptime_date (col_data_abastecimento cels)
  = Some (data_abastecimento t)
  ∧ (∃ d, converter_valor (VCelula (col_valor_boleto cels)) = Ret d
          ∧ valor_boleto t = Dec.centavos d)
  ∧ extrair_numeros_nfe (col_numero_nfe cels)
    = (numeros_nfe t, eh_cancelamento t, eh_estorno t)
  ∧ texto_original t = py_str (col_numero_nfe cels)
  ∧ cnpj_posto t
    = (if py_bool (col_cnpj_posto cels) then limpar_cnpj (col_cnpj_posto cels)
       else "")
  ∧ cnpj_empresa t
    = (if py_bool (col_cnpj_empresa cels)
       then limpar_cnpj (col_cnpj_empresa cels)
       else limpar_cnpj_texto (CNPJ_EMPRESA config))
  ∧ postergado t
    = (if py_bool (col_postergado cels) then py_str (col_postergado cels)
       else "Não").
End Leitura.

(** The reading of the first row of [exemplo_planilha]. *)
Definition exemplo_lida : TransacaoOriginal :=
  nova_TransacaoOriginal {["1001"]} (mk_date 2025 9 1) "11.222.333/0001-81"
    "17122471000175" 50000 "Não" 2 "NFe1001" false false.

(** ** The text of a [ValorMonetario] *)

(** [sep.join(partes)] *)
Fixpoint join (sep : string) (partes : list string) : string :=
  match partes with
  | [] => ""
  | [p] => p
  | p :: resto => String.app p (String.app sep (join sep resto))
  end.

(** [[s[i:i+3] for i in range(0, len(s), 3)]] *)
Fixpoint fatias_de_3 (s : string) : list string :=
  match s with
  | String a (String b (String c r)) =>
      String a (String b (String c "")) :: fatias_de_3 r
  | "" => []
  | _ => [s]
  end.

(** The coefficient of [c * 10^e] at exponent -2, rounded half even: the
    rescaling done by [format(d, '.2f')]. *)
Definition coeficiente_2f (c : N) (e : Z) : N :=
  if (-2 <=? e)%Z then (c * 10 ^ Z.to_N (e + 2))%N
  else
    let k := Z.to_N (- 2 - e) in
    let q := (c / 10 ^ k)%N in
    let r := (c mod 10 ^ k)%N in
    if (10 ^ k <? 2 * r)%N then (q + 1)%N
    else if (2 * r =? 10 ^ k)%N then (if N.even q then q else q + 1)%N
    else q.

(** [f"{d:.2f}"]: the sign, the digits before the last two (at least
    one), a point and the last two digits.  A NaN prints without the
    diagnostic digits, which [Dec] does not keep. *)
Definition formatar_2f (d : Dec.Decimal) : string :=
  match d with
  | Dec.Finito neg c e =>
      let digitos := Texto.zfill 3 (pretty (coeficiente_2f c e)) in
      let n := String.length digitos in
      String.app (if neg then "-" else "")
        (String.app (String.substring 0 (n - 2) digitos)
           (String.app "." (String.substring (n - 2) 2 digitos)))
  | Dec.Infinito neg => String.app (if neg then "-" else "") "Infinity"
  | Dec.NaN neg s =>
      String.app (if neg then "-" else "") (if s then "sNaN" else "NaN")
  end.

(** [ValorMonetario.__str__], on the value stored in [_valor]. *)
Definition ValorMonetario_str (valor : Dec.Decimal) : exc string :=
  let valor_str := formatar_2f valor in
  let partes := Texto.split "." valor_str in
  match partes with
  | [] => Raise IndexError
  | parte_inteira :: resto =>
      let parte_decimal :=
        match resto with
        | parte :: _ => parte
        | [] => "00"
        end in
      let parte_inteira :=
        if (3 <? String.length parte_inteira)%nat then
          let parte_inteira_rev := String.rev parte_inteira in
          let com_pontos := join "." (fatias_de_3 parte_inteira_rev) in
          String.rev com_pontos
        else parte_inteira in
      Ret (String.app "R$ "
             (String.app parte_inteira (String.app "," parte_decimal)))
  end.

Definition converter_para_decimal (valor : Valor) : exc Dec.Decimal :=
  ValorMonetario_init valor.

Definition formatar_moeda_br (valor : Valor) : exc string :=
  let* vm := ValorMonetario_init valor in
  ValorMonetario_str vm.

(** The characters of a formatted amount after its currency prefix. *)
Definition caractere_de_valor (c : ascii) : bool :=
  Texto.is_digit c || Ascii.eqb "-" c || Ascii.eqb "." c || Ascii.eqb "," c.

(** The integer part as [__str__] prints it: without its points it is
    the sign and the digits, and it has no comma. *)
Definition parte_inteira_de (sinal_e_digitos inteira : string) : Prop :=
  Texto.remove_char "." inteira = sinal_e_digitos
  ∧ Texto.todos caractere_de_valor inteira = true
  ∧ Texto.todos (λ c, negb (Ascii.eqb "," c)) inteira = true.

(** ** Arithmetic of [Decimal] in the default context

    Precision 28, rounding half even, the signals of an invalid operation
    trapped.  The limits of the exponent are not modelled. *)

Module DecArit.
(** The number of decimal digits of a coefficient. *)
Definition num_digitos (c : N) : nat := String.length (pretty c).

(** The rounding of a result to the precision of the context. *)
Definition arredondar (neg : bool) (c : N) (e : Z) : Dec.Decimal :=
  let n := Z.of_nat (num_digitos c) in
  if n <=? Dec.prec then Dec.Finito neg c e
  else
    let k := Z.to_N (n - Dec.prec) in
    let q := (c / 10 ^ k)%N in
    let r := (c mod 10 ^ k)%N in
    let q' :=
      if (10 ^ k <? 2 * r)%N then (q + 1)%N
      else if (2 * r =? 10 ^ k)%N then (if N.even q then q else q + 1)%N
      else q in
    if (q' =? 10 ^ Z.to_N Dec.prec)%N
    then Dec.Finito neg (10 ^ Z.to_N (Dec.prec - 1)) (e + Z.of_N k + 1)
    else Dec.Finito neg q' (e + Z.of_N k).

(** The sum of two finite numbers: exact at the smaller exponent, then
    rounded.  A zero sum is negative only when both terms are negative
    zeros. *)
Definition somar_finitos (s1 : bool) (c1 : N) (e1 : Z)
    (s2 : bool) (c2 : N) (e2 : Z) : Dec.Decimal :=
  let m := Z.min e1 e2 in
  let v1 := Z.of_N c1 * 10 ^ (e1 - m) in
  let v2 := Z.of_N c2 * 10 ^ (e2 - m) in
  if (c1 =? 0)%N && (c2 =? 0)%N then arredondar (s1 && s2) 0 m
  else
    let z := (if s1 then - v1 else v1) + (if s2 then - v2 else v2) in
    arredondar (z <? 0) (Z.abs_N z) m.

(** [a - b] *)
Definition sub (a b : Dec.Decimal) : exc Dec.Decimal :=
  match a, b with
  | Dec.NaN _ true, _ => Raise InvalidOperation
  | _, Dec.NaN _ true => Raise InvalidOperation
  | Dec.NaN neg false, _ => Ret (Dec.NaN neg false)
  | _, Dec.NaN neg false => Ret (Dec.NaN neg false)
  | Dec.Infinito n1, Dec.Infinito n2 =>
      if Bool.eqb n1 n2 then Raise InvalidOperation else Ret (Dec.Infinito n1)
  | Dec.Infinito n1, Dec.Finito _ _ _ => Ret (Dec.Infinito n1)
  | Dec.Finito _ _ _, Dec.Infinito n2 => Ret (Dec.Infinito (negb n2))
  | Dec.Finito s1 c1 e1, Dec.Finito s2 c2 e2 =>
      Ret (somar_finitos s1 c1 e1 (negb s2) c2 e2)
  end.

(** [a + b] *)
Definition add (a b : Dec.Decimal) : exc Dec.Decimal :=
  match a, b with
  | Dec.NaN _ true, _ => Raise InvalidOperation
  | _, Dec.NaN _ true => Raise InvalidOperation
  | Dec.NaN neg false, _ => Ret (Dec.NaN neg false)
  | _, Dec.NaN neg false => Ret (Dec.NaN neg false)
  | Dec.Infinito n1, Dec.Infinito n2 =>
      if Bool.eqb n1 n2 then Ret (Dec.Infinito n1) else Raise InvalidOperation
  | Dec.Infinito n1, Dec.Finito _ _ _ => Ret (Dec.Infinito n1)
  | Dec.Finito _ _ _, Dec.Infinito n2 => Ret (Dec.Infinito n2)
  | Dec.Finito s1 c1 e1, Dec.Finito s2 c2 e2 =>
      Ret (somar_finitos s1 c1 e1 s2 c2 e2)
  end.

(** [abs(d)] *)
Definition abs (d : Dec.Decimal) : exc Dec.Decimal :=
  match d with
  | Dec.NaN _ true => Raise InvalidOperation
  | Dec.NaN neg false => Ret (Dec.NaN neg false)
  | Dec.Infinito _ => Ret (Dec.Infinito false)
  | Dec.Finito _ c e => Ret (arredondar false c e)
  end.

(** [a <= b]: a comparison with a NaN is an invalid operation. *)
Definition le (a b : Dec.Decimal) : exc bool :=
  match a, b with
  | Dec.NaN _ _, _ => Raise InvalidOperation
  | _, Dec.NaN _ _ => Raise InvalidOperation
  | Dec.Infinito true, _ => Ret true
  | _, Dec.Infinito false => Ret true
  | Dec.Infinito false, _ => Ret false
  | _, Dec.Infinito true => Ret false
  | Dec.Finito s1 c1 e1, Dec.Finito s2 c2 e2 =>
      let m := Z.min e1 e2 in
      let v1 := Z.of_N c1 * 10 ^ (e1 - m) in
      let v2 := Z.of_N c2 * 10 ^ (e2 - m) in
      Ret ((if s1 then - v1 else v1) <=? (if s2 then - v2 else v2))
  end.
End DecArit.

(** [ValorMonetario.diferenca], on the stored values. *)
Definition ValorMonetario_diferenca (self outro : Dec.Decimal)
  : exc Dec.Decimal :=
  let* d := DecArit.sub self outro in
  DecArit.abs d.

(** [Decimal(str(valor))]; the text of a [Decimal] gives it back. *)
Definition decimal_de (valor : Valor) : exc Dec.Decimal :=
  match valor with
  | VDecimal d => Ret d
  | VCelula c =>
      match Dec.of_string (py_str c) with
      | Some d => Ret d
      | None => Raise InvalidOperation
      end
  end.

(** [ValorMonetario.dentro_tolerancia] *)
Definition ValorMonetario_dentro_tolerancia (self outro : Dec.Decimal)
    (tolerancia : Valor) : exc bool :=
  let* tolerancia :=
    match tolerancia with
    | VDecimal d => Ret d
    | _ => decimal_de tolerancia
    end in
  let* diferenca := ValorMonetario_diferenca self outro in
  DecArit.le diferenca tolerancia.

(** [valores_iguais] *)
Definition valores_iguais (valor1 valor2 tolerancia : Valor) : exc bool :=
  let* vm1 := ValorMonetario_init valor1 in
  let* vm2 := ValorMonetario_init valor2 in
  let* tolerancia := decimal_de tolerancia in
  ValorMonetario_dentro_tolerancia vm1 vm2 (VDecimal tolerancia).

(** The [Decimal] of an amount in hundredths. *)
Definition decimal_de_centavos (z : Z) : Dec.Decimal :=
  Dec.Finito (z <? 0) (Z.abs_N z) (-2).

(** [ValorMonetario.__add__] and [ValorMonetario.__sub__], which give the
    value stored in the new object: the sum or the difference is taken
    before the constructor runs, outside its [try]. *)
Definition ValorMonetario_add (self outro : Dec.Decimal) : exc Dec.Decimal :=
  let* soma := DecArit.add self outro in
  ValorMonetario_init (VDecimal soma).

Definition ValorMonetario_sub (self outro : Dec.Decimal) : exc Dec.Decimal :=
  let* diferenca := DecArit.sub self outro in
  ValorMonetario_init (VDecimal diferenca).
(** * Properties *)

(** ** Dictionaries *)

Section DictFacts.
Context {K : Type} `{EqDecision K} {V : Type}.
Implicit Types (d : dict K V) (k : K).

Lemma dict_get_None_keys k d : dict_get k d = None ↔ k ∉ dict_keys d.
Proof.
  induction d as [|[k' v] r IH]; cbn [dict_get dict_keys map fst].
  - split; [intros _; apply not_elem_of_nil | done].
  - fold (dict_keys r). rewrite not_elem_of_cons.
    destruct (decide (k = k')) as [->|Hne]; [|tauto].
    split; [done | intros [? _]; done].
Qed.

Lemma dict_get_default_alter_eq dflt f k d :
  dict_get k (dict_default_alter dflt f k d)
  = Some (f (default dflt (dict_get k d))).
Proof.
  induction d as [|[k' v] r IH]; cbn [dict_get dict_default_alter].
  - by rewrite decide_True.
  - destruct (decide (k = k')) as [->|Hne]; cbn [dict_get].
    + by rewrite decide_True.
    + by rewrite decide_False.
Qed.

Lemma dict_get_default_alter_ne dflt f k k' d :
  k ≠ k' →
  dict_get k' (dict_default_alter dflt f k d) = dict_get k' d.
Proof.
  intros Hne. induction d as [|[k0 v] r IH]; cbn [dict_get dict_default_alter].
  - by rewrite decide_False.
  - destruct (decide (k = k0)) as [->|Hne0]; cbn [dict_get].
    + by rewrite !decide_False.
    + destruct (decide (k' = k0)); [done | apply IH].
Qed.

Lemma dict_keys_default_alter dflt f k d :
  dict_keys (dict_default_alter dflt f k d)
  = if decide (k ∈ dict_keys d) then dict_keys d else dict_keys d ++ [k].
Proof.
  induction d as [|[k0 v] r IH]; cbn [dict_default_alter dict_keys map fst].
  - by rewrite decide_False by apply not_elem_of_nil.
  - destruct (decide (k = k0)) as [->|Hne]; cbn [map fst].
    + by rewrite decide_True by apply list_elem_of_here.
    + fold (dict_keys (dict_default_alter dflt f k r)). rewrite IH.
      fold (dict_keys r).
      clear IH. repeat case_decide; try done;
        exfalso; rewrite elem_of_cons in *; tauto.
Qed.

Lemma dict_keys_default_alter_NoDup dflt f k d :
  NoDup (dict_keys d) → NoDup (dict_keys (dict_default_alter dflt f k d)).
Proof.
  intros Hnd. rewrite dict_keys_default_alter.
  destruct (decide (k ∈ dict_keys d)); [done|].
  apply NoDup_app. split_and!; [done | | apply NoDup_singleton].
  intros x Hx Hx'. apply list_elem_of_singleton in Hx'. by subst.
Qed.

Lemma dict_get_set_eq k v d : dict_get k (dict_set k v d) = Some v.
Proof.
  induction d as [|[k' v'] r IH]; cbn [dict_get dict_set].
  - by rewrite decide_True.
  - destruct (decide (k = k')) as [->|Hne]; cbn [dict_get].
    + by rewrite decide_True.
    + by rewrite decide_False.
Qed.

Lemma dict_get_set_ne k k' v d :
  k ≠ k' → dict_get k' (dict_set k v d) = dict_get k' d.
Proof.
  intros Hne. induction d as [|[k0 v0] r IH]; cbn [dict_get dict_set].
  - by rewrite decide_False.
  - destruct (decide (k = k0)) as [->|Hne0]; cbn [dict_get].
    + by rewrite !decide_False.
    + destruct (decide (k' = k0)); [done | apply IH].
Qed.

Lemma dict_keys_set k v d :
  dict_keys (dict_set k v d)
  = if decide (k ∈ dict_keys d) then dict_keys d else dict_keys d ++ [k].
Proof.
  induction d as [|[k0 v0] r IH]; cbn [dict_set dict_keys map fst].
  - by rewrite decide_False by apply not_elem_of_nil.
  - destruct (decide (k = k0)) as [->|Hne]; cbn [map fst].
    + by rewrite decide_True by apply list_elem_of_here.
    + fold (dict_keys (dict_set k v r)). rewrite IH.
      fold (dict_keys r).
      clear IH. repeat case_decide; try done;
        exfalso; rewrite elem_of_cons in *; tauto.
Qed.

Lemma dict_get_elem_of k v d :
  NoDup (dict_keys d) → (k, v) ∈ d → dict_get k d = Some v.
Proof.
  induction d as [|[k' v'] r IH]; cbn [dict_get dict_keys map fst];
    intros Hnd Hin; [by apply elem_of_nil in Hin|].
  fold (dict_keys r) in Hnd. apply NoDup_cons in Hnd as [Hk Hnd].
  apply elem_of_cons in Hin as [[= <- <-]|Hin]; [by rewrite decide_True|].
  rewrite decide_False; [by apply IH|].
  intros ->. apply Hk. apply list_elem_of_fmap. by exists (k', v).
Qed.

Lemma dict_keys_set_NoDup k v d :
  NoDup (dict_keys d) → NoDup (dict_keys (dict_set k v d)).
Proof.
  intros Hnd. rewrite dict_keys_set.
  destruct (decide (k ∈ dict_keys d)); [done|].
  apply NoDup_app. split_and!; [done | | apply NoDup_singleton].
  intros x Hx Hx'. apply list_elem_of_singleton in Hx'. by subst.
Qed.
End DictFacts.

(** ** The index built by the first loop of [criar_grupos_nfe] *)

Section Indice.
Implicit Types (t : TransacaoOriginal) (ts : list TransacaoOriginal).
Implicit Types (indice : dict string EntradaIndice) (n : string).

Lemma indexar_numero_registrar t indice n :
  indexar_numero t indice n
  = dict_default_alter entrada_vazia (registrar t) n indice.
Proof.
  unfold indexar_numero, registrar.
  destruct (eh_agrupamento t); reflexivity.
Qed.

Lemma indexar_numeros_get t (ns : list string) indice n :
  NoDup ns →
  dict_get n (foldl (indexar_numero t) indice ns)
  = if decide (n ∈ ns)
    then Some (registrar t (default entrada_vazia (dict_get n indice)))
    else dict_get n indice.
Proof.
  revert indice. induction ns as [|k ns IH]; intros indice Hnd.
  - by rewrite decide_False by apply not_elem_of_nil.
  - apply NoDup_cons in Hnd as [Hk Hnd]. cbn [foldl].
    rewrite IH by done. rewrite indexar_numero_registrar.
    destruct (decide (n = k)) as [->|Hne].
    + rewrite decide_False by done.
      rewrite decide_True by apply list_elem_of_here.
      apply dict_get_default_alter_eq.
    + rewrite dict_get_default_alter_ne by done.
      destruct (decide (n ∈ ns)) as [Hin|Hin].
      * by rewrite decide_True by (by apply list_elem_of_further).
      * rewrite decide_False; [done|]. rewrite not_elem_of_cons. done.
Qed.

Lemma indexar_numeros_NoDup t (ns : list string) indice :
  NoDup (dict_keys indice) →
  NoDup (dict_keys (foldl (indexar_numero t) indice ns)).
Proof.
  revert indice. induction ns as [|k ns IH]; intros indice Hnd; [done|].
  cbn [foldl]. apply IH. rewrite indexar_numero_registrar.
  by apply dict_keys_default_alter_NoDup.
Qed.

Lemma entrada_de_snoc n ts t :
  entrada_de n (ts ++ [t])
  = if decide (contribui n t)
    then Some (registrar t (default entrada_vazia (entrada_de n ts)))
    else entrada_de n ts.
Proof.
  unfold entrada_de, individuais_de, agrupadas_de.
  rewrite !filter_app. cbn [filter list_filter].
  unfold registrar.
  destruct (decide (contribuinte_individual n t)) as [[Hc Hi]|Hi],
           (decide (contribuinte_agrupado n t)) as [[Hc' Ha]|Ha].
  - congruence.
  - rewrite decide_True by done. rewrite Hi, app_nil_r.
    destruct (filter _ ts) as [|i li], (filter _ ts) as [|a la]; done.
  - rewrite decide_True by done. rewrite Ha, app_nil_r.
    destruct (filter _ ts) as [|i li], (filter _ ts) as [|a la]; done.
  - rewrite decide_False; [by rewrite !app_nil_r|].
    intros Hc. unfold contribuinte_individual, contribuinte_agrupado in *.
    destruct (eh_agrupamento t); tauto.
Qed.

Lemma indexar_transacao_get indice ts t n :
  NoDup (dict_keys indice) →
  (∀ k, dict_get k indice = entrada_de k ts) →
  dict_get n (indexar_transacao indice t) = entrada_de n (ts ++ [t]).
Proof.
  intros Hnd Hinv. rewrite entrada_de_snoc. unfold indexar_transacao.
  destruct (eh_cancelamento t || eh_estorno t) eqn:Hex.
  - rewrite decide_False; [apply Hinv|].
    intros (Hc & He & _). rewrite Hc, He in Hex. done.
  - apply orb_false_elim in Hex as [Hc He].
    rewrite indexar_numeros_get by apply NoDup_elements.
    rewrite Hinv. unfold contribui.
    destruct (decide (n ∈ elements (numeros_nfe t))) as [Hin|Hin];
      rewrite elem_of_elements in Hin.
    + by rewrite decide_True by done.
    + rewrite decide_False; [done|]. intros (_ & _ & ?). done.
Qed.

Lemma indexar_transacao_NoDup indice t :
  NoDup (dict_keys indice) → NoDup (dict_keys (indexar_transacao indice t)).
Proof.
  intros Hnd. unfold indexar_transacao.
  destruct (_ || _); [done|]. by apply indexar_numeros_NoDup.
Qed.

Lemma foldl_indexar_transacao indice pre ts :
  NoDup (dict_keys indice) →
  (∀ k, dict_get k indice = entrada_de k pre) →
  NoDup (dict_keys (foldl indexar_transacao indice ts))
  ∧ ∀ k, dict_get k (foldl indexar_transacao indice ts)
         = entrada_de k (pre ++ ts).
Proof.
  revert indice pre. induction ts as [|t ts IH]; intros indice pre Hnd Hinv.
  - rewrite app_nil_r. done.
  - cbn [foldl]. replace (pre ++ t :: ts) with ((pre ++ [t]) ++ ts)
      by (by rewrite <- app_assoc).
    apply IH.
    + by apply indexar_transacao_NoDup.
    + intros k. by apply indexar_transacao_get.
Qed.

Lemma construir_indice_NoDup ts : NoDup (dict_keys (construir_indice ts)).
Proof.
  apply (foldl_indexar_transacao [] [] ts); [apply NoDup_nil_2 | done].
Qed.

Lemma construir_indice_get ts n :
  dict_get n (construir_indice ts) = entrada_de n ts.
Proof.
  apply (foldl_indexar_transacao [] [] ts); [apply NoDup_nil_2 | done].
Qed.
End Indice.

(** ** The lexicographic order and [sorted] *)

Lemma sorted_elem_of (l : list string) x : x ∈ sorted l ↔ x ∈ l.
Proof. unfold sorted. by rewrite merge_sort_Permutation. Qed.

Lemma sorted_nil_inv (l : list string) : sorted l = [] → l = [].
Proof.
  intros H. apply Permutation_nil_r. rewrite <- H. unfold sorted.
  by rewrite merge_sort_Permutation.
Qed.

Lemma sorted_head_menor (s : gset string) m r :
  sorted (elements s) = m :: r → menor_lexicografico m s.
Proof.
  intros Hs.
  assert (StronglySorted String.le (m :: r)) as Hss.
  { rewrite <- Hs. apply StronglySorted_merge_sort; apply _. }
  apply StronglySorted_inv in Hss as [_ Hall].
  split.
  - apply elem_of_elements, sorted_elem_of. rewrite Hs. apply list_elem_of_here.
  - intros x Hx. apply elem_of_elements, sorted_elem_of in Hx.
    rewrite Hs in Hx. apply elem_of_cons in Hx as [->|Hx]; [done|].
    rewrite Forall_forall in Hall. by apply Hall.
Qed.

Lemma menor_lexicografico_unico (s : gset string) m m' :
  menor_lexicografico m s → menor_lexicografico m' s → m = m'.
Proof. intros [Hin Hle] [Hin' Hle']. apply (anti_symm String.le); auto. Qed.

(** ** The groups built by the second loop of [criar_grupos_nfe] *)

Section Grupos.
Implicit Types (t : TransacaoOriginal) (ts : list TransacaoOriginal).
Implicit Types (n : string) (dados : EntradaIndice).

Lemma eh_agrupamento_elements t :
  eh_agrupamento t = true → elements (numeros_nfe t) ≠ [].
Proof.
  unfold eh_agrupamento. intros H Hnil.
  apply Z.ltb_lt in H. unfold size, set_size in H. simpl in H.
  rewrite Hnil in H. simpl in H. lia.
Qed.

Lemma agrupadas_de_agrupamento n ts :
  Forall (λ t, eh_agrupamento t = true) (agrupadas_de n ts).
Proof.
  apply Forall_forall. intros t Ht.
  apply list_elem_of_filter in Ht as [[_ ?] _]. done.
Qed.

(** No [IndexError]: every transaction filed as combined references at
    least two numbers, so its sorted reference list has a first element. *)
Lemma criar_grupo_nao_falha n dados :
  Forall (λ t, eh_agrupamento t = true) (dados_agrupadas dados) →
  ∃ og, criar_grupo n dados = Ret og.
Proof.
  intros Hall. unfold criar_grupo.
  destruct (dados_individuais dados) as [|i li]; [|eauto].
  destruct (dados_agrupadas dados) as [|a la]; [eauto|].
  apply Forall_cons in Hall as [Ha _].
  destruct (sorted (elements (numeros_nfe a))) as [|m r] eqn:Hs; [|eauto].
  apply sorted_nil_inv in Hs. by apply eh_agrupamento_elements in Ha.
Qed.

Lemma criar_grupos_de_ok (itens : dict string EntradaIndice) :
  ∀ acc : dict string GrupoNFe,
  NoDup (dict_keys itens) →
  NoDup (dict_keys acc) →
  (∀ k dados, dict_get k itens = Some dados →
              ∃ og, criar_grupo k dados = Ret og) →
  ∃ grupos, criar_grupos_de itens acc = Ret grupos
            ∧ NoDup (dict_keys grupos)
            ∧ ∀ n, dict_get n grupos = grupo_resultante itens acc n.
Proof.
  induction itens as [|[k dados] resto IH]; intros acc Hnd Hacc Hok.
  - exists acc. done.
  - cbn [dict_keys map fst] in Hnd. apply NoDup_cons in Hnd as [Hk Hnd].
    fold (dict_keys resto) in Hk, Hnd.
    assert (dict_get k resto = None) as Hkr by (by apply dict_get_None_keys).
    destruct (Hok k dados) as [og Hog].
    { cbn [dict_get]. by rewrite decide_True. }
    assert (∀ k' d, dict_get k' resto = Some d →
                    ∃ og', criar_grupo k' d = Ret og') as Hok'.
    { intros k' d Hd. apply Hok. cbn [dict_get].
      destruct (decide (k' = k)) as [->|]; [congruence | done]. }
    cbn [criar_grupos_de]. rewrite Hog. cbn [exc_bind].
    destruct og as [g|].
    + destruct (IH (dict_set k g acc)) as (grupos & Hg & Hndg & Hget);
        [done | by apply dict_keys_set_NoDup | done |].
      exists grupos. split_and!; [done..|].
      intros n. rewrite Hget. unfold grupo_resultante. cbn [dict_get].
      destruct (decide (n = k)) as [->|Hne].
      * by rewrite Hkr, Hog, dict_get_set_eq.
      * rewrite dict_get_set_ne by done. done.
    + destruct (IH acc) as (grupos & Hg & Hndg & Hget); [done..|].
      exists grupos. split_and!; [done..|].
      intros n. rewrite Hget. unfold grupo_resultante. cbn [dict_get].
      destruct (decide (n = k)) as [->|Hne]; [|done].
      by rewrite Hkr, Hog.
Qed.

Lemma entrada_de_Some n ts dados :
  entrada_de n ts = Some dados →
  dados = {| dados_individuais := individuais_de n ts;
             dados_agrupadas := agrupadas_de n ts |}.
Proof.
  unfold entrada_de.
  destruct (individuais_de n ts), (agrupadas_de n ts); congruence.
Qed.

Lemma entrada_de_None n ts :
  entrada_de n ts = None → individuais_de n ts = [] ∧ agrupadas_de n ts = [].
Proof.
  unfold entrada_de.
  destruct (individuais_de n ts), (agrupadas_de n ts); done.
Qed.

(** The group map of a sheet: the function returns, its keys are unique,
    and the group of each number is the one [criar_grupo] builds from the
    contributors of that number (none when it has no contributor). *)
Lemma criar_grupos_nfe_ok ts :
  ∃ grupos, criar_grupos_nfe ts = Ret grupos
    ∧ NoDup (dict_keys grupos)
    ∧ ∀ n, Ret (dict_get n grupos)
           = criar_grupo n {| dados_individuais := individuais_de n ts;
                              dados_agrupadas := agrupadas_de n ts |}.
Proof.
  unfold criar_grupos_nfe.
  destruct (criar_grupos_de_ok (construir_indice ts) [])
    as (grupos & Hg & Hnd & Hget).
  - apply construir_indice_NoDup.
  - apply NoDup_nil_2.
  - intros k dados Hd. rewrite construir_indice_get in Hd.
    apply entrada_de_Some in Hd as ->.
    apply criar_grupo_nao_falha, agrupadas_de_agrupamento.
  - exists grupos. split_and!; [done..|].
    intros n. rewrite Hget. unfold grupo_resultante.
    rewrite construir_indice_get.
    destruct (entrada_de n ts) as [dados|] eqn:He.
    + apply entrada_de_Some in He as Hd. rewrite <- Hd.
      destruct (criar_grupo_nao_falha n dados) as [og Hog].
      { rewrite Hd. apply agrupadas_de_agrupamento. }
      rewrite Hog. destruct og; [done|]. done.
    + apply entrada_de_None in He as [-> ->]. done.
Qed.
End Grupos.

Lemma sum_foldl (a : Z) (xs : list Z) : foldl Z.add a xs = a + sum xs.
Proof.
  unfold sum. revert a. induction xs as [|x xs IH]; intros a; cbn [foldl].
  - lia.
  - rewrite (IH (a + x)), (IH (0 + x)). lia.
Qed.

Lemma sum_nil : sum [] = 0.
Proof. reflexivity. Qed.

Lemma sum_cons (x : Z) (xs : list Z) : sum (x :: xs) = x + sum xs.
Proof. unfold sum at 1. cbn [foldl]. rewrite sum_foldl. lia. Qed.

Lemma sum_app (xs ys : list Z) : sum (xs ++ ys) = sum xs + sum ys.
Proof.
  induction xs as [|x xs IH]; cbn [app]; [by rewrite sum_nil|].
  rewrite !sum_cons, IH. lia.
Qed.

Lemma sum_pos (xs : list Z) :
  xs ≠ [] → Forall (λ x, 0 < x) xs → 0 < sum xs.
Proof.
  intros Hne Hall. destruct xs as [|x xs]; [done|].
  apply Forall_cons in Hall as [Hx Hall]. rewrite sum_cons.
  assert (0 <= sum xs); [|lia].
  clear Hne Hx. induction Hall as [|y ys Hy _ IH]; [by rewrite sum_nil|].
  rewrite sum_cons. lia.
Qed.

Section GruposDaPlanilha.
Implicit Types (ts : list TransacaoOriginal) (n : string) (g : GrupoNFe).

Lemma grupo_de_criar_grupo ts grupos n g :
  criar_grupos_nfe ts = Ret grupos →
  dict_get n grupos = Some g →
  criar_grupo n {| dados_individuais := individuais_de n ts;
                   dados_agrupadas := agrupadas_de n ts |} = Ret (Some g).
Proof.
  intros Hg Hn. destruct (criar_grupos_nfe_ok ts) as (grupos' & Hg' & _ & Hget).
  rewrite Hg in Hg'. injection Hg' as <-. by rewrite <- Hget, Hn.
Qed.

Lemma grupo_contribuintes ts grupos n g :
  criar_grupos_nfe ts = Ret grupos →
  dict_get n grupos = Some g →
  numero_nfe g = n
  ∧ transacoes_individuais g = individuais_de n ts
  ∧ transacoes_agrupadas g = agrupadas_de n ts.
Proof.
  intros Hg Hn. pose proof (grupo_de_criar_grupo _ _ _ _ Hg Hn) as Hc.
  unfold criar_grupo in Hc. cbn [dados_individuais dados_agrupadas] in Hc.
  destruct (individuais_de n ts) as [|i li].
  - destruct (agrupadas_de n ts) as [|a la]; [done|].
    destruct (sorted _); [done|]. by injection Hc as <-.
  - by injection Hc as <-.
Qed.

(** Every number some non-excluded transaction references has a group. *)
Lemma grupo_existe ts grupos n t :
  criar_grupos_nfe ts = Ret grupos →
  t ∈ ts → contribui n t →
  ∃ g, dict_get n grupos = Some g.
Proof.
  intros Hg Ht Hc. destruct (criar_grupos_nfe_ok ts) as (grupos' & Hg' & _ & Hget).
  rewrite Hg in Hg'. injection Hg' as <-.
  destruct (dict_get n grupos) as [g|] eqn:Hn; [eauto|]. exfalso.
  specialize (Hget n). rewrite Hn in Hget. unfold criar_grupo in Hget.
  cbn [dados_individuais dados_agrupadas] in Hget.
  destruct (individuais_de n ts) as [|i li] eqn:Hi; [|done].
  destruct (agrupadas_de n ts) as [|a la] eqn:Ha.
  - destruct (eh_agrupamento t) eqn:Hag.
    + assert (t ∈ agrupadas_de n ts) as Hin
        by (by apply list_elem_of_filter).
      rewrite Ha in Hin. by apply elem_of_nil in Hin.
    + assert (t ∈ individuais_de n ts) as Hin
        by (by apply list_elem_of_filter).
      rewrite Hi in Hin. by apply elem_of_nil in Hin.
  - destruct (sorted _); done.
Qed.
End GruposDaPlanilha.

Example exemplo_criar_grupos_nfe :
  criar_grupos_nfe exemplo_transacoes = Ret exemplo_grupos.
Proof. vm_compute. reflexivity. Qed.

(** * The claims about grouping *)

(** C2 (individual-sum invariant).  [criar_grupos_nfe] returns a group map
    for every transaction list, and every group in it that has at least
    one individual contributor holds, as individual contributors, exactly
    the non-excluded transactions of the sheet that reference its number
    alone, and as combined contributors the ones that reference it together
    with other numbers; its allocated value is the sum of the billed values
    of the individual contributors only. *)
Theorem criar_grupos_nfe_soma_individuais (ts : list TransacaoOriginal) :
  ∃ grupos, criar_grupos_nfe ts = Ret grupos ∧
    ∀ n g,
      dict_get n grupos = Some g →
      transacoes_individuais g ≠ [] →
      transacoes_individuais g = individuais_de n ts
      ∧ transacoes_agrupadas g = agrupadas_de n ts
      ∧ valor_planilha g = sum (map valor_boleto (individuais_de n ts)).
Proof.
  destruct (criar_grupos_nfe_ok ts) as (grupos & Hg & _ & _).
  exists grupos. split; [done|]. intros n g Hn Hne.
  destruct (grupo_contribuintes _ _ _ _ Hg Hn) as (_ & Hi & Ha).
  split_and!; [done..|].
  pose proof (grupo_de_criar_grupo _ _ _ _ Hg Hn) as Hc.
  unfold criar_grupo in Hc. cbn [dados_individuais dados_agrupadas] in Hc.
  rewrite Hi in Hne.
  destruct (individuais_de n ts) as [|i li]; [done|].
  by injection Hc as <-.
Qed.

Lemma criar_grupos_nfe_soma_individuais_witness :
  ∃ grupos, criar_grupos_nfe exemplo_transacoes = Ret grupos
    ∧ dict_get "1001" grupos = Some exemplo_g1001
    ∧ transacoes_individuais exemplo_g1001 ≠ []
    ∧ transacoes_agrupadas exemplo_g1001 = agrupadas_de "1001" exemplo_transacoes
    ∧ valor_planilha exemplo_g1001
      = sum (map valor_boleto (individuais_de "1001" exemplo_transacoes)).
Proof.
  destruct (criar_grupos_nfe_soma_individuais exemplo_transacoes)
    as (grupos & Hg & H).
  exists grupos. split; [exact Hg|].
  assert (grupos = exemplo_grupos) as ->.
  { rewrite exemplo_criar_grupos_nfe in Hg. by injection Hg. }
  assert (dict_get "1001" exemplo_grupos = Some exemplo_g1001) as Hn
    by reflexivity.
  assert (transacoes_individuais exemplo_g1001 ≠ []) as Hne by discriminate.
  destruct (H "1001" exemplo_g1001 Hn Hne) as (_ & Ha & Hv).
  split_and!; assumption.
Defined.

(** C3 (combined-anchor invariant).  [criar_grupos_nfe] returns a group
    map for every transaction list, and every group in it with no
    individual contributor has at least one combined contributor; with [m]
    the lexicographic minimum of the reference set of the first of them,
    the allocated value is the sum of the billed values of all the combined
    contributors when the number of the group is [m], and zero otherwise.
    Hence, when the billed values are positive, the allocated value is
    nonzero iff the number of the group is [m]. *)
Theorem criar_grupos_nfe_ancora_agrupada (ts : list TransacaoOriginal) :
  ∃ grupos, criar_grupos_nfe ts = Ret grupos ∧
    ∀ n g,
      dict_get n grupos = Some g →
      transacoes_individuais g = [] →
      ∃ primeira resto m,
        agrupadas_de n ts = primeira :: resto
        ∧ transacoes_agrupadas g = primeira :: resto
        ∧ menor_lexicografico m (numeros_nfe primeira)
        ∧ valor_planilha g
          = (if decide (n = m)
             then sum (map valor_boleto (primeira :: resto))
             else 0)
        ∧ ((∀ t, t ∈ primeira :: resto → 0 < valor_boleto t) →
           (valor_planilha g ≠ 0 ↔ n = m)).
Proof.
  destruct (criar_grupos_nfe_ok ts) as (grupos & Hg & _ & _).
  exists grupos. split; [done|]. intros n g Hn Hnil.
  destruct (grupo_contribuintes _ _ _ _ Hg Hn) as (_ & Hi & Ha).
  pose proof (grupo_de_criar_grupo _ _ _ _ Hg Hn) as Hc.
  unfold criar_grupo in Hc. cbn [dados_individuais dados_agrupadas] in Hc.
  rewrite Hi in Hnil. rewrite Hnil in Hc.
  destruct (agrupadas_de n ts) as [|primeira resto] eqn:Hag; [done|].
  destruct (sorted (elements (numeros_nfe primeira))) as [|m r] eqn:Hs; [done|].
  exists primeira, resto, m. injection Hc as <-. cbn [valor_planilha].
  split_and!; [done | done | by eapply sorted_head_menor | done |].
  intros Hpos. destruct (decide (n = m)) as [->|Hne]; [|tauto].
  assert (0 < sum (map valor_boleto (primeira :: resto))) as Hsum.
  { apply sum_pos; [done|]. apply Forall_fmap, Forall_forall. exact Hpos. }
  cbn [map] in Hsum. split; [done | lia].
Qed.

Lemma criar_grupos_nfe_ancora_agrupada_witness :
  ∃ grupos, criar_grupos_nfe exemplo_transacoes = Ret grupos
    ∧ dict_get "2001" grupos = Some exemplo_g2001
    ∧ dict_get "2002" grupos = Some exemplo_g2002
    ∧ menor_lexicografico "2001" (numeros_nfe exemplo_t5)
    ∧ valor_planilha exemplo_g2001 = 30000
    ∧ valor_planilha exemplo_g2002 = 0.
Proof.
  destruct (criar_grupos_nfe_ancora_agrupada exemplo_transacoes)
    as (grupos & Hg & H).
  exists grupos. split; [exact Hg|].
  assert (grupos = exemplo_grupos) as ->.
  { rewrite exemplo_criar_grupos_nfe in Hg. by injection Hg. }
  assert (dict_get "2001" exemplo_grupos = Some exemplo_g2001) as Hn
    by reflexivity.
  assert (transacoes_individuais exemplo_g2001 = []) as Hnil by reflexivity.
  destruct (H "2001" exemplo_g2001 Hn Hnil) as (p & r & m & _ & Ha & Hm & _).
  injection Ha as <- <-.
  split_and!; [reflexivity | reflexivity | | reflexivity | reflexivity].
  assert (m = "2001") as <-; [|exact Hm].
  destruct Hm as [Hin Hle].
  apply elem_of_elements in Hin. vm_compute in Hin.
  apply elem_of_cons in Hin as [->|Hin]; [reflexivity|].
  apply list_elem_of_singleton in Hin as ->.
  assert ("2001" ∈ numeros_nfe exemplo_t5) as H1
    by (apply elem_of_elements; vm_compute; apply list_elem_of_here).
  apply Hle in H1. vm_compute in H1. destruct H1.
Defined.

(** C10 (contributing rows).  [criar_grupos_nfe] returns a group map for
    every transaction list, and every group in it records both kinds of
    contributors; when it has an individual contributor, [linhas] holds
    the rows of the individual contributors and nothing of the combined
    ones; only when it has none does [linhas] hold the rows of the
    combined contributors. *)
Theorem criar_grupos_nfe_linhas (ts : list TransacaoOriginal) :
  ∃ grupos, criar_grupos_nfe ts = Ret grupos ∧
    ∀ n g,
      dict_get n grupos = Some g →
      transacoes_individuais g = individuais_de n ts
      ∧ transacoes_agrupadas g = agrupadas_de n ts
      ∧ (transacoes_individuais g ≠ [] →
         linhas g = map linha (individuais_de n ts))
      ∧ (transacoes_individuais g = [] →
         linhas g = map linha (agrupadas_de n ts)).
Proof.
  destruct (criar_grupos_nfe_ok ts) as (grupos & Hg & _ & _).
  exists grupos. split; [done|]. intros n g Hn.
  destruct (grupo_contribuintes _ _ _ _ Hg Hn) as (_ & Hi & Ha).
  split_and!; [done..| |]; intros Hcase; rewrite Hi in Hcase;
    pose proof (grupo_de_criar_grupo _ _ _ _ Hg Hn) as Hc;
    unfold criar_grupo in Hc; cbn [dados_individuais dados_agrupadas] in Hc.
  - destruct (individuais_de n ts) as [|i li]; [done|]. by injection Hc as <-.
  - rewrite Hcase in Hc.
    destruct (agrupadas_de n ts) as [|a la]; [done|].
    destruct (sorted _); [done|]. by injection Hc as <-.
Qed.

Lemma criar_grupos_nfe_linhas_witness :
  ∃ grupos, criar_grupos_nfe exemplo_transacoes = Ret grupos
    ∧ dict_get "1001" grupos = Some exemplo_g1001
    ∧ transacoes_agrupadas exemplo_g1001 = [exemplo_t3]
    ∧ linhas exemplo_g1001 = map linha (individuais_de "1001" exemplo_transacoes)
    ∧ linhas exemplo_g1001 = [2; 4]
    ∧ linhas exemplo_g1002 = map linha (agrupadas_de "1002" exemplo_transacoes).
Proof.
  destruct (criar_grupos_nfe_linhas exemplo_transacoes) as (grupos & Hg & H).
  exists grupos. split; [exact Hg|].
  assert (grupos = exemplo_grupos) as ->.
  { rewrite exemplo_criar_grupos_nfe in Hg. by injection Hg. }
  assert (dict_get "1001" exemplo_grupos = Some exemplo_g1001) as Hn
    by reflexivity.
  assert (dict_get "1002" exemplo_grupos = Some exemplo_g1002) as Hn'
    by reflexivity.
  destruct (H "1001" exemplo_g1001 Hn) as (_ & _ & Hl & _).
  destruct (H "1002" exemplo_g1002 Hn') as (_ & _ & _ & Hl').
  split_and!; [reflexivity | reflexivity | | reflexivity |].
  - apply Hl. discriminate.
  - apply Hl'. reflexivity.
Defined.

(** * The claims about the confrontation *)



Example confrontar_grupo_vencido :
  calcular_dias_postergados (g_data_abastecimento exemplo_g_vencido)
    (DATA_FECHAMENTO config_padrao) = 61
  ∧ diferenca (confrontar_grupo exemplo_g_vencido exemplo_indice config_padrao) = 0
  ∧ tipo (confrontar_grupo exemplo_g_vencido exemplo_indice config_padrao)
    = DESCONSIDERADA.
Proof. vm_compute. done. Qed.

(** C5 (lookup miss).  For a group whose number is not in the invoice
    index, [confrontar_grupo] returns the NAO_ENCONTRADA result: no matched
    invoice, the allocated value as recorded difference, whatever the
    deferred days. *)
Theorem confrontar_grupo_nao_encontrada (g : GrupoNFe)
    (nfes_index : gmap string NFe) (config : Config) :
  nfes_index !! numero_nfe g = None →
  confrontar_grupo g nfes_index config
  = {| tipo := NAO_ENCONTRADA;
       grupo := g;
       nfe := None;
       diferenca := valor_planilha g;
       dias_postergados :=
         calcular_dias_postergados (g_data_abastecimento g)
           (DATA_FECHAMENTO config);
       motivo := XmlNaoEncontrado;
       grupo_divergencia_id := None |}.
Proof. intros Hnf. unfold confrontar_grupo. by rewrite Hnf. Qed.

Lemma confrontar_grupo_nao_encontrada_witness :
  exemplo_indice !! numero_nfe exemplo_g_ausente = None
  ∧ PERIODO_MAXIMO_DIAS config_padrao
    < dias_postergados
        (confrontar_grupo exemplo_g_ausente exemplo_indice config_padrao)
  ∧ tipo (confrontar_grupo exemplo_g_ausente exemplo_indice config_padrao)
    = NAO_ENCONTRADA
  ∧ diferenca (confrontar_grupo exemplo_g_ausente exemplo_indice config_padrao)
    = 4200.
Proof.
  assert (exemplo_indice !! numero_nfe exemplo_g_ausente = None) as Hnf
    by (vm_compute; reflexivity).
  rewrite (confrontar_grupo_nao_encontrada exemplo_g_ausente exemplo_indice
             config_padrao Hnf).
  split_and!; [exact Hnf | vm_compute; reflexivity | reflexivity | reflexivity].
Defined.

(** ** The partition built by [processar_confrontamento] *)

Section Particao.
Implicit Types (rs : Resultados) (r : Resultado) (k : TipoResultado).


End Particao.


(** * The claims about the totals *)


Example calcular_cancelamentos_estornos_exemplo :
  calcular_cancelamentos_estornos exemplo_transacoes = (5000, -1200).
Proof. reflexivity. Qed.

(** ** The numbering of the combined divergences *)

Section Numeracao.
Implicit Types (r : Resultado) (rs : list Resultado) (c id : Z).
Implicit Types (refs : list nat) (i : nat).

Lemma set_grupo_divergencia_id_twice id id' r :
  set_grupo_divergencia_id id (set_grupo_divergencia_id id' r)
  = set_grupo_divergencia_id id r.
Proof. reflexivity. Qed.

Lemma agrupar_por_linha_chave (G : dict Z (list nat)) i r :
  agrupar_por_linha G (i, r)
  = match chave_de r with
    | Some c => dict_default_alter [] (λ l, l ++ [i]) c G
    | None => G
    end.
Proof.
  unfold agrupar_por_linha, chave_de.
  by destruct (transacoes_agrupadas (grupo r)).
Qed.

Lemma agrupar_snoc rs r :
  agrupar (rs ++ [r]) = agrupar_por_linha (agrupar rs) (length rs, r).
Proof.
  unfold agrupar. rewrite imap_app, foldl_app. cbn [imap foldl].
  by rewrite Nat.add_0_r.
Qed.

Lemma refs_de_snoc c rs r :
  refs_de c (rs ++ [r])
  = refs_de c rs ++ (if decide (chave_de r = Some c) then [length rs] else []).
Proof.
  unfold refs_de. rewrite imap_app, omap_app. cbn [imap].
  rewrite Nat.add_0_r. f_equal. cbn. by destruct (decide _).
Qed.

Lemma elem_of_refs_de c rs i :
  i ∈ refs_de c rs ↔ ∃ r, rs !! i = Some r ∧ chave_de r = Some c.
Proof.
  induction rs as [|r rs IH] using rev_ind.
  - split; [intros []%elem_of_nil | intros (r & Hr & _); done].
  - rewrite refs_de_snoc, elem_of_app, IH. split.
    + intros [(r' & Hr' & Hc)|Hi].
      * exists r'. split; [by apply lookup_app_l_Some | done].
      * destruct (decide (chave_de r = Some c)) as [Hc|Hc];
          [|by apply elem_of_nil in Hi].
        apply list_elem_of_singleton in Hi as ->. exists r.
        by rewrite list_lookup_middle.
    + intros (r' & Hr' & Hc). apply lookup_app_Some in Hr' as [Hr'|[Hlen Hr']].
      * left. eauto.
      * right. apply list_lookup_singleton_Some in Hr' as [Hi ->].
        rewrite decide_True by done. apply list_elem_of_singleton. lia.
Qed.

Lemma agrupar_get rs c :
  dict_get c (agrupar rs)
  = match refs_de c rs with [] => None | refs => Some refs end.
Proof.
  induction rs as [|r rs IH] using rev_ind; [done|].
  rewrite agrupar_snoc, agrupar_por_linha_chave, refs_de_snoc.
  destruct (chave_de r) as [c'|] eqn:Hr.
  - destruct (decide (c' = c)) as [->|Hne].
    + rewrite decide_True by done. rewrite dict_get_default_alter_eq, IH.
      by destruct (refs_de c rs).
    + rewrite decide_False by congruence.
      rewrite dict_get_default_alter_ne by done. by rewrite app_nil_r.
  - rewrite decide_False by done. by rewrite app_nil_r.
Qed.

Lemma agrupar_keys_snoc rs r :
  dict_keys (agrupar (rs ++ [r]))
  = match chave_de r with
    | Some c => if decide (c ∈ dict_keys (agrupar rs))
                then dict_keys (agrupar rs)
                else dict_keys (agrupar rs) ++ [c]
    | None => dict_keys (agrupar rs)
    end.
Proof.
  rewrite agrupar_snoc, agrupar_por_linha_chave.
  destruct (chave_de r); [apply dict_keys_default_alter | done].
Qed.

Lemma agrupar_keys_NoDup rs : NoDup (dict_keys (agrupar rs)).
Proof.
  induction rs as [|r rs IH] using rev_ind; [apply NoDup_nil_2|].
  rewrite agrupar_snoc, agrupar_por_linha_chave.
  destruct (chave_de r); [by apply dict_keys_default_alter_NoDup | done].
Qed.

Lemma chaves_de_snoc rs r :
  chaves_de (rs ++ [r])
  = chaves_de rs ∪ (match chave_de r with Some c => {[c]} | None => ∅ end).
Proof.
  unfold chaves_de. rewrite omap_app, list_to_set_app_L. f_equal.
  change (omap chave_de [r])
    with (match chave_de r with Some c => [c] | None => [] end).
  destruct (chave_de r); cbn [list_to_set]; [apply right_id_L, _ | done].
Qed.

Lemma agrupar_keys_elem_of rs c :
  c ∈ dict_keys (agrupar rs) ↔ c ∈ chaves_de rs.
Proof.
  revert c. induction rs as [|r rs IH] using rev_ind; intros c.
  - split; [intros []%elem_of_nil | set_solver].
  - rewrite agrupar_keys_snoc, chaves_de_snoc.
    destruct (chave_de r) as [c'|]; [|set_solver].
    destruct (decide (c' ∈ dict_keys (agrupar rs))) as [Hin|Hin].
    + apply IH in Hin as Hin'. set_solver.
    + rewrite elem_of_app, list_elem_of_singleton. set_solver.
Qed.

Lemma agrupar_keys_length rs :
  length (dict_keys (agrupar rs)) = size (chaves_de rs).
Proof.
  rewrite <- (size_list_to_set (C := gset Z)) by apply agrupar_keys_NoDup.
  f_equal. apply set_eq. intros c.
  by rewrite elem_of_list_to_set, agrupar_keys_elem_of.
Qed.

Lemma agrupar_keys_prefix rs rs' :
  dict_keys (agrupar rs) `prefix_of` dict_keys (agrupar (rs ++ rs')).
Proof.
  induction rs' as [|r rs' IH] using rev_ind; [by rewrite app_nil_r|].
  rewrite app_assoc, agrupar_keys_snoc.
  destruct (chave_de r); [|done]. destruct (decide _); [done|].
  by apply prefix_app_r.
Qed.

(** A key seen for the first time at position [i] takes the next free
    place in the dictionary. *)
Lemma agrupar_keys_primeira rs i r c :
  rs !! i = Some r → chave_de r = Some c → c ∉ chaves_de (take i rs) →
  dict_keys (agrupar rs) !! size (chaves_de (take i rs)) = Some c.
Proof.
  intros Hi Hc Hnew.
  assert (rs = (take i rs ++ [r]) ++ drop (S i) rs) as Hrs.
  { rewrite <- app_assoc. symmetry. by apply take_drop_middle. }
  pose proof (agrupar_keys_prefix (take i rs ++ [r]) (drop (S i) rs)) as Hp.
  rewrite <- Hrs in Hp.
  eapply prefix_lookup_Some; [|exact Hp].
  rewrite agrupar_keys_snoc, Hc.
  rewrite decide_False by (by rewrite agrupar_keys_elem_of).
  rewrite <- agrupar_keys_length. by rewrite list_lookup_middle.
Qed.

Lemma atribuir_ids_lookup id (st : list Resultado) refs i :
  foldl (atribuir_id id) st refs !! i
  = if decide (i ∈ refs)
    then set_grupo_divergencia_id id <$> st !! i
    else st !! i.
Proof.
  revert st. induction refs as [|ref refs IH]; intros st; cbn [foldl].
  - by rewrite decide_False by apply not_elem_of_nil.
  - rewrite IH. unfold atribuir_id.
    destruct (decide (i = ref)) as [->|Hne].
    + rewrite list_lookup_alter_eq.
      rewrite (decide_True (P := ref ∈ ref :: refs))
        by apply list_elem_of_here.
      destruct (decide (ref ∈ refs)); [|done].
      by destruct (st !! ref).
    + rewrite list_lookup_alter_ne by done.
      destruct (decide (i ∈ refs)) as [Hin|Hin].
      * by rewrite decide_True by (by apply list_elem_of_further).
      * rewrite decide_False; [done|]. rewrite not_elem_of_cons. done.
Qed.

Lemma atribuir_ids_length id (st : list Resultado) refs :
  length (foldl (atribuir_id id) st refs) = length st.
Proof.
  revert st. induction refs as [|ref refs IH]; intros st; cbn [foldl]; [done|].
  rewrite IH. unfold atribuir_id. apply length_alter.
Qed.

(** Both branches of the second loop write the same identifier to every
    reference of a non-empty group. *)
Lemma numerar_grupo_ok (st : EstadoNumeracao) c refs :
  refs ≠ [] →
  numerar_grupo st (c, refs)
  = Ret {| store := foldl (atribuir_id (grupo_id st)) (store st) refs;
           grupos_numerados :=
             dict_set (grupo_id st) refs (grupos_numerados st);
           grupo_id := grupo_id st + 1 |}.
Proof.
  intros Hne. unfold numerar_grupo.
  destruct refs as [|r0 [|r1 refs]]; [done | reflexivity |].
  rewrite (proj2 (Z.leb_le _ _)); [done|]. cbn [length]. lia.
Qed.

Lemma numerar_grupos_ok (itens : dict Z (list nat)) (st : EstadoNumeracao) :
  Forall (λ item, item.2 ≠ []) itens →
  ∃ st', numerar_grupos itens st = Ret st'
    ∧ length (store st') = length (store st)
    ∧ ∀ i, store st' !! i
           = match id_em itens (grupo_id st) i with
             | Some id => set_grupo_divergencia_id id <$> store st !! i
             | None => store st !! i
             end.
Proof.
  revert st. induction itens as [|[c refs] resto IH]; intros st Hall.
  - exists st. done.
  - apply Forall_cons in Hall as [Hne Hall]. cbn [snd] in Hne.
    cbn [numerar_grupos]. rewrite numerar_grupo_ok by done. cbn [exc_bind].
    destruct (IH {| store := foldl (atribuir_id (grupo_id st)) (store st) refs;
                    grupos_numerados :=
                      dict_set (grupo_id st) refs (grupos_numerados st);
                    grupo_id := grupo_id st + 1 |} Hall)
      as (st' & Hst' & Hlen & Hget).
    cbn [store grupo_id] in Hlen, Hget.
    exists st'. split_and!; [done | by rewrite Hlen, atribuir_ids_length |].
    intros i. rewrite Hget, atribuir_ids_lookup. cbn [id_em].
    destruct (id_em resto (grupo_id st + 1) i) as [id|];
      destruct (decide (i ∈ refs)); try done.
    by destruct (store st !! i).
Qed.

Lemma id_em_Some_elem_of (itens : dict Z (list nat)) id0 i id :
  id_em itens id0 i = Some id → ∃ c refs, (c, refs) ∈ itens ∧ i ∈ refs.
Proof.
  revert id0 id. induction itens as [|[c refs] resto IH]; intros id0 id; [done|].
  cbn [id_em]. destruct (id_em resto (id0 + 1) i) as [id'|] eqn:Hr.
  - intros _. destruct (IH _ _ Hr) as (c' & refs' & Hin & Hi).
    exists c', refs'. split; [by apply list_elem_of_further | done].
  - destruct (decide (i ∈ refs)); [|done]. intros _.
    exists c, refs. split; [apply list_elem_of_here | done].
Qed.

(** A reference filed under one key only receives the identifier of the
    position of that key. *)
Lemma id_em_posicao (itens : dict Z (list nat)) id0 i (j : nat) c refs :
  NoDup (dict_keys itens) →
  itens !! j = Some (c, refs) →
  i ∈ refs →
  (∀ c' refs', (c', refs') ∈ itens → i ∈ refs' → c' = c) →
  id_em itens id0 i = Some (id0 + Z.of_nat j).
Proof.
  revert id0 j. induction itens as [|[c0 refs0] resto IH];
    intros id0 j Hnd Hj Hi Huniq; [done|].
  cbn [dict_keys map fst] in Hnd. fold (dict_keys resto) in Hnd.
  apply NoDup_cons in Hnd as [Hc0 Hnd]. cbn [id_em].
  destruct j as [|j].
  - injection Hj as -> ->.
    destruct (id_em resto (id0 + 1) i) as [id|] eqn:Hr.
    + exfalso. apply id_em_Some_elem_of in Hr as (c' & refs' & Hin & Hi').
      assert (c' = c) as -> by (eapply Huniq; [by apply list_elem_of_further | done]).
      apply Hc0. apply list_elem_of_fmap. by exists (c, refs').
    + rewrite decide_True by done. f_equal. lia.
  - cbn [lookup list_lookup] in Hj.
    rewrite (IH (id0 + 1) j Hnd Hj Hi).
    + f_equal. lia.
    + intros c' refs' Hin. apply Huniq. by apply list_elem_of_further.
Qed.

(** The identifier of each reference after both loops: one plus the
    position of its key among the keys in order of first encounter. *)
Lemma id_em_agrupar rs i r c (j : nat) :
  rs !! i = Some r → chave_de r = Some c →
  dict_keys (agrupar rs) !! j = Some c →
  id_em (agrupar rs) 1 i = Some (1 + Z.of_nat j).
Proof.
  intros Hi Hc Hj. unfold dict_keys in Hj.
  rewrite list_lookup_fmap in Hj.
  destruct (agrupar rs !! j) as [[c0 refs]|] eqn:Hitem;
    unfold dict in Hitem; rewrite Hitem in Hj; [|done].
  cbn in Hj. injection Hj as ->.
  assert (∀ c' refs', (c', refs') ∈ agrupar rs → refs' = refs_de c' rs)
    as Hrefs.
  { intros c' refs' Hin.
    apply dict_get_elem_of in Hin; [|apply agrupar_keys_NoDup].
    rewrite agrupar_get in Hin. destruct (refs_de c' rs); congruence. }
  apply (id_em_posicao _ _ _ _ c refs); [apply agrupar_keys_NoDup | done | |].
  - rewrite (Hrefs c refs) by (by eapply list_elem_of_lookup_2).
    apply elem_of_refs_de. eauto.
  - intros c' refs' Hin Hi'. rewrite (Hrefs c' refs' Hin) in Hi'.
    apply elem_of_refs_de in Hi' as (r' & Hr' & Hc'). congruence.
Qed.

Lemma agrupar_refs_nao_vazias rs : Forall (λ item, item.2 ≠ []) (agrupar rs).
Proof.
  apply Forall_forall. intros [c refs] Hin. cbn [snd].
  apply dict_get_elem_of in Hin; [|apply agrupar_keys_NoDup].
  rewrite agrupar_get in Hin. destruct (refs_de c rs); congruence.
Qed.

Lemma chave_de_chaves_de rs i r c :
  rs !! i = Some r → chave_de r = Some c → c ∈ chaves_de rs.
Proof.
  intros Hi Hc. unfold chaves_de. apply elem_of_list_to_set.
  apply list_elem_of_omap. exists r. split; [|done].
  by eapply list_elem_of_lookup_2.
Qed.

Lemma elem_of_chaves_de rs c :
  c ∈ chaves_de rs → ∃ i r, rs !! i = Some r ∧ chave_de r = Some c.
Proof.
  unfold chaves_de. rewrite elem_of_list_to_set, list_elem_of_omap.
  intros (r & Hin & Hc). apply list_elem_of_lookup_1 in Hin as [i Hi]. eauto.
Qed.

(** What [detectar_grupos_divergentes_agrupadas] leaves in the store. *)
Lemma detectar_grupos_store rs :
  ∃ st numerados,
    detectar_grupos_divergentes_agrupadas rs = Ret (st, numerados)
    ∧ length st = length rs
    ∧ ∀ i, st !! i
           = match id_em (agrupar rs) 1 i with
             | Some id => set_grupo_divergencia_id id <$> rs !! i
             | None => rs !! i
             end.
Proof.
  unfold detectar_grupos_divergentes_agrupadas. fold (agrupar rs).
  destruct (numerar_grupos_ok (agrupar rs)
              {| store := rs; grupos_numerados := []; grupo_id := 1 |}
              (agrupar_refs_nao_vazias rs)) as (st' & Hst' & Hlen & Hget).
  rewrite Hst'. cbn [exc_bind]. eauto.
Qed.
End Numeracao.

Lemma confrontar_grupo_divergente_agrupada g nfes_index config :
  tipo (confrontar_grupo g nfes_index config) = DIVERGENTE_AGRUPADA →
  grupo (confrontar_grupo g nfes_index config) = g
  ∧ tipo_origem g = AGRUPADO.
Proof.
  unfold confrontar_grupo. destruct (_ !! _); [|done].
  destruct (_ <? _); [done|]. destruct (_ <=? _); [done|].
  by destruct (tipo_origem g).
Qed.

Lemma tipo_origem_AGRUPADO g :
  tipo_origem g = AGRUPADO →
  transacoes_individuais g = [] ∧ transacoes_agrupadas g ≠ [].
Proof.
  unfold tipo_origem, tem_individual, tem_agrupado.
  destruct (transacoes_individuais g), (transacoes_agrupadas g); done.
Qed.

Lemma resultado_divergente_agrupada_chave r :
  resultado_divergente_agrupada r → ∃ c, chave_de r = Some c.
Proof.
  intros (g & idx & cfg & <- & Ht).
  apply confrontar_grupo_divergente_agrupada in Ht as [Hg Ho].
  apply tipo_origem_AGRUPADO in Ho as [_ Ha].
  unfold chave_de. rewrite Hg.
  destruct (transacoes_agrupadas g); [done | eauto].
Qed.

Example exemplo_processar_confrontamento :
  exemplo_resultados DIVERGENTE_AGRUPADA = exemplo_divergentes_agrupadas
  ∧ map (λ r, numero_nfe (grupo r)) (exemplo_resultados IDENTICA) = ["1001"].
Proof. vm_compute. done. Qed.

(** * The claim about the divergence groups *)

(** C6 (divergence-group ids).  On a list of DIVERGENTE_AGRUPADA results
    the function returns, and in the store it leaves (1) every result
    carries one identifier and is otherwise unchanged; (2) two results
    carry the same identifier iff the row of their first combined
    contributor is the same; (3) a result whose key occurs for the first
    time at its position carries one plus the number of distinct keys
    before it; (4) the identifiers in use are exactly 1, ..., k for k the
    number of distinct keys. *)
Theorem detectar_grupos_divergentes_agrupadas_ids (rs : list Resultado) :
  Forall resultado_divergente_agrupada rs →
  ∃ st numerados,
    detectar_grupos_divergentes_agrupadas rs = Ret (st, numerados)
    ∧ length st = length rs
    ∧ (∀ i r, rs !! i = Some r →
         ∃ id, st !! i = Some (set_grupo_divergencia_id id r))
    ∧ (∀ i j ri rj, rs !! i = Some ri → rs !! j = Some rj →
         (id_de st i = id_de st j ↔ chave_de ri = chave_de rj))
    ∧ (∀ i r, rs !! i = Some r →
         (∀ j rj, (j < i)%nat → rs !! j = Some rj → chave_de rj ≠ chave_de r) →
         id_de st i = Some (1 + Z.of_nat (size (chaves_de (take i rs)))))
    ∧ (∀ id, (∃ i, (i < length rs)%nat ∧ id_de st i = Some id)
             ↔ 1 <= id <= Z.of_nat (size (chaves_de rs))).
Proof.
  intros Hall.
  destruct (detectar_grupos_store rs) as (st & numerados & Hdet & Hlen & Hst).
  exists st, numerados.
  assert (∀ i r, rs !! i = Some r →
            ∃ c (j : nat), chave_de r = Some c
              ∧ dict_keys (agrupar rs) !! j = Some c
              ∧ st !! i = Some (set_grupo_divergencia_id (1 + Z.of_nat j) r))
    as Hpos.
  { intros i r Hi.
    destruct (resultado_divergente_agrupada_chave r) as [c Hc].
    { rewrite Forall_forall in Hall. apply Hall.
      by eapply list_elem_of_lookup_2. }
    assert (c ∈ dict_keys (agrupar rs)) as Hin
      by (by eapply agrupar_keys_elem_of, chave_de_chaves_de).
    apply list_elem_of_lookup_1 in Hin as [j Hj].
    exists c, j. split_and!; [done..|].
    by rewrite Hst, (id_em_agrupar rs i r c j), Hi. }
  assert (∀ i r c (j : nat), rs !! i = Some r → chave_de r = Some c →
            dict_keys (agrupar rs) !! j = Some c →
            id_de st i = Some (1 + Z.of_nat j)) as Hid.
  { intros i r c j Hi Hc Hj. unfold id_de.
    by rewrite Hst, (id_em_agrupar rs i r c j), Hi. }
  pose proof (agrupar_keys_NoDup rs) as Hnd.
  split_and!; [done | done | | | |].
  - intros i r Hi. destruct (Hpos i r Hi) as (c & j & _ & _ & Hs). eauto.
  - intros i j ri rj Hi Hj.
    destruct (Hpos i ri Hi) as (ci & pi & Hci & Hpi & _).
    destruct (Hpos j rj Hj) as (cj & pj & Hcj & Hpj & _).
    rewrite (Hid i ri ci pi), (Hid j rj cj pj), Hci, Hcj by done. split.
    + intros [= Heq]. assert (pi = pj) as -> by lia. congruence.
    + intros [= ->]. by rewrite (NoDup_lookup _ pi pj cj Hnd).
  - intros i r Hi Hnova.
    destruct (Hpos i r Hi) as (c & j & Hc & Hj & _).
    apply (Hid i r c); [done..|].
    apply (agrupar_keys_primeira rs i r c); [done..|].
    intros Hin. apply elem_of_chaves_de in Hin as (k & rk & Hk & Hck).
    apply lookup_take_Some in Hk as [Hk Hlt].
    apply (Hnova k rk); [done | done | congruence].
  - intros id. split.
    + intros (i & Hlt & Hidi).
      apply lookup_lt_is_Some in Hlt as [r Hi].
      destruct (Hpos i r Hi) as (c & j & Hc & Hj & _).
      rewrite (Hid i r c j) in Hidi by done. injection Hidi as <-.
      apply lookup_lt_Some in Hj. rewrite agrupar_keys_length in Hj. lia.
    + intros Hrange.
      assert (Z.to_nat (id - 1) < length (dict_keys (agrupar rs)))%nat as Hlt
        by (rewrite agrupar_keys_length; lia).
      apply lookup_lt_is_Some in Hlt as [c Hj].
      assert (c ∈ chaves_de rs) as Hin.
      { apply agrupar_keys_elem_of. by eapply list_elem_of_lookup_2. }
      apply elem_of_chaves_de in Hin as (i & r & Hi & Hc).
      exists i. split; [by eapply lookup_lt_Some|].
      rewrite (Hid i r c _ Hi Hc Hj). f_equal. lia.
Qed.

Lemma detectar_grupos_divergentes_agrupadas_ids_witness :
  Forall resultado_divergente_agrupada exemplo_divergentes_agrupadas
  ∧ ∃ st numerados,
      detectar_grupos_divergentes_agrupadas exemplo_divergentes_agrupadas
      = Ret (st, numerados)
      ∧ id_de st 0 = Some 1 ∧ id_de st 1 = Some 2 ∧ id_de st 2 = Some 2.
Proof.
  assert (Forall resultado_divergente_agrupada exemplo_divergentes_agrupadas)
    as Hall.
  { repeat apply Forall_cons_2; [| | |apply Forall_nil_2].
    - exists exemplo_g1002, (criar_indice_nfes exemplo_nfes), config_padrao.
      split; [reflexivity | vm_compute; reflexivity].
    - exists exemplo_g2001, (criar_indice_nfes exemplo_nfes), config_padrao.
      split; [reflexivity | vm_compute; reflexivity].
    - exists exemplo_g2002, (criar_indice_nfes exemplo_nfes), config_padrao.
      split; [reflexivity | vm_compute; reflexivity]. }
  split; [exact Hall|].
  destruct (detectar_grupos_divergentes_agrupadas_ids
              exemplo_divergentes_agrupadas Hall)
    as (st & numerados & Hdet & _ & _ & Hmesmo & Hnova & _).
  exists st, numerados. split; [exact Hdet|].
  assert (id_de st 0 = Some 1) as H0.
  { eapply (Hnova 0%nat); [reflexivity|]. intros j rj Hj. lia. }
  assert (id_de st 1 = Some 2) as H1.
  { eapply (Hnova 1%nat); [reflexivity|]. intros j rj Hj Hrj.
    destruct j as [|j]; [|lia]. injection Hrj as <-. vm_compute. discriminate. }
  split_and!; [exact H0 | exact H1 |].
  rewrite <- H1. symmetry. eapply Hmesmo; vm_compute; reflexivity.
Defined.

(** ** Ingestion: the declared total *)

Section Carga.
Variable strptime_date : string → string → option date.
Implicit Types (st : EstadoCarga) (config : Config).

Lemma carregar_linha_total config st linha cels :
  total_coerente st →
  total_coerente (carregar_linha strptime_date config st linha cels).
Proof.
  unfold total_coerente, carregar_linha. intros Hst.
  destruct (_ || _); [done|].
  destruct (converter_data _ _); [|done].
  destruct (converter_valor _); [|done].
  destruct (extrair_numeros_nfe _) as [[numeros canc] est].
  cbn [transacoes_lidas total_boleto].
  rewrite map_app, sum_app, Hst. cbn [map valor_boleto nova_TransacaoOriginal].
  rewrite sum_cons, sum_nil. lia.
Qed.

Lemma carregar_linhas_total config st (itens : list (nat * LinhaPlanilha)) :
  total_coerente st →
  total_coerente
    (foldl (λ st item,
              carregar_linha strptime_date config st
                (2 + Z.of_nat item.1) item.2) st itens).
Proof.
  revert st. induction itens as [|item itens IH]; intros st Hst; [done|].
  cbn [foldl]. by apply IH, carregar_linha_total.
Qed.

Lemma carregar_transacoes_da_planilha_total linhas config :
  (carregar_transacoes_da_planilha strptime_date linhas config).2
  = sum (map valor_boleto
           (carregar_transacoes_da_planilha strptime_date linhas config).1).
Proof.
  unfold carregar_transacoes_da_planilha, carregar_linhas. cbn [fst snd].
  by apply carregar_linhas_total.
Qed.
End Carga.

Lemma omap_nfe_valor (rs : list Resultado) :
  omap (λ r, valor <$> nfe r) rs = map valor (omap nfe rs).
Proof.
  induction rs as [|r rs IH]; [done|]. cbn [omap list_omap].
  destruct (nfe r); cbn; by rewrite <- IH.
Qed.

(** C1 (summary arithmetic), as the code has it.  For every sheet and every
    classification partition, with the declared total returned by the
    ingestion of the sheet: the IDENTICA, DIVERGENTE_AGRUPADA, DIVERGENTE
    and NAO_ENCONTRADA totals are the sums of the allocated values of the
    groups, the DESCONSIDERADA total is the sum of the values of the
    matched invoices, total = identicas + agrupadas + divergentes +
    desconsideradas - nao_encontradas, valor_a_pagar = total -
    desconsideradas, diferenca_validacao = |valor_a_pagar - declared
    total|, and the declared total is the sum of the billed values of all
    the ingested transactions, the ones flagged as cancellation or
    reversal included. *)
Theorem gerar_resumo_totais (strptime_date : string → string → option date)
    (linhas : list LinhaPlanilha) (config : Config) (resultados : Resultados)
    (cancelamento estorno : Z) :
  let '(transacoes, valor_total_boleto) :=
    carregar_transacoes_da_planilha strptime_date linhas config in
  let resumo := gerar_resumo resultados valor_total_boleto cancelamento estorno in
  let alocado k := sum (map (λ r, valor_planilha (grupo r)) (resultados k)) in
  identicas resumo = alocado IDENTICA
  ∧ agrupadas resumo = alocado DIVERGENTE_AGRUPADA
  ∧ divergentes resumo = alocado DIVERGENTE
  ∧ nao_encontradas resumo = alocado NAO_ENCONTRADA
  ∧ desconsideradas resumo = sum (map valor (omap nfe (resultados DESCONSIDERADA)))
  ∧ total resumo
    = identicas resumo + agrupadas resumo + divergentes resumo
      + desconsideradas resumo - nao_encontradas resumo
  ∧ valor_a_pagar resumo = total resumo - desconsideradas resumo
  ∧ diferenca_validacao resumo
    = Z.abs (valor_a_pagar resumo - valor_do_boleto resumo)
  ∧ valor_do_boleto resumo = sum (map valor_boleto transacoes).
Proof.
  pose proof (carregar_transacoes_da_planilha_total strptime_date linhas config)
    as Htotal.
  destruct (carregar_transacoes_da_planilha strptime_date linhas config)
    as [transacoes valor_total_boleto].
  cbn [fst snd] in Htotal. cbv zeta.
  unfold gerar_resumo. cbn [identicas agrupadas divergentes nao_encontradas
    desconsideradas total valor_a_pagar diferenca_validacao valor_do_boleto].
  split_and!; try reflexivity.
  - by rewrite omap_nfe_valor.
  - exact Htotal.
Qed.

(** C1, the claim as stated, fails on the sheet [exemplo_planilha]: the
    cancelled row of 50.00 is counted in the declared total, which is
    550.00 and not the 500.00 of the transactions that are not excluded;
    with the invoice 1001 of 500.00 the amount to pay is 500.00 and the
    validation difference is 50.00, not 0. *)
Lemma gerar_resumo_totais_contraexemplo :
  let '(transacoes, valor_total_boleto) :=
    carregar_transacoes_da_planilha strptime_nenhum exemplo_planilha
      config_padrao in
  let nao_excluidas :=
    List.filter (λ t, negb (eh_cancelamento t || eh_estorno t)) transacoes in
  ∃ resumo,
    main_resumo strptime_nenhum [exemplo_nfe "1001" 50000] exemplo_planilha
      config_padrao = Ret (Some resumo)
    ∧ sum (map valor_boleto nao_excluidas) = 50000
    ∧ valor_do_boleto resumo = 55000
    ∧ valor_a_pagar resumo = 50000
    ∧ diferenca_validacao resumo = 5000
    ∧ diferenca_validacao resumo
      ≠ Z.abs (valor_a_pagar resumo - sum (map valor_boleto nao_excluidas)).
Proof.
  vm_compute. eexists. split; [reflexivity|].
  cbn. split_and!; try reflexivity; discriminate.
Qed.

(** ** The currency parser *)

Section TextoDeInteiros.
Implicit Types (s : string) (c : ascii) (p : ascii → bool).

Lemma string_app_nil_r s : String.app s "" = s.
Proof.
  induction s as [|c s IH]; [done|].
  change (String.app (String c s) "") with (String c (String.app s "")).
  by rewrite IH.
Qed.

Lemma rev_app_rev_app s1 s2 s3 :
  String.rev_app (String.rev_app s1 s2) s3
  = String.rev_app s2 (String.app s1 s3).
Proof.
  revert s2 s3. induction s1 as [|c s1 IH]; intros s2 s3; [done|].
  cbn [String.rev_app]. by rewrite IH.
Qed.

Lemma string_rev_involutive s : String.rev (String.rev s) = s.
Proof.
  unfold String.rev. rewrite rev_app_rev_app. cbn [String.rev_app].
  apply string_app_nil_r.
Qed.

Lemma todos_rev_app p s1 s2 :
  Texto.todos p (String.rev_app s1 s2) = Texto.todos p s1 && Texto.todos p s2.
Proof.
  revert s2. induction s1 as [|c s1 IH]; intros s2; [done|].
  cbn [String.rev_app Texto.todos]. rewrite IH. cbn [Texto.todos].
  by destruct (p c), (Texto.todos p s1), (Texto.todos p s2).
Qed.

Lemma lstrip_sem_espaco s :
  Texto.todos (λ c, negb (Texto.is_space c)) s = true → Texto.lstrip s = s.
Proof.
  destruct s as [|c s]; [done|]. cbn [Texto.todos Texto.lstrip].
  by destruct (Texto.is_space c).
Qed.

Lemma strip_sem_espaco s :
  Texto.todos (λ c, negb (Texto.is_space c)) s = true → Texto.strip s = s.
Proof.
  intros Hs. unfold Texto.strip, Texto.rstrip.
  rewrite (lstrip_sem_espaco s Hs), lstrip_sem_espaco.
  - apply string_rev_involutive.
  - unfold String.rev. rewrite todos_rev_app, Hs. done.
Qed.

Lemma remove_char_ausente c s :
  Texto.todos (λ c', negb (Ascii.eqb c c')) s = true →
  Texto.remove_char c s = s.
Proof.
  induction s as [|c' s IH]; [done|]. cbn [Texto.todos Texto.remove_char].
  destruct (Ascii.eqb c c'); [done|]. intros Hs. by rewrite IH.
Qed.

Lemma todos_impl p (q : ascii → bool) s :
  (∀ c, p c = true → q c = true) →
  Texto.todos p s = true → Texto.todos q s = true.
Proof.
  intros Hpq. induction s as [|c s IH]; [done|]. cbn [Texto.todos].
  intros [Hc Hs]%andb_true_iff. by rewrite (Hpq c Hc), IH.
Qed.

Lemma digitos_todos s :
  Texto.todos Texto.is_digit s = true → Dec.digitos s = (s, "").
Proof.
  induction s as [|c s IH]; [done|]. cbn [Texto.todos Dec.digitos].
  intros [Hc Hs]%andb_true_iff. by rewrite Hc, IH.
Qed.

Lemma is_digit_nao_espaco c :
  Texto.is_digit c = true → negb (Texto.is_space c) = true.
Proof. destruct c as [[] [] [] [] [] [] [] []]; by vm_compute. Qed.

Lemma is_digit_nao_sublinhado c :
  Texto.is_digit c = true → negb (Ascii.eqb "_" c) = true.
Proof. destruct c as [[] [] [] [] [] [] [] []]; by vm_compute. Qed.

Lemma is_digit_sinal c s :
  Texto.is_digit c = true → Dec.sinal (String c s) = (false, String c s).
Proof. destruct c as [[] [] [] [] [] [] [] []]; by vm_compute. Qed.

Lemma is_digit_pretty_N_char (x : N) :
  Texto.is_digit (pretty_N_char x) = true.
Proof. unfold pretty_N_char. by repeat case_match. Qed.

Lemma valor_pretty_N_char (x : N) :
  (x < 10)%N → (N_of_ascii (pretty_N_char x) - 48 = x)%N.
Proof.
  intros Hx.
  assert (x = 0 ∨ x = 1 ∨ x = 2 ∨ x = 3 ∨ x = 4 ∨ x = 5 ∨ x = 6 ∨ x = 7
          ∨ x = 8 ∨ x = 9)%N as Hcases by lia.
  repeat destruct Hcases as [->|Hcases]; try subst x; reflexivity.
Qed.

Lemma valor_digitos_desde_length (acc : N) s :
  (Dec.valor_digitos_desde acc s
   = acc * 10 ^ N.of_nat (String.length s) + Dec.valor_digitos s)%N.
Proof.
  unfold Dec.valor_digitos. revert acc.
  induction s as [|c s IH]; intros acc.
  - cbn. lia.
  - cbn [Dec.valor_digitos_desde String.length].
    rewrite (IH (10 * acc + _)%N), (IH (10 * 0 + _)%N).
    rewrite Nat2N.inj_succ, N.pow_succ_r'. lia.
Qed.

Lemma valor_digitos_cons c s :
  (Dec.valor_digitos (String c s)
   = (N_of_ascii c - 48) * 10 ^ N.of_nat (String.length s)
     + Dec.valor_digitos s)%N.
Proof.
  unfold Dec.valor_digitos at 1. cbn [Dec.valor_digitos_desde].
  rewrite valor_digitos_desde_length. lia.
Qed.

Lemma pretty_N_go_digitos (x : N) s :
  Texto.todos Texto.is_digit s = true →
  Texto.todos Texto.is_digit (pretty_N_go x s) = true
  ∧ (Dec.valor_digitos (pretty_N_go x s)
     = x * 10 ^ N.of_nat (String.length s) + Dec.valor_digitos s)%N
  ∧ ((0 < x)%N ∨ s ≠ "" → pretty_N_go x s ≠ "").
Proof.
  revert s. induction (N.lt_wf_0 x) as [x _ IH]; intros s Hs.
  destruct (decide (x = 0)%N) as [->|Hx].
  - rewrite pretty_N_go_0. split_and!; [done | lia | intros [?|?]; [lia | done]].
  - rewrite pretty_N_go_step by lia.
    destruct (IH (x `div` 10)%N ltac:(apply N.div_lt; lia)
                (String (pretty_N_char (x `mod` 10)) s)) as (Hd & Hv & Hne).
    { cbn [Texto.todos]. by rewrite is_digit_pretty_N_char, Hs. }
    split_and!; [done | | intros _; apply Hne; by right].
    rewrite Hv, valor_digitos_cons. cbn [String.length].
    rewrite valor_pretty_N_char by (apply N.mod_lt; lia).
    rewrite Nat2N.inj_succ, N.pow_succ_r'.
    pose proof (N.div_mod x 10 ltac:(lia)) as Hdm. lia.
Qed.

Lemma pretty_N_digitos (n : N) :
  pretty n ≠ ""
  ∧ Texto.todos Texto.is_digit (pretty n) = true
  ∧ Dec.valor_digitos (pretty n) = n.
Proof.
  unfold pretty, pretty_N. destruct (decide (n = 0)%N) as [->|Hn]; [done|].
  destruct (pretty_N_go_digitos n "") as (Hd & Hv & Hne); [done|].
  split_and!; [apply Hne; left; lia | done | rewrite Hv; cbn; lia].
Qed.



End TextoDeInteiros.






Example converter_valor_formato_BR :
  converter_valor (VCelula (CStr "R$ 1.234,56"))
  = Ret (Dec.Finito false 123456 (-2)).
Proof. reflexivity. Qed.

Example converter_valor_formato_US :
  converter_valor (VCelula (CStr "1,234.56"))
  = Ret (Dec.Finito false 123456 (-2)).
Proof. reflexivity. Qed.

Example converter_valor_meio_acima :
  converter_valor (VCelula (CFloat "2.675")) = Ret (Dec.Finito false 268 (-2))
  ∧ converter_valor (VCelula (CFloat "-2.675")) = Ret (Dec.Finito true 268 (-2))
  ∧ converter_valor (VCelula (CInt 12)) = Ret (Dec.Finito false 1200 (-2)).
Proof. vm_compute. done. Qed.

(** The same text handed to [ValorMonetario] raises where
    [converter_valor] answers zero. *)
Example ValorMonetario_init_texto_invalido :
  ValorMonetario_init (VCelula (CStr "abc")) = Raise ValueError
  ∧ converter_valor (VCelula (CStr "abc")) = Ret Dec.zero.
Proof. vm_compute. done. Qed.




(** ** The pipeline end to end *)


(** [main] reaches the end of the summary step without raising. *)
Lemma main_resumo_retorna (strptime_date : string → string → option date)
    (nfes : list NFe) (linhas : list LinhaPlanilha) (config : Config) :
  ∃ resumo, main_resumo strptime_date nfes linhas config = Ret resumo.
Proof.
  unfold main_resumo. destruct nfes as [|nf nfes]; [eauto|].
  destruct (carregar_transacoes_da_planilha _ _ _) as [[|t ts] total]; [eauto|].
  destruct (criar_grupos_nfe_ok (t :: ts)) as (grupos & -> & _).
  cbn [exc_bind]. destruct grupos as [|g grupos]; [eauto|].
  destruct (detectar_grupos_store
              (processar_confrontamento (g :: grupos) (nf :: nfes) config
                 DIVERGENTE_AGRUPADA)) as (st & numerados & -> & _).
  cbn [exc_bind]. destruct (calcular_cancelamentos_estornos _). eauto.
Qed.

(** The three worked examples of the specification. *)

Example exemplo_1_identica :
  let g := exemplo_grupo_em "1001" (mk_date 2025 8 1) 50000 in
  let r := confrontar_grupo g exemplo_indice config_padrao in
  dias_postergados r = 60 ∧ tipo r = IDENTICA ∧ diferenca r = 0.
Proof. vm_compute. done. Qed.

Example exemplo_2_divergentes_agrupadas :
  let idx := criar_indice_nfes [exemplo_nfe "2001" 10000; exemplo_nfe "2002" 15000] in
  let r1 := confrontar_grupo exemplo_g2001 idx config_padrao in
  let r2 := confrontar_grupo exemplo_g2002 idx config_padrao in
  (tipo r1, diferenca r1) = (DIVERGENTE_AGRUPADA, 20000)
  ∧ (tipo r2, diferenca r2) = (DIVERGENTE_AGRUPADA, 15000)
  ∧ ∃ st numerados,
      detectar_grupos_divergentes_agrupadas [r1; r2] = Ret (st, numerados)
      ∧ id_de st 0 = Some 1 ∧ id_de st 1 = Some 1.
Proof. vm_compute. split_and!; [done..|]. eexists _, _. done. Qed.

Example exemplo_3_cancelado :
  extrair_numeros_nfe (CStr "Cancelado") = (∅, true, false)
  ∧ dict_keys (construir_indice [exemplo_t6]) = []
  ∧ calcular_cancelamentos_estornos [exemplo_t6] = (5000, 0).
Proof. vm_compute. done. Qed.

(** * Further properties of the code *)

(** ** Tax identifiers *)

Lemma keep_only_todos (p : ascii → bool) (s : string) :
  Texto.todos p s = true → Texto.keep_only p s = s.
Proof.
  induction s as [|c s IH]; [done|]. cbn [Texto.todos Texto.keep_only].
  intros [Hc Hs]%andb_true_iff. by rewrite Hc, IH.
Qed.

Lemma todos_keep_only (p : ascii → bool) (s : string) :
  Texto.todos p (Texto.keep_only p s) = true.
Proof.
  induction s as [|c s IH]; [done|]. cbn [Texto.keep_only].
  destruct (p c) eqn:Hc; [|done]. cbn [Texto.todos]. by rewrite Hc, IH.
Qed.

(** The punctuation of fourteen digits, and what cleaning it gives back. *)
Lemma formatar_cnpj_digitos (s : string) :
  String.length s = 14%nat →
  Texto.todos Texto.is_digit s = true →
  String.length (formatar_cnpj (CStr s)) = 18%nat
  ∧ limpar_cnpj (CStr (formatar_cnpj (CStr s))) = s.
Proof.
  intros Hlen Hs. unfold formatar_cnpj.
  assert (limpar_cnpj (CStr s) = s) as -> by (by apply keep_only_todos).
  rewrite Hlen. cbn [Nat.eqb negb].
  do 14 (destruct s as [|? s]; [discriminate|]).
  destruct s; [|discriminate]. clear Hlen.
  cbn [Texto.todos] in Hs.
  repeat match type of Hs with
         | _ && _ = true => apply andb_true_iff in Hs as [? Hs]
         end.
  split; [reflexivity|].
  cbn. unfold limpar_cnpj. cbv [String.append].
  cbn [py_str Texto.keep_only].
  change (Texto.is_digit ".") with false.
  change (Texto.is_digit "/") with false.
  change (Texto.is_digit "-") with false.
  repeat match goal with
         | H : Texto.is_digit ?c = true |- _ => rewrite H; clear H
         end.
  reflexivity.
Qed.

(** X1.  Formatting a tax identifier of fourteen digits gives a text of
    eighteen characters from which [limpar_cnpj] recovers the fourteen
    digits. *)
Theorem formatar_cnpj_ida_e_volta (s : string) :
  String.length s = 14%nat →
  Texto.todos Texto.is_digit s = true →
  String.length (formatar_cnpj (CStr s)) = 18%nat
  ∧ limpar_cnpj (CStr (formatar_cnpj (CStr s))) = s.
Proof. apply formatar_cnpj_digitos. Qed.

Lemma formatar_cnpj_ida_e_volta_witness :
  formatar_cnpj (CStr "17122471000175") = "17.122.471/0001-75"
  ∧ limpar_cnpj (CStr (formatar_cnpj (CStr "17122471000175")))
    = "17122471000175".
Proof.
  split; [reflexivity|].
  apply (formatar_cnpj_ida_e_volta "17122471000175"); reflexivity.
Defined.

(** X2.  [formatar_cnpj] is idempotent on every value: a formatted
    identifier is left as it is, and so is the bare digit text returned
    for an identifier that does not have fourteen digits. *)
Theorem formatar_cnpj_idempotente (cnpj : Celula) :
  formatar_cnpj (CStr (formatar_cnpj cnpj)) = formatar_cnpj cnpj.
Proof.
  set (d := limpar_cnpj cnpj).
  assert (Texto.todos Texto.is_digit d = true) as Hd.
  { unfold d, limpar_cnpj. destruct cnpj; try apply todos_keep_only. done. }
  destruct (decide (String.length d = 14%nat)) as [Hlen|Hlen].
  - destruct (formatar_cnpj_digitos d Hlen Hd) as [_ Hback].
    assert (formatar_cnpj cnpj = formatar_cnpj (CStr d)) as Heq.
    { unfold formatar_cnpj. fold d.
      by assert (limpar_cnpj (CStr d) = d) as -> by (by apply keep_only_todos). }
    rewrite Heq. unfold formatar_cnpj at 1. rewrite Hback.
    unfold formatar_cnpj.
    by assert (limpar_cnpj (CStr d) = d) as -> by (by apply keep_only_todos).
  - assert (formatar_cnpj cnpj = d) as ->.
    { unfold formatar_cnpj. fold d.
      by rewrite (proj2 (Nat.eqb_neq _ _) Hlen). }
    unfold formatar_cnpj.
    assert (limpar_cnpj (CStr d) = d) as -> by (by apply keep_only_todos).
    by rewrite (proj2 (Nat.eqb_neq _ _) Hlen).
Qed.

(** ** Invoice references *)

Lemma split_go_digitos (cur s : string) :
  Texto.todos Texto.is_digit cur = true →
  Texto.todos (λ c, Texto.is_digit c || Ascii.eqb c ",") s = true →
  Forall (λ n, Texto.todos Texto.is_digit n = true) (Texto.split_go "," cur s).
Proof.
  revert cur. induction s as [|c s IH]; intros cur Hcur Hs.
  - cbn [Texto.split_go]. apply Forall_singleton.
    unfold String.rev. by rewrite todos_rev_app, Hcur.
  - cbn [Texto.todos] in Hs. apply andb_true_iff in Hs as [Hc Hs].
    cbn [Texto.split_go]. destruct (Ascii.eqb "," c) eqn:Hv.
    + apply Forall_cons. split; [|by apply IH].
      unfold String.rev. by rewrite todos_rev_app, Hcur.
    + apply IH; [|done]. cbn [Texto.todos]. rewrite Hcur, andb_true_r.
      apply orb_true_iff in Hc as [Hc|Hc]; [done|].
      rewrite Ascii.eqb_sym in Hc. congruence.
Qed.

Lemma strip_digitos (n : string) :
  Texto.todos Texto.is_digit n = true → Texto.strip n = n.
Proof.
  intros Hn. apply strip_sem_espaco.
  eapply todos_impl; [apply is_digit_nao_espaco | done].
Qed.

Lemma extrair_numeros_nfe_conteudo (texto : Celula) :
  let '(numeros, eh_cancelamento, eh_estorno) := extrair_numeros_nfe texto in
  (eh_cancelamento || eh_estorno = true → numeros = ∅)
  ∧ ∀ n, n ∈ numeros → n ≠ "" ∧ Texto.todos Texto.is_digit n = true.
Proof.
  unfold extrair_numeros_nfe.
  destruct (negb (py_bool texto)); [split; [done | set_solver]|].
  set (texto_lower := Texto.lower (Texto.strip (py_str texto))).
  destruct (Texto.contains "cancelado" texto_lower
            || Texto.contains "cancelamento" texto_lower) eqn:Hc;
    [split; [done | set_solver]|].
  destruct (Texto.contains "estorno" texto_lower) eqn:He;
    [split; [done | set_solver]|].
  cbn [orb]. split; [done|]. intros n Hn.
  apply elem_of_list_to_set in Hn. apply list_elem_of_In in Hn.
  apply List.filter_In in Hn as [Hn Hne]. apply list_elem_of_In in Hn.
  apply list_elem_of_fmap in Hn as (m & -> & Hm).
  assert (Texto.todos Texto.is_digit m = true) as Hdig.
  { pose proof (split_go_digitos ""
                  (Texto.keep_only (λ c, Texto.is_digit c || Ascii.eqb c ",")
                     (Texto.strip (py_str texto))) eq_refl
                  (todos_keep_only _ _)) as Hall.
    rewrite Forall_forall in Hall. by apply Hall. }
  rewrite strip_digitos in * by done. split; [|done].
  intros ->. done.
Qed.

(** X3.  [extrair_numeros_nfe] never returns a reference together with a
    flag: when the text names a cancellation or a reversal the set of
    numbers is empty; and every number it does return is a non-empty text
    of digits. *)
Theorem extrair_numeros_nfe_forma (texto : Celula) :
  let '(numeros, eh_cancelamento, eh_estorno) := extrair_numeros_nfe texto in
  (eh_cancelamento || eh_estorno = true → numeros = ∅)
  ∧ ∀ n, n ∈ numeros → n ≠ "" ∧ Texto.todos Texto.is_digit n = true.
Proof. exact (extrair_numeros_nfe_conteudo texto). Qed.

(** ** The two currency parsers *)

Lemma quantize_centavos_forma (d d' : Dec.Decimal) :
  Dec.quantize_centavos d = Ret d' → duas_casas d' ∨ nan_silencioso d'.
Proof.
  destruct d as [neg c e|neg|neg [|]]; cbn [Dec.quantize_centavos]; try done.
  - destruct (_ <? _)%N; [|done]. intros [= <-]. left. by eexists _, _.
  - intros [= <-]. right. by eexists.
Qed.

Lemma decimal_quantizado_forma (text : string) (d : Dec.Decimal) :
  decimal_quantizado text = Ret d → duas_casas d ∨ nan_silencioso d.
Proof.
  unfold decimal_quantizado. destruct (Dec.of_string text); [|done].
  apply quantize_centavos_forma.
Qed.

(** Quantizing what was quantized changes nothing. *)
Lemma quantize_centavos_idempotente (d d' : Dec.Decimal) :
  Dec.quantize_centavos d = Ret d' → Dec.quantize_centavos d' = Ret d'.
Proof.
  destruct d as [neg c e|neg|neg [|]]; cbn [Dec.quantize_centavos]; try done.
  - destruct (_ <? _)%N eqn:Hlt; [|done]. intros [= <-].
    cbn [Dec.quantize_centavos].
    assert (Dec.coeficiente_centavos (Dec.coeficiente_centavos c e) (-2)
            = Dec.coeficiente_centavos c e) as ->.
    { unfold Dec.coeficiente_centavos at 1.
      change (-2 <=? -2) with true. cbv iota.
      change (Z.to_N (-2 + 2)) with 0%N. rewrite N.pow_0_r. lia. }
    by rewrite Hlt.
  - by intros [= <-].
Qed.

(** X4.  Whatever the cell, a value [converter_valor] returns for it is
    [Decimal('0')], a Decimal with exactly two fractional digits, or a
    quiet NaN; and on a cell that is text, empty, a date or a date-time it
    always returns. *)
Theorem converter_valor_celula_forma (c : Celula) :
  (∀ d, converter_valor (VCelula c) = Ret d →
        d = Dec.zero ∨ duas_casas d ∨ nan_silencioso d)
  ∧ (match c with
     | CBool _ | CInt _ | CFloat _ => True
     | _ => ∃ d, converter_valor (VCelula c) = Ret d
     end).
Proof.
  split.
  - intros d.
    destruct c; cbn [converter_valor];
      try (intros Hd; right; by eapply decimal_quantizado_forma);
      try (intros [= <-]; by left);
      (destruct (decimal_quantizado _) as [d'|] eqn:Hq; intros [= <-];
       [right; by eapply decimal_quantizado_forma | by left]).
  - destruct c; try done; cbn [converter_valor]; try by eexists.
    all: destruct (decimal_quantizado _); by eexists.
Qed.

(** X5.  On every text the two parsers agree: where [ValorMonetario]
    accepts the text, [converter_valor] returns the same Decimal; where
    [ValorMonetario] raises, the exception is [ValueError] and
    [converter_valor] returns [Decimal('0')]. *)
Theorem ValorMonetario_init_converter_valor (s : string) :
  match ValorMonetario_init (VCelula (CStr s)) with
  | Ret d => converter_valor (VCelula (CStr s)) = Ret d
  | Raise e =>
      e = ValueError ∧ converter_valor (VCelula (CStr s)) = Ret Dec.zero
  end.
Proof.
  unfold ValorMonetario_init. cbn [converter_valor py_str].
  by destruct (decimal_quantizado _).
Qed.

(** X6.  A value accepted by [ValorMonetario] is stable: building a
    [ValorMonetario] again from the stored Decimal stores the same
    Decimal (as [__add__] and [__sub__] rely on), and the only exception
    the constructor raises is [ValueError]. *)
Theorem ValorMonetario_init_estavel (valor : Valor) :
  match ValorMonetario_init valor with
  | Ret d => ValorMonetario_init (VDecimal d) = Ret d
  | Raise e => e = ValueError
  end.
Proof.
  assert (∀ d d', Dec.quantize_centavos d = Ret d' →
                  ValorMonetario_init (VDecimal d') = Ret d') as Hq.
  { intros d d' Hd. unfold ValorMonetario_init.
    by rewrite (quantize_centavos_idempotente d d' Hd). }
  assert (∀ t d', decimal_quantizado t = Ret d' →
                  ValorMonetario_init (VDecimal d') = Ret d') as Ht.
  { intros t d'. unfold decimal_quantizado.
    destruct (Dec.of_string t); [apply Hq | done]. }
  destruct valor as [d|c].
  - unfold ValorMonetario_init at 1.
    destruct (Dec.quantize_centavos d) as [d'|] eqn:Hd; [by eapply Hq | done].
  - destruct c; unfold ValorMonetario_init at 1;
      (destruct (decimal_quantizado _) as [d'|] eqn:Hd; [by eapply Ht | done]).
Qed.

(** ** More on the groups *)

Lemma tipo_origem_NENHUM (g : GrupoNFe) :
  tipo_origem g = NENHUM →
  transacoes_individuais g = [] ∧ transacoes_agrupadas g = [].
Proof.
  unfold tipo_origem, tem_individual, tem_agrupado.
  destruct (transacoes_individuais g), (transacoes_agrupadas g); done.
Qed.

Lemma grupo_tem_contribuinte ts grupos n g :
  criar_grupos_nfe ts = Ret grupos →
  dict_get n grupos = Some g →
  individuais_de n ts ≠ [] ∨ agrupadas_de n ts ≠ [].
Proof.
  intros Hg Hn. pose proof (grupo_de_criar_grupo _ _ _ _ Hg Hn) as Hc.
  unfold criar_grupo in Hc. cbn [dados_individuais dados_agrupadas] in Hc.
  destruct (individuais_de n ts); [|by left].
  destruct (agrupadas_de n ts); [done | by right].
Qed.

(** X7.  The keys of the group map are unique and are exactly the invoice
    numbers that some transaction not flagged as cancellation or reversal
    references; the group filed under a number carries that number, and
    its origin is never NENHUM. *)
Theorem criar_grupos_nfe_chaves (ts : list TransacaoOriginal) :
  ∃ grupos, criar_grupos_nfe ts = Ret grupos
    ∧ NoDup (dict_keys grupos)
    ∧ (∀ n, is_Some (dict_get n grupos) ↔ ∃ t, t ∈ ts ∧ contribui n t)
    ∧ (∀ n g, dict_get n grupos = Some g →
              numero_nfe g = n ∧ tipo_origem g ≠ NENHUM).
Proof.
  destruct (criar_grupos_nfe_ok ts) as (grupos & Hg & Hnd & _).
  exists grupos. split_and!; [done | done | |].
  - intros n. split.
    + intros [g Hn].
      destruct (grupo_tem_contribuinte _ _ _ _ Hg Hn) as [Hi|Ha].
      * destruct (individuais_de n ts) as [|t l] eqn:Hl; [done|].
        assert (t ∈ individuais_de n ts) as Hin
          by (rewrite Hl; apply list_elem_of_here).
        apply list_elem_of_filter in Hin as [[Hc _] Hin]. eauto.
      * destruct (agrupadas_de n ts) as [|t l] eqn:Hl; [done|].
        assert (t ∈ agrupadas_de n ts) as Hin
          by (rewrite Hl; apply list_elem_of_here).
        apply list_elem_of_filter in Hin as [[Hc _] Hin]. eauto.
    + intros (t & Hin & Hc). destruct (grupo_existe _ _ _ _ Hg Hin Hc) as [g ?].
      by exists g.
  - intros n g Hn.
    destruct (grupo_contribuintes _ _ _ _ Hg Hn) as (Hnum & Hi & Ha).
    split; [done|]. intros Ho. apply tipo_origem_NENHUM in Ho as [Hi' Ha'].
    destruct (grupo_tem_contribuinte _ _ _ _ Hg Hn); congruence.
Qed.

Lemma construir_indice_desde_excluidas
    (indice : dict string EntradaIndice) (ts : list TransacaoOriginal) :
  foldl indexar_transacao indice
    (filter (λ t, eh_cancelamento t = false ∧ eh_estorno t = false) ts)
  = foldl indexar_transacao indice ts.
Proof.
  revert indice. induction ts as [|t ts IH]; intros indice; [done|].
  cbn [foldl].
  destruct (decide (eh_cancelamento t = false ∧ eh_estorno t = false))
    as [Hok|Hex].
  - rewrite filter_cons_True by done. cbn [foldl]. apply IH.
  - rewrite filter_cons_False by done. rewrite IH. f_equal.
    unfold indexar_transacao.
    destruct (eh_cancelamento t), (eh_estorno t); try done.
    exfalso. by apply Hex.
Qed.

(** X8.  Transactions flagged as cancellation or reversal leave no trace
    in the grouping: removing them from the sheet gives the same group
    map, in the same order. *)
Theorem criar_grupos_nfe_ignora_excluidas (ts : list TransacaoOriginal) :
  criar_grupos_nfe
    (filter (λ t, eh_cancelamento t = false ∧ eh_estorno t = false) ts)
  = criar_grupos_nfe ts.
Proof.
  unfold criar_grupos_nfe, construir_indice.
  by rewrite construir_indice_desde_excluidas.
Qed.

(** X9.  The date, the tax identifiers and the deferral text of a group
    are those of its first individual contributor when it has one, and
    of its first combined contributor otherwise. *)
Theorem criar_grupos_nfe_campos (ts : list TransacaoOriginal) :
  ∃ grupos, criar_grupos_nfe ts = Ret grupos ∧
    ∀ n g, dict_get n grupos = Some g →
      ∃ primeira,
        head (individuais_de n ts ++ agrupadas_de n ts) = Some primeira
        ∧ g_data_abastecimento g = data_abastecimento primeira
        ∧ g_cnpj_posto g = cnpj_posto primeira
        ∧ g_cnpj_empresa g = cnpj_empresa primeira
        ∧ g_postergado g = postergado primeira.
Proof.
  destruct (criar_grupos_nfe_ok ts) as (grupos & Hg & _ & _).
  exists grupos. split; [done|]. intros n g Hn.
  pose proof (grupo_de_criar_grupo _ _ _ _ Hg Hn) as Hc.
  unfold criar_grupo in Hc. cbn [dados_individuais dados_agrupadas] in Hc.
  destruct (individuais_de n ts) as [|i li].
  - destruct (agrupadas_de n ts) as [|a la]; [done|].
    destruct (sorted _); [done|]. injection Hc as <-. by exists a.
  - injection Hc as <-. by exists i.
Qed.

(** ** More on the confrontation *)

(** X10.  In the invoice index the last invoice of a number wins: looking
    a number up gives the last invoice of the list that carries it, and
    nothing when no invoice carries it. *)
Theorem criar_indice_nfes_ultima (nfes : list NFe) (n : string) :
  criar_indice_nfes nfes !! n = last (filter (λ nf, numero nf = n) nfes).
Proof.
  unfold criar_indice_nfes.
  induction nfes as [|nf nfes IH] using rev_ind; [done|].
  rewrite foldl_snoc, filter_app.
  destruct (decide (numero nf = n)) as [<-|Hne].
  - rewrite lookup_insert_eq. rewrite filter_cons_True by done.
    rewrite filter_nil. by rewrite last_snoc.
  - rewrite lookup_insert_ne by done. rewrite filter_cons_False by done.
    rewrite filter_nil, app_nil_r. exact IH.
Qed.


(** X12.  The deadline test of [models.Configuracao] and the
    classification of the script agree: with the same closing date and
    grace period, a group whose invoice is found is DESCONSIDERADA exactly
    when [esta_dentro_prazo] is false for its purchase date. *)
Theorem esta_dentro_prazo_confrontar_grupo (c : Models.Configuracao)
    (g : GrupoNFe) (nfes_index : gmap string NFe) (nf : NFe) :
  nfes_index !! numero_nfe g = Some nf →
  (Models.esta_dentro_prazo c (g_data_abastecimento g) = false
   ↔ tipo (confrontar_grupo g nfes_index (config_de c)) = DESCONSIDERADA).
Proof.
  intros Hnf. unfold Models.esta_dentro_prazo, Models.calcular_dias_postergados.
  unfold confrontar_grupo, calcular_dias_postergados. rewrite Hnf.
  cbn [config_de DATA_FECHAMENTO PERIODO_MAXIMO_DIAS TOLERANCIA_VALOR].
  set (dias := Z.max 0 _).
  destruct (Z.leb_spec dias (Models.periodo_maximo_dias c)) as [Hle|Hgt].
  - rewrite (proj2 (Z.ltb_ge _ _)) by done. split; [done|].
    destruct (_ <=? _); [done|]. by destruct (tipo_origem g).
  - by rewrite (proj2 (Z.ltb_lt _ _)).
Qed.

Lemma esta_dentro_prazo_confrontar_grupo_witness :
  exemplo_indice !! numero_nfe exemplo_g_vencido
  = Some (exemplo_nfe "3001" 10000)
  ∧ Models.esta_dentro_prazo
      (Models.mk_Configuracao (mk_date 2025 9 30) 60 101 "17122471000175")
      (g_data_abastecimento exemplo_g_vencido) = false
  ∧ tipo (confrontar_grupo exemplo_g_vencido exemplo_indice
            (config_de (Models.mk_Configuracao (mk_date 2025 9 30) 60 101
                          "17122471000175"))) = DESCONSIDERADA.
Proof.
  assert (exemplo_indice !! numero_nfe exemplo_g_vencido
          = Some (exemplo_nfe "3001" 10000)) as Hnf by (vm_compute; reflexivity).
  split_and!; [exact Hnf | vm_compute; reflexivity |].
  apply (esta_dentro_prazo_confrontar_grupo _ _ _ _ Hnf).
  vm_compute. reflexivity.
Defined.

(** X13.  A configuration that [models.Configuracao] accepts has a
    positive grace period and a non-negative tolerance, and considers
    every purchase made on the closing date or after it within the
    deadline, with zero deferred days. *)
Theorem nova_Configuracao_prazo (fechamento : date) (periodo tolerancia : Z)
    (cnpj : string) (c : Models.Configuracao) (d : date) :
  Models.nova_Configuracao fechamento periodo tolerancia cnpj = Ret c →
  0 < Models.periodo_maximo_dias c
  ∧ 0 <= Models.tolerancia_valor c
  ∧ (toordinal fechamento <= toordinal d →
     Models.calcular_dias_postergados c d = 0
     ∧ Models.esta_dentro_prazo c d = true).
Proof.
  unfold Models.nova_Configuracao.
  destruct (Z.leb_spec periodo 0); [done|].
  destruct (Z.ltb_spec tolerancia 0); [done|]. intros [= <-].
  unfold Models.esta_dentro_prazo, Models.calcular_dias_postergados.
  cbn [Models.periodo_maximo_dias Models.tolerancia_valor
       Models.data_fechamento].
  split_and!; [done | done |]. intros Hd.
  rewrite Z.max_l by lia. split; [done|]. apply Z.leb_le. lia.
Qed.

Lemma nova_Configuracao_prazo_witness :
  ∃ c, Models.nova_Configuracao (mk_date 2025 9 30) 60 101 "17122471000175"
       = Ret c
       ∧ Models.esta_dentro_prazo c (mk_date 2025 10 2) = true.
Proof.
  eexists. split; [reflexivity|].
  eapply (nova_Configuracao_prazo (mk_date 2025 9 30) 60 101 "17122471000175"
            _ (mk_date 2025 10 2)); [reflexivity|].
  vm_compute. discriminate.
Defined.

(** X14.  The amount to pay and the validation difference of the summary
    do not depend on the DESCONSIDERADA bucket: the amount to pay is
    identicas + agrupadas + divergentes - nao_encontradas whatever was
    filed as DESCONSIDERADA. *)
Theorem gerar_resumo_desconsideradas (resultados : Resultados)
    (rs : list Resultado) (valor_total_boleto cancelamento estorno : Z) :
  let resumo := gerar_resumo resultados valor_total_boleto cancelamento estorno in
  let resumo' := gerar_resumo (com_desconsideradas resultados rs)
                   valor_total_boleto cancelamento estorno in
  valor_a_pagar resumo
  = identicas resumo + agrupadas resumo + divergentes resumo
    - nao_encontradas resumo
  ∧ valor_a_pagar resumo' = valor_a_pagar resumo
  ∧ diferenca_validacao resumo' = diferenca_validacao resumo.
Proof.
  cbv zeta. unfold gerar_resumo, com_desconsideradas.
  cbn [identicas agrupadas divergentes nao_encontradas valor_a_pagar
       diferenca_validacao].
  repeat match goal with
         | |- context [decide (?a = ?b)] => destruct (decide (a = b)); try done
         end.
  split_and!; [lia | lia | f_equal; lia].
Qed.

(** ** More on the numbering of the combined divergences *)

Lemma agrupar_item_refs rs (c : Z) (refs : list nat) :
  (c, refs) ∈ agrupar rs → refs = refs_de c rs.
Proof.
  intros Hin. apply dict_get_elem_of in Hin; [|apply agrupar_keys_NoDup].
  rewrite agrupar_get in Hin. destruct (refs_de c rs); congruence.
Qed.

Lemma id_em_agrupar_None rs i r :
  rs !! i = Some r → chave_de r = None → id_em (agrupar rs) 1 i = None.
Proof.
  intros Hi Hc. destruct (id_em (agrupar rs) 1 i) as [id|] eqn:Hid; [|done].
  apply id_em_Some_elem_of in Hid as (c & refs & Hin & Hiref).
  rewrite (agrupar_item_refs rs c refs Hin) in Hiref.
  apply elem_of_refs_de in Hiref as (r' & Hr' & Hc'). congruence.
Qed.

Lemma chave_de_None (r : Resultado) :
  chave_de r = None ↔ transacoes_agrupadas (grupo r) = [].
Proof. unfold chave_de. by destruct (transacoes_agrupadas (grupo r)). Qed.

(** X15.  On any list of results
    [detectar_grupos_divergentes_agrupadas] returns and keeps the list
    position by position: a result whose group has no combined
    contributor is left exactly as it was, and any other result is
    changed in its divergence-group id only. *)
Theorem detectar_grupos_divergentes_agrupadas_preserva (rs : list Resultado) :
  ∃ st numerados,
    detectar_grupos_divergentes_agrupadas rs = Ret (st, numerados)
    ∧ length st = length rs
    ∧ ∀ i r, rs !! i = Some r →
        (transacoes_agrupadas (grupo r) = [] → st !! i = Some r)
        ∧ (transacoes_agrupadas (grupo r) ≠ [] →
           ∃ id, st !! i = Some (set_grupo_divergencia_id id r)).
Proof.
  destruct (detectar_grupos_store rs) as (st & numerados & Hdet & Hlen & Hst).
  exists st, numerados. split_and!; [done..|]. intros i r Hi. split.
  - intros Hnil. apply chave_de_None in Hnil.
    by rewrite Hst, (id_em_agrupar_None rs i r), Hi.
  - intros Hne. destruct (chave_de r) as [c|] eqn:Hc;
      [|by apply chave_de_None in Hc].
    assert (c ∈ dict_keys (agrupar rs)) as Hin
      by (by eapply agrupar_keys_elem_of, chave_de_chaves_de).
    apply list_elem_of_lookup_1 in Hin as [j Hj].
    exists (1 + Z.of_nat j).
    by rewrite Hst, (id_em_agrupar rs i r c j), Hi.
Qed.

Lemma dict_set_novo {V} (k : Z) (v : V) (d : dict Z V) :
  k ∉ dict_keys d → dict_set k v d = d ++ [(k, v)].
Proof.
  induction d as [|[k' v'] d IH]; [done|].
  cbn [dict_keys map fst]. fold (dict_keys d). rewrite not_elem_of_cons.
  intros [Hne Hk]. cbn [dict_set]. rewrite decide_False by done.
  by rewrite IH.
Qed.

(** The dictionary built by the second loop: one entry per group, in
    order, numbered from the first free identifier. *)
Lemma numerar_grupos_numerados (itens : dict Z (list nat))
    (st : EstadoNumeracao) :
  Forall (λ item, item.2 ≠ []) itens →
  Forall (λ k, k < grupo_id st) (dict_keys (grupos_numerados st)) →
  ∃ st', numerar_grupos itens st = Ret st'
    ∧ grupos_numerados st'
      = grupos_numerados st
        ++ imap (λ j item, (grupo_id st + Z.of_nat j, item.2)) itens.
Proof.
  revert st. induction itens as [|[c refs] resto IH]; intros st Hall Hkeys.
  - exists st. by rewrite app_nil_r.
  - apply Forall_cons in Hall as [Hne Hall]. cbn [snd] in Hne.
    cbn [numerar_grupos]. rewrite numerar_grupo_ok by done. cbn [exc_bind].
    assert (grupo_id st ∉ dict_keys (grupos_numerados st)) as Hfresh.
    { intros Hin. rewrite Forall_forall in Hkeys. apply Hkeys in Hin. lia. }
    destruct (IH {| store := foldl (atribuir_id (grupo_id st)) (store st) refs;
                    grupos_numerados :=
                      dict_set (grupo_id st) refs (grupos_numerados st);
                    grupo_id := grupo_id st + 1 |} Hall)
      as (st' & Hst' & Hnum).
    { cbn [grupos_numerados grupo_id]. rewrite dict_set_novo by done.
      unfold dict_keys. rewrite map_app. apply Forall_app. split.
      - eapply Forall_impl; [exact Hkeys|]. cbn. intros. lia.
      - apply Forall_singleton. cbn. lia. }
    exists st'. split; [done|]. rewrite Hnum.
    cbn [grupos_numerados grupo_id]. rewrite dict_set_novo by done.
    rewrite <- app_assoc. f_equal. cbn [imap app]. f_equal.
    + cbn. f_equal. lia.
    + apply imap_ext. intros j item _. cbn. f_equal. lia.
Qed.

Lemma detectar_grupos_numerados rs :
  ∃ st,
    detectar_grupos_divergentes_agrupadas rs
    = Ret (st, imap (λ j item, (1 + Z.of_nat j, item.2)) (agrupar rs)).
Proof.
  unfold detectar_grupos_divergentes_agrupadas. fold (agrupar rs).
  destruct (numerar_grupos_numerados (agrupar rs)
              {| store := rs; grupos_numerados := []; grupo_id := 1 |}
              (agrupar_refs_nao_vazias rs)) as (st' & Hst' & Hnum).
  { apply Forall_nil_2. }
  rewrite Hst'. cbn [exc_bind]. rewrite Hnum. by exists (store st').
Qed.

(** X16.  The dictionary [detectar_grupos_divergentes_agrupadas] returns
    has the keys 1, ..., k in this order, k being the number of distinct
    rows of first combined contributors; the list under an identifier is
    never empty and holds exactly the results with a combined contributor
    that carry this identifier in the store, so that an empty input gives
    an empty dictionary. *)
Theorem detectar_grupos_divergentes_agrupadas_numerados (rs : list Resultado) :
  ∃ st numerados,
    detectar_grupos_divergentes_agrupadas rs = Ret (st, numerados)
    ∧ dict_keys numerados
      = (λ j : nat, 1 + Z.of_nat j) <$> seq 0 (size (chaves_de rs))
    ∧ ∀ id refs, (id, refs) ∈ numerados →
        refs ≠ []
        ∧ ∀ i, i ∈ refs ↔
               ∃ r, rs !! i = Some r
                    ∧ transacoes_agrupadas (grupo r) ≠ []
                    ∧ id_de st i = Some id.
Proof.
  destruct (detectar_grupos_store rs) as (st & numerados & Hdet & Hlen & Hst).
  destruct (detectar_grupos_numerados rs) as (st' & Hdet').
  rewrite Hdet in Hdet'. injection Hdet' as _ ->.
  exists st, (imap (λ j item, (1 + Z.of_nat j, item.2)) (agrupar rs)).
  pose proof (agrupar_keys_NoDup rs) as Hnd.
  split_and!; [done | |].
  - unfold dict_keys. rewrite <- agrupar_keys_length.
    unfold dict_keys. rewrite length_map.
    apply list_eq. intros j.
    rewrite !list_lookup_fmap, list_lookup_imap.
    destruct (agrupar rs !! j) as [item|] eqn:Hj.
    + unfold dict in Hj. rewrite Hj.
      rewrite lookup_seq_lt by (by eapply lookup_lt_Some). done.
    + unfold dict in Hj. rewrite Hj.
      rewrite lookup_seq_ge by (by apply lookup_ge_None). done.
  - intros id refs Hin.
    apply list_elem_of_lookup_1 in Hin as [j Hj].
    rewrite list_lookup_imap in Hj.
    destruct (agrupar rs !! j) as [[c refs']|] eqn:Hitem;
      unfold dict in Hitem; rewrite Hitem in Hj; [|done].
    cbn in Hj. injection Hj as <- <-.
    assert ((c, refs') ∈ agrupar rs) as Hin
      by (by eapply list_elem_of_lookup_2).
    pose proof (agrupar_item_refs rs c refs' Hin) as ->.
    assert (dict_keys (agrupar rs) !! j = Some c) as Hkey.
    { unfold dict_keys. rewrite list_lookup_fmap.
      unfold dict. by rewrite Hitem. }
    split.
    + pose proof (agrupar_refs_nao_vazias rs) as Hall.
      rewrite Forall_forall in Hall. by apply (Hall _ Hin).
    + intros i. rewrite elem_of_refs_de. split.
      * intros (r & Hi & Hc). exists r. split_and!; [done | |].
        -- intros Hnil. apply chave_de_None in Hnil. congruence.
        -- unfold id_de. by rewrite Hst, (id_em_agrupar rs i r c j), Hi.
      * intros (r & Hi & Hne & Hid). exists r. split; [done|].
        destruct (chave_de r) as [c'|] eqn:Hc;
          [|by apply chave_de_None in Hc].
        assert (c' ∈ dict_keys (agrupar rs)) as Hin'
          by (by eapply agrupar_keys_elem_of, chave_de_chaves_de).
        apply list_elem_of_lookup_1 in Hin' as [j' Hj'].
        unfold id_de in Hid.
        rewrite Hst, (id_em_agrupar rs i r c' j'), Hi in Hid by done.
        cbn in Hid. injection Hid as Hid.
        assert (j' = j) as -> by lia. congruence.
Qed.

(** ** Ingestion of the sheet, row by row *)

Section Leitura.
Variable strptime_date : string → string → option date.
Implicit Types (st : EstadoCarga) (config : Config)
  (cels : LinhaPlanilha) (t : TransacaoOriginal).

Lemma carregar_linhas_snoc config st (linhas : list LinhaPlanilha) cels :
  carregar_linhas strptime_date config st (linhas ++ [cels])
  = carregar_linha strptime_date config
      (carregar_linhas strptime_date config st linhas)
      (2 + Z.of_nat (length linhas)) cels.
Proof.
  unfold carregar_linhas. rewrite imap_app, foldl_app. cbn.
  by rewrite Nat.add_0_r.
Qed.

Lemma limpar_cnpj_verdadeiro (c : Celula) :
  py_bool c = true → limpar_cnpj_texto (py_str c) = limpar_cnpj c.
Proof. by destruct c. Qed.

(** One turn of the loop either leaves the list alone, on a row that is
    not accepted, or appends the reading of an accepted row. *)
Lemma carregar_linha_casos config st (n : Z) cels :
  (¬ linha_aceita strptime_date cels
   ∧ transacoes_lidas (carregar_linha strptime_date config st n cels)
     = transacoes_lidas st)
  ∨ (linha_aceita strptime_date cels
     ∧ ∃ t, transacoes_lidas (carregar_linha strptime_date config st n cels)
            = transacoes_lidas st ++ [t]
            ∧ linha t = n ∧ lida_de strptime_date config cels t).
Proof.
  unfold carregar_linha, linha_aceita.
  destruct (py_bool (col_numero_nfe cels)) eqn:Hn; cbn [negb orb];
    [|left; split; [intros (? & _); done | done]].
  destruct (py_bool (col_data_abastecimento cels)) eqn:Hd; cbn [negb];
    [|left; split; [intros (_ & ? & _); done | done]].
  destruct (converter_data _ _) as [data|] eqn:Hdata;
    [|left; split; [intros (_ & _ & [? ?] & _); done | done]].
  destruct (converter_valor _) as [d|e] eqn:Hvalor;
    [|left; split; [intros (_ & _ & _ & ? & ?); done | done]].
  destruct (extrair_numeros_nfe _) as [[numeros canc] est] eqn:Hnum.
  right. split; [by eauto 10|].
  eexists. split; [reflexivity|]. split; [done|].
  unfold lida_de.
  cbn [nova_TransacaoOriginal data_abastecimento valor_boleto numeros_nfe
       eh_cancelamento eh_estorno texto_original cnpj_posto cnpj_empresa
       postergado].
  rewrite Hdata, Hvalor. split_and!; try done.
  - by eexists.
  - destruct (py_bool (col_cnpj_posto cels)) eqn:Hp; [|done].
    by apply limpar_cnpj_verdadeiro.
  - destruct (py_bool (col_cnpj_empresa cels)) eqn:Hp; [|done].
    by apply limpar_cnpj_verdadeiro.
Qed.

Lemma StronglySorted_snoc_lt (l : list Z) (x : Z) :
  StronglySorted Z.lt l → Forall (λ y, y < x) l →
  StronglySorted Z.lt (l ++ [x]).
Proof.
  induction 1 as [|y l Hl IH Hy]; intros Hall.
  - repeat constructor.
  - apply Forall_cons in Hall as [Hyx Hall]. cbn [app]. constructor.
    + by apply IH.
    + apply Forall_app. split; [done|]. by apply Forall_singleton.
Qed.

(** What the loop has built after the rows [linhas], from the empty
    state: row numbers increase along the list, every transaction is the
    reading of the row it names, and every accepted row is there. *)
Lemma carregar_linhas_leitura config (linhas : list LinhaPlanilha) :
  let ts := transacoes_lidas
              (carregar_linhas strptime_date config
                 {| transacoes_lidas := []; erros := 0; total_boleto := 0 |}
                 linhas) in
  StronglySorted Z.lt (map linha ts)
  ∧ (∀ t, t ∈ ts →
       ∃ (i : nat) cels, linha t = 2 + Z.of_nat i ∧ linhas !! i = Some cels
                         ∧ linha_aceita strptime_date cels
                         ∧ lida_de strptime_date config cels t)
  ∧ (∀ (i : nat) cels, linhas !! i = Some cels →
       linha_aceita strptime_date cels →
       ∃ t, t ∈ ts ∧ linha t = 2 + Z.of_nat i).
Proof.
  induction linhas as [|cels linhas IH] using rev_ind.
  - cbn. split_and!; [constructor | set_solver | done].
  - cbv zeta in *. rewrite carregar_linhas_snoc.
    destruct IH as (Hord & Horigem & Htodas).
    set (st := carregar_linhas strptime_date config _ linhas) in *.
    assert (∀ (i : nat) c, linhas !! i = Some c →
              (linhas ++ [cels]) !! i = Some c) as Hmono.
    { intros i c Hi. by rewrite lookup_app_l by (by eapply lookup_lt_Some). }
    destruct (carregar_linha_casos config st
                (2 + Z.of_nat (length linhas)) cels)
      as [[Hnao ->]|[Hsim (t & -> & Hlinha & Hlida)]].
    + split_and!; [done | |].
      * intros t Ht. destruct (Horigem t Ht) as (i & c & ? & ? & ? & ?).
        exists i, c. eauto.
      * intros i c Hi Hc.
        destruct (decide (i < length linhas)%nat) as [Hlt|Hge].
        -- rewrite lookup_app_l in Hi by done. eauto.
        -- rewrite lookup_app_r in Hi by lia.
           apply list_lookup_singleton_Some in Hi as [_ <-]. done.
    + split_and!.
      * rewrite map_app. cbn [map]. apply StronglySorted_snoc_lt; [done|].
        apply Forall_forall. intros n Hn.
        apply list_elem_of_fmap in Hn as (t' & -> & Ht').
        destruct (Horigem t' Ht') as (i & c & -> & Hi & _).
        apply lookup_lt_Some in Hi. lia.
      * intros t' Ht'. apply elem_of_app in Ht' as [Ht'|Ht'].
        -- destruct (Horigem t' Ht') as (i & c & ? & ? & ? & ?).
           exists i, c. eauto.
        -- apply list_elem_of_singleton in Ht' as ->.
           exists (length linhas), cels. split_and!; try done.
           by rewrite lookup_app_r, Nat.sub_diag by lia.
      * intros i c Hi Hc.
        destruct (decide (i < length linhas)%nat) as [Hlt|Hge].
        -- rewrite lookup_app_l in Hi by done.
           destruct (Htodas i c Hi Hc) as (t' & Ht' & Hl').
           exists t'. split; [|done]. apply elem_of_app. by left.
        -- rewrite lookup_app_r in Hi by lia.
           apply list_lookup_singleton_Some in Hi as [Hi <-].
           exists t. split; [apply elem_of_app; right; by apply list_elem_of_singleton|].
           rewrite Hlinha. f_equal. f_equal. lia.
Qed.

(** X17.  The transactions [carregar_transacoes_da_planilha] returns are
    in the order of the sheet: their row numbers increase strictly along
    the list, start at 2 and stay within the rows of the sheet, so that no
    row is read twice. *)
Theorem carregar_transacoes_da_planilha_ordem
    (linhas : list LinhaPlanilha) config :
  let ts := (carregar_transacoes_da_planilha strptime_date linhas config).1 in
  StronglySorted Z.lt (map linha ts)
  ∧ Forall (λ t, 2 ≤ linha t < 2 + Z.of_nat (length linhas)) ts.
Proof.
  cbv zeta. unfold carregar_transacoes_da_planilha. cbn [fst].
  destruct (carregar_linhas_leitura config linhas) as (Hord & Horigem & _).
  split; [done|]. apply Forall_forall. intros t Ht.
  destruct (Horigem t Ht) as (i & c & -> & Hi & _).
  apply lookup_lt_Some in Hi. lia.
Qed.


(** X19.  A row of the sheet gives a transaction exactly when its
    reference and date cells are truthy and neither its date nor its
    amount fails to convert; any other row is skipped and the rows after
    it are still read. *)
Theorem carregar_transacoes_da_planilha_aceitas
    (linhas : list LinhaPlanilha) config (i : nat) (cels : LinhaPlanilha) :
  linhas !! i = Some cels →
  (∃ t, t ∈ (carregar_transacoes_da_planilha strptime_date linhas config).1
        ∧ linha t = 2 + Z.of_nat i)
  ↔ linha_aceita strptime_date cels.
Proof.
  unfold carregar_transacoes_da_planilha. cbn [fst]. intros Hi.
  destruct (carregar_linhas_leitura config linhas) as (_ & Horigem & Htodas).
  split.
  - intros (t & Ht & Hl).
    destruct (Horigem t Ht) as (j & c & Hl' & Hj & Hc & _).
    assert (j = i) as -> by lia. congruence.
  - intros Hc. by apply (Htodas i cels).
Qed.

Lemma limpar_cnpj_digitos (c : Celula) :
  Texto.todos Texto.is_digit (limpar_cnpj c) = true.
Proof. destruct c; try done; apply todos_keep_only. Qed.

(** X20.  The transactions read from the sheet are well formed for the
    grouping: both tax numbers hold digits only, a transaction flagged as
    cancellation or reversal carries no invoice number, and every invoice
    number carried is a non-empty text of digits. *)
Theorem carregar_transacoes_da_planilha_forma
    (linhas : list LinhaPlanilha) config (t : TransacaoOriginal) :
  t ∈ (carregar_transacoes_da_planilha strptime_date linhas config).1 →
  Texto.todos Texto.is_digit (cnpj_posto t) = true
  ∧ Texto.todos Texto.is_digit (cnpj_empresa t) = true
  ∧ (eh_cancelamento t || eh_estorno t = true → numeros_nfe t = ∅)
  ∧ ∀ n, n ∈ numeros_nfe t → n ≠ "" ∧ Texto.todos Texto.is_digit n = true.
Proof.
  unfold carregar_transacoes_da_planilha. cbn [fst]. intros Ht.
  destruct (carregar_linhas_leitura config linhas) as (_ & Horigem & _).
  destruct (Horigem t Ht)
    as (i & c & _ & _ & _ & _ & _ & Hnum & _ & Hposto & Hempresa & _).
  pose proof (extrair_numeros_nfe_conteudo (col_numero_nfe c)) as Hforma.
  rewrite Hnum in Hforma. destruct Hforma as [Hflag Hdig].
  split_and!; [| |done..].
  - rewrite Hposto.
    destruct (py_bool (col_cnpj_posto c)); [apply limpar_cnpj_digitos | done].
  - rewrite Hempresa. destruct (py_bool (col_cnpj_empresa c));
      [apply limpar_cnpj_digitos | apply todos_keep_only].
Qed.
End Leitura.


Lemma carregar_transacoes_da_planilha_aceitas_witness :
  exemplo_planilha !! 1%nat = Some (exemplo_linha "Cancelado" (CFloat "50.0"))
  ∧ ((∃ t, t ∈ (carregar_transacoes_da_planilha strptime_nenhum
                  exemplo_planilha config_padrao).1
           ∧ linha t = 2 + Z.of_nat 1)
     ↔ linha_aceita strptime_nenhum
         (exemplo_linha "Cancelado" (CFloat "50.0"))).
Proof.
  split; [reflexivity|].
  apply (carregar_transacoes_da_planilha_aceitas strptime_nenhum
           exemplo_planilha config_padrao 1%nat).
  reflexivity.
Defined.

Lemma carregar_transacoes_da_planilha_forma_witness :
  Texto.todos Texto.is_digit (cnpj_posto exemplo_lida) = true
  ∧ Texto.todos Texto.is_digit (cnpj_empresa exemplo_lida) = true
  ∧ (eh_cancelamento exemplo_lida || eh_estorno exemplo_lida = true →
     numeros_nfe exemplo_lida = ∅)
  ∧ ∀ n, n ∈ numeros_nfe exemplo_lida →
         n ≠ "" ∧ Texto.todos Texto.is_digit n = true.
Proof.
  apply (carregar_transacoes_da_planilha_forma strptime_nenhum
           exemplo_planilha config_padrao exemplo_lida).
  vm_compute. apply list_elem_of_here.
Defined.

(** ** The pipeline of [main] *)




(** ** The text of a [ValorMonetario] and back *)

Example formatar_moeda_br_exemplos :
  formatar_moeda_br (VCelula (CStr "1234.56")) = Ret "R$ 1.234,56"
  ∧ formatar_moeda_br (VCelula (CFloat "1234.56")) = Ret "R$ 1.234,56"
  ∧ formatar_moeda_br (VCelula (CStr "-123456,785")) = Ret "R$ -.123.456,79"
  ∧ formatar_moeda_br (VCelula (CStr "0,5")) = Ret "R$ 0,50"
  ∧ formatar_moeda_br (VCelula (CStr "nan")) = Ret "R$ NaN,00".
Proof. vm_compute. done. Qed.

Section TextoMonetario.
Implicit Types (s t : string) (c : ascii) (p : ascii → bool).

Lemma string_app_assoc s1 s2 s3 :
  String.app (String.app s1 s2) s3 = String.app s1 (String.app s2 s3).
Proof.
  induction s1 as [|c s1 IH]; [done|].
  change (String c (String.app (String.app s1 s2) s3)
          = String c (String.app s1 (String.app s2 s3))).
  by rewrite IH.
Qed.

Lemma string_app_cons c s t :
  String.app (String c s) t = String c (String.app s t).
Proof. done. Qed.

Lemma string_app_nil_l s : String.app "" s = s.
Proof. done. Qed.

Lemma string_length_app s t :
  String.length (String.app s t) = (String.length s + String.length t)%nat.
Proof.
  induction s as [|c s IH]; [done|].
  rewrite string_app_cons. cbn [String.length]. by rewrite IH.
Qed.

Lemma todos_app p s t :
  Texto.todos p (String.app s t) = Texto.todos p s && Texto.todos p t.
Proof.
  induction s as [|c s IH]; [done|].
  rewrite string_app_cons. cbn [Texto.todos]. rewrite IH.
  by destruct (p c).
Qed.

Lemma todos_rev p s : Texto.todos p (String.rev s) = Texto.todos p s.
Proof. unfold String.rev. rewrite todos_rev_app. cbn. apply andb_true_r. Qed.

Lemma rev_app_app s t acc :
  String.rev_app (String.app s t) acc
  = String.rev_app t (String.rev_app s acc).
Proof.
  revert acc. induction s as [|c s IH]; intros acc; [done|].
  rewrite string_app_cons. cbn [String.rev_app]. apply IH.
Qed.

Lemma string_length_rev_app s acc :
  String.length (String.rev_app s acc)
  = (String.length s + String.length acc)%nat.
Proof.
  revert acc. induction s as [|c s IH]; intros acc; [done|].
  cbn [String.rev_app String.length]. rewrite IH. cbn [String.length]. lia.
Qed.

Lemma string_length_rev s : String.length (String.rev s) = String.length s.
Proof. unfold String.rev. rewrite string_length_rev_app. cbn. lia. Qed.

(** *** Removing and replacing characters *)

Lemma remove_char_app c s t :
  Texto.remove_char c (String.app s t)
  = String.app (Texto.remove_char c s) (Texto.remove_char c t).
Proof.
  induction s as [|c' s IH]; [done|].
  rewrite string_app_cons. cbn [Texto.remove_char].
  destruct (Ascii.eqb c c'); [done|]. by rewrite string_app_cons, IH.
Qed.

Lemma remove_char_rev_app c s acc :
  Texto.remove_char c (String.rev_app s acc)
  = String.rev_app (Texto.remove_char c s) (Texto.remove_char c acc).
Proof.
  revert acc. induction s as [|c' s IH]; intros acc; [done|].
  cbn [String.rev_app Texto.remove_char]. rewrite IH.
  cbn [Texto.remove_char]. by destruct (Ascii.eqb c c').
Qed.

Lemma remove_char_rev c s :
  Texto.remove_char c (String.rev s) = String.rev (Texto.remove_char c s).
Proof. unfold String.rev. by rewrite remove_char_rev_app. Qed.

Lemma replace_char_app c d s t :
  Texto.replace_char c d (String.app s t)
  = String.app (Texto.replace_char c d s) (Texto.replace_char c d t).
Proof.
  induction s as [|c' s IH]; [done|].
  rewrite string_app_cons. cbn [Texto.replace_char].
  by rewrite string_app_cons, IH.
Qed.

Lemma replace_char_ausente c d s :
  Texto.todos (λ c', negb (Ascii.eqb c c')) s = true →
  Texto.replace_char c d s = s.
Proof.
  induction s as [|c' s IH]; [done|]. cbn [Texto.todos Texto.replace_char].
  destruct (Ascii.eqb c c'); [done|]. intros Hs. by rewrite IH.
Qed.

Lemma contains_char_app c s t :
  Texto.contains_char c (String.app s t)
  = Texto.contains_char c s || Texto.contains_char c t.
Proof.
  induction s as [|c' s IH]; [done|].
  rewrite string_app_cons. cbn [Texto.contains_char]. rewrite IH.
  by destruct (Ascii.eqb c c').
Qed.

Lemma contains_char_false c s :
  Texto.contains_char c s = false
  ↔ Texto.todos (λ c', negb (Ascii.eqb c c')) s = true.
Proof.
  induction s as [|c' s IH]; [done|]. cbn [Texto.contains_char Texto.todos].
  destruct (Ascii.eqb c c'); cbn; [done | exact IH].
Qed.

Lemma remove_par_ausente (a b : ascii) s :
  Texto.todos (λ c', negb (Ascii.eqb a c')) s = true →
  Texto.remove_par a b s = s.
Proof.
  induction s as [|c s IH]; [done|]. cbn [Texto.todos].
  intros [Hc Hs]%andb_true_iff. apply negb_true_iff in Hc.
  destruct s as [|c' s]; [done|].
  change (Texto.remove_par a b (String c (String c' s)))
    with (if Ascii.eqb a c && Ascii.eqb b c' then Texto.remove_par a b s
          else String c (Texto.remove_par a b (String c' s))).
  rewrite Hc. cbn [andb]. by rewrite IH.
Qed.

(** *** The last position of a character *)

Lemma rfind_desde_app c s t (pos ultima : Z) :
  Texto.rfind_desde c (String.app s t) pos ultima
  = Texto.rfind_desde c t (pos + Z.of_nat (String.length s))
      (Texto.rfind_desde c s pos ultima).
Proof.
  revert pos ultima. induction s as [|c' s IH]; intros pos ultima.
  - cbn. by rewrite Z.add_0_r.
  - rewrite string_app_cons. cbn [Texto.rfind_desde String.length].
    rewrite IH. f_equal. lia.
Qed.

Lemma rfind_desde_ausente c s (pos ultima : Z) :
  Texto.todos (λ c', negb (Ascii.eqb c c')) s = true →
  Texto.rfind_desde c s pos ultima = ultima.
Proof.
  revert pos. induction s as [|c' s IH]; intros pos; [done|].
  cbn [Texto.todos Texto.rfind_desde].
  destruct (Ascii.eqb c c'); [done|]. intros Hs. by rewrite IH.
Qed.

Lemma rfind_desde_limite c s (pos ultima : Z) :
  ultima < pos →
  Texto.rfind_desde c s pos ultima < pos + Z.of_nat (String.length s).
Proof.
  revert pos ultima. induction s as [|c' s IH]; intros pos ultima Hu.
  - cbn. lia.
  - cbn [Texto.rfind_desde String.length].
    specialize (IH (pos + 1) (if Ascii.eqb c c' then pos else ultima)).
    destruct (Ascii.eqb c c'); lia.
Qed.

(** *** Stripping *)

Lemma lstrip_rev_app s acc :
  s ≠ "" → Texto.todos (λ c, negb (Texto.is_space c)) s = true →
  Texto.lstrip (String.rev_app s acc) = String.rev_app s acc.
Proof.
  revert acc. induction s as [|c s IH]; intros acc Hne Hs; [done|].
  cbn [Texto.todos] in Hs. apply andb_true_iff in Hs as [Hc Hs].
  cbn [String.rev_app]. destruct s as [|c' s].
  - cbn [String.rev_app Texto.lstrip]. by destruct (Texto.is_space c).
  - by apply IH.
Qed.

Lemma rstrip_app s t :
  t ≠ "" → Texto.todos (λ c, negb (Texto.is_space c)) t = true →
  Texto.rstrip (String.app s t) = String.app s t.
Proof.
  intros Hne Ht. unfold Texto.rstrip, String.rev at 2.
  rewrite rev_app_app, lstrip_rev_app by done.
  rewrite <- rev_app_app. apply string_rev_involutive.
Qed.

(** *** Splitting at a character *)

Lemma split_go_app c cur s t :
  Texto.todos (λ c', negb (Ascii.eqb c c')) s = true →
  Texto.split_go c cur (String.app s t)
  = Texto.split_go c (String.rev_app s cur) t.
Proof.
  revert cur. induction s as [|c' s IH]; intros cur; [done|].
  cbn [Texto.todos]. intros [Hc Hs]%andb_true_iff. apply negb_true_iff in Hc.
  rewrite string_app_cons. cbn [Texto.split_go String.rev_app].
  rewrite Hc. by apply IH.
Qed.

Lemma split_ausente c s :
  Texto.todos (λ c', negb (Ascii.eqb c c')) s = true →
  Texto.split c s = [s].
Proof.
  intros Hs. unfold Texto.split.
  rewrite <- (string_app_nil_r s) at 1. rewrite split_go_app by done.
  cbn [Texto.split_go]. f_equal. apply string_rev_involutive.
Qed.

Lemma split_par c s t :
  Texto.todos (λ c', negb (Ascii.eqb c c')) s = true →
  Texto.todos (λ c', negb (Ascii.eqb c c')) t = true →
  Texto.split c (String.app s (String c t)) = [s; t].
Proof.
  intros Hs Ht. unfold Texto.split. rewrite split_go_app by done.
  cbn [Texto.split_go]. rewrite Ascii.eqb_refl.
  fold (Texto.split c t). rewrite (split_ausente c t Ht).
  f_equal. apply string_rev_involutive.
Qed.
(** *** Slices *)

Lemma substring_tudo s : String.substring 0 (String.length s) s = s.
Proof. induction s as [|c s IH]; [done|]. cbn. by rewrite IH. Qed.

Lemma substring_partes s (k : nat) :
  (k ≤ String.length s)%nat →
  String.app (String.substring 0 k s)
    (String.substring k (String.length s - k) s) = s.
Proof.
  revert k. induction s as [|c s IH]; intros k Hk.
  - cbn in Hk. by replace k with 0%nat by lia.
  - destruct k as [|k].
    + cbn [String.substring]. rewrite string_app_nil_l.
      change (String.length (String c s) - 0)%nat
        with (S (String.length s)).
      cbn [String.substring]. by rewrite substring_tudo.
    + cbn [String.length] in Hk. cbn [String.substring String.length].
      rewrite string_app_cons.
      change (S (String.length s) - S k)%nat with (String.length s - k)%nat.
      rewrite IH by lia. done.
Qed.

Lemma substring_length s (k : nat) :
  (k ≤ String.length s)%nat →
  String.length (String.substring 0 k s) = k.
Proof.
  revert k. induction s as [|c s IH]; intros k Hk.
  - cbn in Hk. by replace k with 0%nat by lia.
  - destruct k as [|k]; [done|]. cbn [String.length] in Hk.
    cbn [String.substring String.length]. rewrite IH by lia. done.
Qed.

Lemma todos_substring p s (a b : nat) :
  Texto.todos p s = true → Texto.todos p (String.substring a b s) = true.
Proof.
  revert a b. induction s as [|c s IH]; intros a b Hs.
  - by destruct a, b.
  - cbn [Texto.todos] in Hs. apply andb_true_iff in Hs as [Hc Hs].
    destruct a as [|a]; [destruct b as [|b]; [done|]|].
    + cbn [String.substring Texto.todos]. by rewrite Hc, IH.
    + cbn [String.substring]. by apply IH.
Qed.

(** *** Padding with zeros *)

Lemma zeros_digitos (k : nat) s :
  Texto.todos Texto.is_digit s = true →
  let z := String.app (string_of_list_ascii (replicate k "0"%char)) s in
  Texto.todos Texto.is_digit z = true
  ∧ Dec.valor_digitos z = Dec.valor_digitos s
  ∧ String.length z = (k + String.length s)%nat.
Proof.
  intros Hs. cbv zeta. induction k as [|k (IH1 & IH2 & IH3)]; [done|].
  cbn [replicate string_of_list_ascii]. rewrite string_app_cons.
  split_and!.
  - cbn [Texto.todos]. by rewrite IH1.
  - rewrite valor_digitos_cons, IH2. cbn. lia.
  - cbn [String.length]. rewrite IH3. lia.
Qed.

Lemma zfill_digitos (n : nat) s :
  Texto.todos Texto.is_digit s = true →
  Texto.todos Texto.is_digit (Texto.zfill n s) = true
  ∧ Dec.valor_digitos (Texto.zfill n s) = Dec.valor_digitos s
  ∧ (n ≤ String.length (Texto.zfill n s))%nat.
Proof.
  intros Hs. unfold Texto.zfill.
  destruct (zeros_digitos (n - String.length s) s Hs) as (H1 & H2 & H3).
  split_and!; [done | done | lia].
Qed.

(** *** Groups of three *)

Lemma fatias_de_3_ind (Q : string → Prop) :
  Q "" →
  (∀ a, Q (String a "")) →
  (∀ a b, Q (String a (String b ""))) →
  (∀ a b c r, Q r → Q (String a (String b (String c r)))) →
  ∀ s, Q s.
Proof.
  intros H0 H1 H2 H3 s.
  assert (Q s ∧ (∀ a, Q (String a s)) ∧ (∀ a b, Q (String a (String b s))))
    as [? _]; [|done].
  induction s as [|c s (IH0 & IH1 & IH2)]; [by auto|].
  split_and!; [by apply IH1 | by intros; apply IH2 | by intros; apply H3].
Qed.

Lemma join_fatias_cons (a b c d : ascii) s :
  join "." (fatias_de_3 (String a (String b (String c (String d s)))))
  = String a (String b (String c (String "."
      (join "." (fatias_de_3 (String d s)))))).
Proof.
  cbn [fatias_de_3].
  assert (∃ x l, fatias_de_3 (String d s) = x :: l) as (x & l & Hl).
  { destruct s as [|e [|f s]]; cbn [fatias_de_3]; eauto. }
  cbn [fatias_de_3] in Hl. rewrite Hl. done.
Qed.

Lemma remove_char_join_fatias s :
  Texto.todos (λ c', negb (Ascii.eqb "." c')) s = true →
  Texto.remove_char "." (join "." (fatias_de_3 s)) = s.
Proof.
  induction s as [|a|a b|a b c r IH] using fatias_de_3_ind;
    try (by apply remove_char_ausente).
  cbn [Texto.todos]. intros Hs.
  apply andb_true_iff in Hs as [Ha Hs]. apply andb_true_iff in Hs as [Hb Hs].
  apply andb_true_iff in Hs as [Hc' Hr].
  apply negb_true_iff in Ha, Hb, Hc'.
  destruct r as [|d r].
  - cbn [fatias_de_3 join Texto.remove_char]. by rewrite Ha, Hb, Hc'.
  - rewrite join_fatias_cons. cbn [Texto.remove_char].
    rewrite Ha, Hb, Hc'. change (Ascii.eqb "." ".") with true. cbv iota.
    by rewrite IH.
Qed.

Lemma todos_join_fatias p s :
  p "."%char = true → Texto.todos p s = true →
  Texto.todos p (join "." (fatias_de_3 s)) = true.
Proof.
  intros Hp. induction s as [|a|a b|a b c r IH] using fatias_de_3_ind;
    try done.
  cbn [Texto.todos]. intros Hs.
  apply andb_true_iff in Hs as [Ha Hs]. apply andb_true_iff in Hs as [Hb Hs].
  apply andb_true_iff in Hs as [Hc Hs].
  destruct r as [|d r].
  - cbn [fatias_de_3 join Texto.todos]. by rewrite Ha, Hb, Hc.
  - rewrite join_fatias_cons. cbn [Texto.todos].
    by rewrite Ha, Hb, Hc, Hp, IH.
Qed.

(** *** A decimal numeral with a point *)

Lemma digitos_ate_ponto (i r : string) :
  Texto.todos Texto.is_digit i = true →
  Dec.digitos (String.app i (String "." r)) = (i, String "." r).
Proof.
  induction i as [|c i IH]; [done|]. cbn [Texto.todos].
  intros [Hc Hi]%andb_true_iff.
  rewrite string_app_cons. cbn [Dec.digitos]. by rewrite Hc, IH.
Qed.

Lemma is_digit_nao_ponto c :
  Texto.is_digit c = true → negb (Ascii.eqb "." c) = true.
Proof. destruct c as [[] [] [] [] [] [] [] []]; by vm_compute. Qed.

Lemma is_digit_nao_virgula c :
  Texto.is_digit c = true → negb (Ascii.eqb "," c) = true.
Proof. destruct c as [[] [] [] [] [] [] [] []]; by vm_compute. Qed.

(** [Decimal(text)] of a sign, digits, a point and digits. *)
Lemma of_string_com_ponto (neg : bool) (i f : string) :
  i ≠ "" → Texto.todos Texto.is_digit i = true →
  Texto.todos Texto.is_digit f = true →
  Dec.of_string (String.app (if neg then "-" else "")
                   (String.app i (String "." f)))
  = Some (Dec.Finito neg (Dec.valor_digitos (String.app i f))
            (- Z.of_nat (String.length f))).
Proof.
  intros Hne Hi Hf.
  set (corpo := String.app i (String "." f)).
  set (texto := String.app (if neg then "-" else "") corpo).
  assert (∀ q : ascii → bool,
            (∀ c, Texto.is_digit c = true → q c = true) →
            q "."%char = true → q "-"%char = true →
            Texto.todos q texto = true) as Hclasse.
  { intros q Hq Hp Hm. unfold texto, corpo. rewrite !todos_app.
    cbn [Texto.todos]. rewrite Hp.
    rewrite (todos_impl _ _ _ Hq Hi), (todos_impl _ _ _ Hq Hf).
    destruct neg; cbn; by rewrite ?Hm. }
  unfold Dec.of_string.
  rewrite strip_sem_espaco
    by (apply Hclasse; [apply is_digit_nao_espaco | done | done]).
  rewrite remove_char_ausente
    by (apply Hclasse; [apply is_digit_nao_sublinhado | done | done]).
  assert (Dec.sinal texto = (neg, corpo)) as ->.
  { unfold texto. destruct neg; [done|].
    rewrite string_app_nil_l. unfold corpo.
    destruct i as [|c i]; [done|]. rewrite string_app_cons.
    cbn [Texto.todos] in Hi. apply andb_true_iff in Hi as [Hc _].
    by apply is_digit_sinal. }
  unfold corpo. rewrite (digitos_ate_ponto i f Hi).
  rewrite (digitos_todos f Hf).
  destruct (String.app i f) as [|c r] eqn:Hif.
  { destruct i; [done|]. by rewrite string_app_cons in Hif. }
  cbn [Dec.expoente_final]. do 2 f_equal; lia.
Qed.
(** *** From the stored value to its text *)

Lemma quantize_centavos_finito (d : Dec.Decimal) (neg : bool) (c : N) (e : Z) :
  Dec.quantize_centavos d = Ret (Dec.Finito neg c e) →
  e = -2 ∧ (c < 10 ^ Z.to_N Dec.prec)%N.
Proof.
  destruct d as [neg' c' e'|neg'|neg' [|]]; cbn [Dec.quantize_centavos];
    try done.
  destruct (N.ltb_spec (Dec.coeficiente_centavos c' e') (10 ^ Z.to_N Dec.prec));
    [|done].
  by intros [= <- <- <-].
Qed.

Lemma ValorMonetario_init_finito (valor : Valor) (neg : bool) (c : N) (e : Z) :
  ValorMonetario_init valor = Ret (Dec.Finito neg c e) →
  e = -2 ∧ (c < 10 ^ Z.to_N Dec.prec)%N.
Proof.
  unfold ValorMonetario_init.
  assert (∀ texto, match decimal_quantizado texto with
                   | Ret d => Ret d
                   | Raise _ => Raise ValueError
                   end = Ret (Dec.Finito neg c e) →
                   e = -2 ∧ (c < 10 ^ Z.to_N Dec.prec)%N) as Htexto.
  { intros texto. unfold decimal_quantizado.
    destruct (Dec.of_string texto) as [d|]; [|done].
    destruct (Dec.quantize_centavos d) as [d'|] eqn:Hq; [|done].
    intros [= ->]. by eapply quantize_centavos_finito. }
  destruct valor as [d|cel].
  - destruct (Dec.quantize_centavos d) as [d'|] eqn:Hq; [|done].
    intros [= ->]. by eapply quantize_centavos_finito.
  - destruct cel; apply Htexto.
Qed.

Lemma coeficiente_2f_centavos (c : N) : coeficiente_2f c (-2) = c.
Proof.
  unfold coeficiente_2f. change (-2 <=? -2) with true. cbv iota.
  change (Z.to_N (-2 + 2)) with 0%N. rewrite N.pow_0_r. lia.
Qed.

Lemma coeficiente_centavos_centavos (c : N) :
  Dec.coeficiente_centavos c (-2) = c.
Proof.
  unfold Dec.coeficiente_centavos. change (-2 <=? -2) with true. cbv iota.
  change (Z.to_N (-2 + 2)) with 0%N. rewrite N.pow_0_r. lia.
Qed.

(** The digits of a coefficient, cut before the last two. *)
Lemma digitos_do_coeficiente (c : N) :
  let digitos := Texto.zfill 3 (pretty c) in
  let n := String.length digitos in
  let i := String.substring 0 (n - 2) digitos in
  let f := String.substring (n - 2) 2 digitos in
  i ≠ "" ∧ Texto.todos Texto.is_digit i = true
  ∧ Texto.todos Texto.is_digit f = true ∧ String.length f = 2%nat
  ∧ Dec.valor_digitos (String.app i f) = c.
Proof.
  cbv zeta. destruct (pretty_N_digitos c) as (_ & Hd & Hv).
  destruct (zfill_digitos 3 (pretty c) Hd) as (Hz & Hvz & Hn).
  set (digitos := Texto.zfill 3 (pretty c)) in *.
  set (n := String.length digitos) in *.
  pose proof (substring_partes digitos (n - 2) ltac:(lia)) as Hpartes.
  fold n in Hpartes. replace (n - (n - 2))%nat with 2%nat in Hpartes by lia.
  pose proof (substring_length digitos (n - 2) ltac:(lia)) as Hi.
  split_and!.
  - intros Hnil. rewrite Hnil in Hi. cbn in Hi. lia.
  - by apply todos_substring.
  - by apply todos_substring.
  - pose proof (f_equal String.length Hpartes) as Hlen.
    rewrite string_length_app, Hi in Hlen. fold n in Hlen. lia.
  - by rewrite Hpartes, Hvz.
Qed.

Lemma caractere_de_valor_nao_espaco c :
  caractere_de_valor c = true → negb (Texto.is_space c) = true.
Proof. destruct c as [[] [] [] [] [] [] [] []]; by vm_compute. Qed.

Lemma caractere_de_valor_nao_R c :
  caractere_de_valor c = true → negb (Ascii.eqb "R" c) = true.
Proof. destruct c as [[] [] [] [] [] [] [] []]; by vm_compute. Qed.

Lemma caractere_de_valor_nao_cifrao c :
  caractere_de_valor c = true → negb (Ascii.eqb "$" c) = true.
Proof. destruct c as [[] [] [] [] [] [] [] []]; by vm_compute. Qed.

Lemma is_digit_caractere_de_valor c :
  Texto.is_digit c = true → caractere_de_valor c = true.
Proof. unfold caractere_de_valor. by intros ->. Qed.

Lemma ValorMonetario_str_finito (neg : bool) (c : N) :
  let digitos := Texto.zfill 3 (pretty c) in
  let n := String.length digitos in
  let i := String.substring 0 (n - 2) digitos in
  let f := String.substring (n - 2) 2 digitos in
  ∃ inteira,
    ValorMonetario_str (Dec.Finito neg c (-2))
    = Ret (String.app "R$ " (String.app inteira (String.app "," f)))
    ∧ parte_inteira_de (String.app (if neg then "-" else "") i) inteira.
Proof.
  cbv zeta. destruct (digitos_do_coeficiente c) as (Hne & Hi & Hf & _ & _).
  unfold ValorMonetario_str, formatar_2f. rewrite coeficiente_2f_centavos.
  set (digitos := Texto.zfill 3 (pretty c)) in *.
  set (n := String.length digitos) in *.
  set (i := String.substring 0 (n - 2) digitos) in *.
  set (f := String.substring (n - 2) 2 digitos) in *.
  set (s := String.app (if neg then "-" else "") i).
  assert (∀ q : ascii → bool,
            (∀ c, Texto.is_digit c = true → q c = true) →
            q "-"%char = true → Texto.todos q s = true) as Hs.
  { intros q Hq Hm. unfold s. rewrite todos_app, (todos_impl _ _ _ Hq Hi).
    destruct neg; cbn; by rewrite ?Hm. }
  rewrite <- string_app_assoc. fold s.
  change (String.app "." f) with (String "." f).
  rewrite split_par;
    [|by apply Hs; [apply is_digit_nao_ponto|]
     |by eapply todos_impl; [apply is_digit_nao_ponto|]].
  eexists. split; [reflexivity|]. unfold parte_inteira_de.
  destruct (3 <? String.length s)%nat.
  - split_and!.
    + rewrite remove_char_rev, remove_char_join_fatias.
      * apply string_rev_involutive.
      * rewrite todos_rev. by apply Hs; [apply is_digit_nao_ponto|].
    + rewrite todos_rev. apply todos_join_fatias; [done|].
      rewrite todos_rev. by apply Hs; [apply is_digit_caractere_de_valor|].
    + rewrite todos_rev. apply todos_join_fatias; [done|].
      rewrite todos_rev. by apply Hs; [apply is_digit_nao_virgula|].
  - split_and!.
    + apply remove_char_ausente. by apply Hs; [apply is_digit_nao_ponto|].
    + by apply Hs; [apply is_digit_caractere_de_valor|].
    + by apply Hs; [apply is_digit_nao_virgula|].
Qed.
(** *** From the text back to the value *)

Lemma limpar_simbolos_prefixo t :
  t ≠ "" → Texto.todos caractere_de_valor t = true →
  limpar_simbolos (String.app "R$ " t) = t.
Proof.
  intros Hne Ht.
  assert (Texto.todos (λ c, negb (Texto.is_space c)) t = true) as Hesp
    by (eapply todos_impl; [apply caractere_de_valor_nao_espaco | done]).
  unfold limpar_simbolos.
  assert (Texto.strip (String.app "R$ " t) = String.app "R$ " t) as ->.
  { unfold Texto.strip.
    change (Texto.lstrip (String.app "R$ " t)) with (String.app "R$ " t).
    by apply rstrip_app. }
  change (Texto.remove_par "R" "$" (String.app "R$ " t))
    with (Texto.remove_par "R" "$" (String " " t)).
  rewrite remove_par_ausente.
  2:{ cbn [Texto.todos]. change (negb (Ascii.eqb "R" " ")) with true.
      cbn [andb]. eapply todos_impl; [apply caractere_de_valor_nao_R | done]. }
  rewrite remove_char_ausente.
  2:{ cbn [Texto.todos]. change (negb (Ascii.eqb "$" " ")) with true.
      cbn [andb].
      eapply todos_impl; [apply caractere_de_valor_nao_cifrao | done]. }
  unfold Texto.strip.
  change (Texto.lstrip (String " " t)) with (Texto.lstrip t).
  by apply strip_sem_espaco.
Qed.

Lemma normalizar_separadores_texto (s inteira f : string) :
  parte_inteira_de s inteira → Texto.todos Texto.is_digit f = true →
  normalizar_separadores (String.app inteira (String.app "," f))
  = String.app s (String "." f).
Proof.
  intros (Hs & _ & Hv) Hf.
  assert (Texto.todos (λ c, negb (Ascii.eqb "." c)) f = true) as Hfp
    by (eapply todos_impl; [apply is_digit_nao_ponto | done]).
  assert (Texto.todos (λ c, negb (Ascii.eqb "," c)) f = true) as Hfv
    by (eapply todos_impl; [apply is_digit_nao_virgula | done]).
  change (String.app "," f) with (String "," f).
  unfold normalizar_separadores. rewrite !contains_char_app.
  cbn [Texto.contains_char]. change (Ascii.eqb "," ",") with true.
  change (Ascii.eqb "." ",") with false. cbn [orb]. rewrite orb_true_r.
  rewrite (proj2 (contains_char_false "." f) Hfp), orb_false_r.
  cbn [andb].
  destruct (Texto.contains_char "." inteira) eqn:Hp.
  - unfold Texto.rfind. rewrite !rfind_desde_app.
    cbn [Texto.rfind_desde]. change (Ascii.eqb "," ",") with true.
    change (Ascii.eqb "." ",") with false. cbv iota.
    rewrite (rfind_desde_ausente "." f) by done.
    rewrite (rfind_desde_ausente "," f) by done.
    pose proof (rfind_desde_limite "." inteira 0 (-1) ltac:(lia)) as Hlim.
    rewrite (proj2 (Z.ltb_lt _ _)) by lia.
    rewrite remove_char_app, Hs.
    rewrite (remove_char_ausente "." (String "," f)) by done.
    rewrite replace_char_app. cbn [Texto.replace_char].
    change (Ascii.eqb "," ",") with true. cbv iota.
    rewrite (replace_char_ausente _ _ f) by done.
    rewrite replace_char_ausente; [done|].
    rewrite <- Hs. clear -Hv.
    induction inteira as [|c r IH]; [done|].
    cbn [Texto.todos] in Hv. apply andb_true_iff in Hv as [Hc Hr].
    cbn [Texto.remove_char]. destruct (Ascii.eqb "." c); [by apply IH|].
    cbn [Texto.todos]. by rewrite Hc, IH.
  - apply contains_char_false in Hp.
    rewrite (remove_char_ausente _ _ Hp) in Hs. subst s.
    rewrite replace_char_app. cbn [Texto.replace_char].
    change (Ascii.eqb "," ",") with true. cbv iota.
    by rewrite !replace_char_ausente by done.
Qed.
End TextoMonetario.

(** X23.  [ValorMonetario.__str__] never raises on a value that
    [ValorMonetario.__init__] stored, and the text it gives is read back
    by [ValorMonetario.__init__] as the same value whenever the value is
    a number: printing and parsing are inverse on every amount, negative
    ones and the ones with thousands separators included.  A stored NaN
    prints a text that [__init__] rejects. *)
Theorem ValorMonetario_str_ida_e_volta (valor : Valor) (d : Dec.Decimal) :
  ValorMonetario_init valor = Ret d →
  ∃ texto,
    ValorMonetario_str d = Ret texto
    ∧ ValorMonetario_init (VCelula (CStr texto))
      = match d with
        | Dec.Finito _ _ _ => Ret d
        | _ => Raise ValueError
        end.
Proof.
  intros Hinit. destruct d as [neg c e|neg|neg sinalizador].
  - destruct (ValorMonetario_init_finito _ _ _ _ Hinit) as [-> Hc].
    destruct (digitos_do_coeficiente c) as (Hne & Hi & Hf & Hlen & Hv).
    destruct (ValorMonetario_str_finito neg c) as (inteira & Hstr & Hint).
    cbv zeta in *.
    set (digitos := Texto.zfill 3 (pretty c)) in *.
    set (n := String.length digitos) in *.
    set (i := String.substring 0 (n - 2) digitos) in *.
    set (f := String.substring (n - 2) 2 digitos) in *.
    eexists. split; [exact Hstr|].
    unfold ValorMonetario_init.
    rewrite limpar_simbolos_prefixo.
    + rewrite (normalizar_separadores_texto _ _ _ Hint Hf).
      rewrite string_app_assoc. unfold decimal_quantizado.
      rewrite (of_string_com_ponto neg i f Hne Hi Hf), Hv, Hlen.
      cbn [Dec.quantize_centavos]. rewrite coeficiente_centavos_centavos.
      by rewrite (proj2 (N.ltb_lt _ _) Hc).
    + destruct inteira; [|done]. by destruct f.
    + rewrite todos_app. destruct Hint as (_ & -> & _).
      change (String.app "," f) with (String "," f). cbn [Texto.todos andb].
      change (caractere_de_valor ",") with true. cbn [andb].
      eapply todos_impl; [apply is_digit_caractere_de_valor | done].
  - exfalso. revert Hinit. unfold ValorMonetario_init.
    assert (∀ m, match m with
                 | Ret d => Ret d
                 | Raise _ => Raise ValueError
                 end = Ret (Dec.Infinito neg) →
                 m = Ret (Dec.Infinito neg)) as Hm
      by (intros [?|?]; [by intros [= ->] | done]).
    intros Hinit%Hm.
    assert (∀ d', Dec.quantize_centavos d' ≠ Ret (Dec.Infinito neg)) as Hq.
    { intros [? c' e'|?|? [|]]; cbn [Dec.quantize_centavos]; try done.
      by destruct (_ <? _)%N. }
    destruct valor as [d'|cel]; [by apply Hq in Hinit|].
    assert (∀ texto, decimal_quantizado texto ≠ Ret (Dec.Infinito neg))
      as Ht.
    { intros texto. unfold decimal_quantizado.
      destruct (Dec.of_string texto); [apply Hq | done]. }
    destruct cel; by apply Ht in Hinit.
  - destruct sinalizador.
    + exfalso. revert Hinit. unfold ValorMonetario_init.
      assert (∀ m, match m with
                   | Ret d => Ret d
                   | Raise _ => Raise ValueError
                   end = Ret (Dec.NaN neg true) →
                   m = Ret (Dec.NaN neg true)) as Hm
        by (intros [?|?]; [by intros [= ->] | done]).
      intros Hinit%Hm.
      assert (∀ d', Dec.quantize_centavos d' ≠ Ret (Dec.NaN neg true)) as Hq.
      { intros [? c' e'|?|? [|]]; cbn [Dec.quantize_centavos]; try done.
        by destruct (_ <? _)%N. }
      destruct valor as [d'|cel]; [by apply Hq in Hinit|].
      assert (∀ texto, decimal_quantizado texto ≠ Ret (Dec.NaN neg true))
        as Ht.
      { intros texto. unfold decimal_quantizado.
        destruct (Dec.of_string texto); [apply Hq | done]. }
      destruct cel; by apply Ht in Hinit.
    + destruct neg; eexists; (split; [vm_compute; reflexivity|]);
        vm_compute; reflexivity.
Qed.

Lemma ValorMonetario_str_ida_e_volta_witness :
  ∃ texto,
    ValorMonetario_str (Dec.Finito true 12345679 (-2)) = Ret texto
    ∧ ValorMonetario_init (VCelula (CStr texto))
      = Ret (Dec.Finito true 12345679 (-2)).
Proof.
  apply (ValorMonetario_str_ida_e_volta (VCelula (CStr "-123456,785"))
           (Dec.Finito true 12345679 (-2))).
  vm_compute. reflexivity.
Defined.

(** ** Comparing amounts within a tolerance *)

Example DecArit_exemplos :
  DecArit.sub (Dec.Finito false 999999999999999999999999999 (-2))
              (Dec.Finito true 999999999999999999999999999 (-2))
  = Ret (Dec.Finito false 1999999999999999999999999998 (-2))
  ∧ DecArit.sub (Dec.Finito false 9999999999999999999999999999 (-2))
                (Dec.Finito true 9999999999999999999999999999 (-2))
    = Ret (Dec.Finito false 2000000000000000000000000000 (-1))
  ∧ DecArit.sub (Dec.Finito false 9999999999999999999999999995 (-2))
                (Dec.Finito true 10 (-2))
    = Ret (Dec.Finito false 1000000000000000000000000000 (-1))
  ∧ DecArit.sub (Dec.Finito true 0 (-2)) (Dec.Finito false 0 (-2))
    = Ret (Dec.Finito true 0 (-2))
  ∧ DecArit.sub (Dec.Finito true 100 (-2)) (Dec.Finito true 100 (-2))
    = Ret (Dec.Finito false 0 (-2))
  ∧ DecArit.le (Dec.Finito false 101 (-2)) (Dec.Finito false 1010 (-3))
    = Ret true
  ∧ valores_iguais (VCelula (CFloat "100.0")) (VCelula (CFloat "100.5"))
      (VCelula (CFloat "1.0")) = Ret true
  ∧ valores_iguais (VCelula (CFloat "100.0")) (VCelula (CFloat "105.0"))
      (VCelula (CFloat "1.0")) = Ret false
  ∧ valores_iguais (VCelula (CStr "nan")) (VCelula (CFloat "105.0"))
      (VCelula (CFloat "1.0")) = Raise InvalidOperation.
Proof. vm_compute. done. Qed.

Lemma pretty_N_go_length (x : N) (s : string) (n : nat) :
  (x < 10 ^ N.of_nat n)%N →
  (String.length (pretty_N_go x s) ≤ String.length s + n)%nat.
Proof.
  revert s n. induction (N.lt_wf_0 x) as [x _ IH]; intros s n Hx.
  destruct (decide (x = 0)%N) as [->|Hx0].
  - rewrite pretty_N_go_0. lia.
  - rewrite pretty_N_go_step by lia.
    destruct n as [|n].
    { change (N.of_nat 0) with 0%N in Hx. rewrite N.pow_0_r in Hx. lia. }
    rewrite Nat2N.inj_succ, N.pow_succ_r' in Hx.
    assert (x `div` 10 < 10 ^ N.of_nat n)%N as Hdiv
      by (apply N.Div0.div_lt_upper_bound; lia).
    pose proof (IH (x `div` 10)%N ltac:(apply N.div_lt; lia)
                  (String (pretty_N_char (x `mod` 10)) s) n Hdiv) as Hlen.
    cbn [String.length] in Hlen. lia.
Qed.

Lemma num_digitos_limite (c : N) :
  (c < 10 ^ Z.to_N Dec.prec)%N →
  Z.of_nat (DecArit.num_digitos c) <= Dec.prec.
Proof.
  intros Hc. unfold DecArit.num_digitos, pretty, pretty_N.
  destruct (decide (c = 0)%N) as [->|Hc0]; [done|].
  pose proof (pretty_N_go_length c "" 28 Hc) as Hlen.
  cbn [String.length] in Hlen. unfold Dec.prec. lia.
Qed.

Lemma arredondar_exato (neg : bool) (c : N) (e : Z) :
  (c < 10 ^ Z.to_N Dec.prec)%N →
  DecArit.arredondar neg c e = Dec.Finito neg c e.
Proof.
  intros Hc. unfold DecArit.arredondar.
  by rewrite (proj2 (Z.leb_le _ _) (num_digitos_limite c Hc)).
Qed.

(** The rounded coefficient and exponent do not depend on the sign. *)
Lemma arredondar_sinal (c : N) (e : Z) :
  ∃ c' e', ∀ neg, DecArit.arredondar neg c e = Dec.Finito neg c' e'.
Proof.
  unfold DecArit.arredondar. destruct (_ <=? _); [by eauto|].
  destruct (_ =? _)%N; by eauto.
Qed.

Lemma abs_somar_finitos_sim (s1 s2 : bool) (c1 c2 : N) (e1 e2 : Z) :
  DecArit.abs (DecArit.somar_finitos s1 c1 e1 (negb s2) c2 e2)
  = DecArit.abs (DecArit.somar_finitos s2 c2 e2 (negb s1) c1 e1).
Proof.
  unfold DecArit.somar_finitos. rewrite (Z.min_comm e2 e1).
  rewrite (andb_comm (c2 =? 0)%N).
  set (m := Z.min e1 e2).
  set (v1 := Z.of_N c1 * 10 ^ (e1 - m)). set (v2 := Z.of_N c2 * 10 ^ (e2 - m)).
  destruct ((c1 =? 0)%N && (c2 =? 0)%N).
  - destruct (arredondar_sinal 0 m) as (c' & e' & Hr). by rewrite !Hr.
  - set (z := (if s1 then - v1 else v1) + (if negb s2 then - v2 else v2)).
    assert ((if s2 then - v2 else v2) + (if negb s1 then - v1 else v1) = - z)
      as -> by (unfold z; destruct s1, s2; cbn [negb]; lia).
    replace (Z.abs_N (- z)) with (Z.abs_N z) by lia.
    destruct (arredondar_sinal (Z.abs_N z) m) as (c' & e' & Hr).
    by rewrite !Hr.
Qed.

Lemma diferenca_le_sim (a b t : Dec.Decimal) :
  (let* d := ValorMonetario_diferenca a b in DecArit.le d t)
  = (let* d := ValorMonetario_diferenca b a in DecArit.le d t).
Proof.
  unfold ValorMonetario_diferenca.
  destruct a as [s1 c1 e1|n1|n1 [|]], b as [s2 c2 e2|n2|n2 [|]];
    cbn [DecArit.sub exc_bind DecArit.abs DecArit.le]; try done.
  - by rewrite abs_somar_finitos_sim.
  - by destruct n1, n2.
Qed.

Lemma ValorMonetario_init_excecao (valor : Valor) (e : excecao) :
  ValorMonetario_init valor = Raise e → e = ValueError.
Proof.
  unfold ValorMonetario_init.
  destruct valor as [d|[]];
    repeat match goal with
           | |- context [match ?m with Ret _ => _ | Raise _ => _ end] =>
               destruct m
           end; congruence.
Qed.

(** X24.  Neither [ValorMonetario.dentro_tolerancia] nor
    [valores_iguais] depends on the order of the two amounts: swapping
    them gives the same verdict, or the same exception. *)
Theorem valores_iguais_simetrica (valor1 valor2 tolerancia : Valor)
    (a b : Dec.Decimal) :
  ValorMonetario_dentro_tolerancia a b tolerancia
  = ValorMonetario_dentro_tolerancia b a tolerancia
  ∧ valores_iguais valor1 valor2 tolerancia
    = valores_iguais valor2 valor1 tolerancia.
Proof.
  assert (∀ t, ValorMonetario_dentro_tolerancia a b t
               = ValorMonetario_dentro_tolerancia b a t) as Hsim.
  { intros t. unfold ValorMonetario_dentro_tolerancia.
    destruct (match t with VDecimal d => Ret d | _ => decimal_de t end)
      as [dt|]; [|done].
    cbn [exc_bind]. apply diferenca_le_sim. }
  split; [apply Hsim|]. clear Hsim a b.
  unfold valores_iguais.
  destruct (ValorMonetario_init valor1) as [a|e1] eqn:H1,
           (ValorMonetario_init valor2) as [b|e2] eqn:H2; cbn [exc_bind].
  - destruct (decimal_de tolerancia) as [dt|]; [|done]. cbn [exc_bind].
    unfold ValorMonetario_dentro_tolerancia. cbn [exc_bind].
    apply diferenca_le_sim.
  - done.
  - done.
  - apply ValorMonetario_init_excecao in H1, H2. congruence.
Qed.

(** On amounts whose difference needs no rounding, the verdict is the
    comparison of the difference in hundredths with the tolerance. *)
Lemma valores_iguais_centavos (a b t : Z) :
  Z.abs a < 10 ^ 28 → Z.abs b < 10 ^ 28 → Z.abs (a - b) < 10 ^ 28 →
  valores_iguais (VDecimal (decimal_de_centavos a))
    (VDecimal (decimal_de_centavos b)) (VDecimal (decimal_de_centavos t))
  = Ret (Z.abs (a - b) <=? t).
Proof.
  intros Ha Hb Hab.
  assert (∀ z, Z.abs z < 10 ^ 28 → (Z.abs_N z < 10 ^ Z.to_N Dec.prec)%N)
    as Hlim.
  { intros z Hz. apply N2Z.inj_lt. rewrite N2Z.inj_abs_N.
    change (Z.of_N (10 ^ Z.to_N Dec.prec)) with (10 ^ 28). done. }
  assert (∀ z, Z.abs z < 10 ^ 28 →
               ValorMonetario_init (VDecimal (decimal_de_centavos z))
               = Ret (decimal_de_centavos z)) as Hinit.
  { intros z Hz. unfold ValorMonetario_init, decimal_de_centavos.
    cbn [Dec.quantize_centavos]. rewrite coeficiente_centavos_centavos.
    by rewrite (proj2 (N.ltb_lt _ _) (Hlim z Hz)). }
  assert (∀ z, (if z <? 0 then - (Z.of_N (Z.abs_N z) * 10 ^ (-2 - -2))
                else Z.of_N (Z.abs_N z) * 10 ^ (-2 - -2)) = z) as Hval.
  { intros z. change (10 ^ (-2 - -2)) with 1. rewrite N2Z.inj_abs_N.
    destruct (Z.ltb_spec z 0); lia. }
  unfold valores_iguais. rewrite (Hinit a Ha), (Hinit b Hb).
  cbn [exc_bind decimal_de ValorMonetario_dentro_tolerancia].
  unfold ValorMonetario_diferenca, decimal_de_centavos.
  cbn [DecArit.sub exc_bind]. unfold DecArit.somar_finitos.
  change (Z.min (-2) (-2)) with (-2).
  assert ((if negb (b <? 0) then - (Z.of_N (Z.abs_N b) * 10 ^ (-2 - -2))
           else Z.of_N (Z.abs_N b) * 10 ^ (-2 - -2)) = - b) as ->.
  { change (10 ^ (-2 - -2)) with 1. rewrite N2Z.inj_abs_N.
    destruct (Z.ltb_spec b 0); cbn [negb]; lia. }
  rewrite (Hval a).
  assert (DecArit.abs
            (if (Z.abs_N a =? 0)%N && (Z.abs_N b =? 0)%N
             then DecArit.arredondar ((a <? 0) && negb (b <? 0)) 0 (-2)
             else DecArit.arredondar (a + - b <? 0)
                    (Z.abs_N (a + - b)) (-2))
          = Ret (Dec.Finito false (Z.abs_N (a - b)) (-2))) as ->.
  { destruct ((Z.abs_N a =? 0)%N && (Z.abs_N b =? 0)%N) eqn:Hzero.
    - apply andb_true_iff in Hzero as [Ha0%N.eqb_eq Hb0%N.eqb_eq].
      assert (a = 0) as -> by lia. assert (b = 0) as -> by lia. done.
    - replace (a + - b) with (a - b) by lia.
      rewrite arredondar_exato by (by apply Hlim).
      cbn [DecArit.abs]. by rewrite arredondar_exato by (by apply Hlim). }
  cbn [exc_bind DecArit.le]. change (Z.min (-2) (-2)) with (-2).
  rewrite (Hval t). change (10 ^ (-2 - -2)) with 1.
  rewrite N2Z.inj_abs_N. do 2 f_equal. lia.
Qed.

(** X25.  On two amounts in hundredths whose difference fits the 28
    digits of the context, [valores_iguais] never raises and answers
    whether the absolute difference of the amounts is at most the
    tolerance, the bound included. *)
Theorem valores_iguais_em_centavos (a b t : Z) :
  Z.abs a < 10 ^ 28 → Z.abs b < 10 ^ 28 → Z.abs (a - b) < 10 ^ 28 →
  valores_iguais (VDecimal (decimal_de_centavos a))
    (VDecimal (decimal_de_centavos b)) (VDecimal (decimal_de_centavos t))
  = Ret (Z.abs (a - b) <=? t).
Proof. apply valores_iguais_centavos. Qed.

Lemma valores_iguais_em_centavos_witness :
  valores_iguais (VDecimal (decimal_de_centavos 10000))
    (VDecimal (decimal_de_centavos 10101)) (VDecimal (decimal_de_centavos 101))
  = Ret (Z.abs (10000 - 10101) <=? 101).
Proof. apply (valores_iguais_em_centavos 10000 10101 101); by vm_compute. Defined.



(** ** Adding and subtracting amounts *)

Lemma somar_finitos_centavos (a b : Z) :
  Z.abs (a + b) < 10 ^ 28 →
  DecArit.somar_finitos (a <? 0) (Z.abs_N a) (-2) (b <? 0) (Z.abs_N b) (-2)
  = decimal_de_centavos (a + b).
Proof.
  intros Hab. unfold DecArit.somar_finitos, decimal_de_centavos.
  change (Z.min (-2) (-2)) with (-2). change (10 ^ (-2 - -2)) with 1.
  rewrite !N2Z.inj_abs_N.
  destruct ((Z.abs_N a =? 0)%N && (Z.abs_N b =? 0)%N) eqn:Hzero.
  - apply andb_true_iff in Hzero as [Ha0%N.eqb_eq Hb0%N.eqb_eq].
    assert (a = 0) as -> by lia. assert (b = 0) as -> by lia. done.
  - assert ((if a <? 0 then - (Z.abs a * 1) else Z.abs a * 1)
            + (if b <? 0 then - (Z.abs b * 1) else Z.abs b * 1) = a + b) as ->
      by (destruct (Z.ltb_spec a 0), (Z.ltb_spec b 0); lia).
    apply arredondar_exato. apply N2Z.inj_lt. rewrite N2Z.inj_abs_N.
    change (Z.of_N (10 ^ Z.to_N Dec.prec)) with (10 ^ 28). done.
Qed.

Lemma ValorMonetario_init_centavos (z : Z) :
  Z.abs z < 10 ^ 28 →
  ValorMonetario_init (VDecimal (decimal_de_centavos z))
  = Ret (decimal_de_centavos z).
Proof.
  intros Hz. unfold ValorMonetario_init, decimal_de_centavos.
  cbn [Dec.quantize_centavos]. rewrite coeficiente_centavos_centavos.
  rewrite (proj2 (N.ltb_lt _ _)); [done|].
  apply N2Z.inj_lt. rewrite N2Z.inj_abs_N.
  change (Z.of_N (10 ^ Z.to_N Dec.prec)) with (10 ^ 28). done.
Qed.

(** X27.  [ValorMonetario.__add__] and [ValorMonetario.__sub__] are
    exact on amounts: for two amounts in hundredths, the stored result
    is the amount of the sum, or of the difference, as long as it fits
    the 28 digits of the context; and adding back what was subtracted
    restores the amount. *)
Theorem ValorMonetario_add_sub_exatos (a b : Z) :
  Z.abs a < 10 ^ 28 → Z.abs (a + b) < 10 ^ 28 → Z.abs (a - b) < 10 ^ 28 →
  ValorMonetario_add (decimal_de_centavos a) (decimal_de_centavos b)
  = Ret (decimal_de_centavos (a + b))
  ∧ ValorMonetario_sub (decimal_de_centavos a) (decimal_de_centavos b)
    = Ret (decimal_de_centavos (a - b))
  ∧ ValorMonetario_add (decimal_de_centavos (a - b)) (decimal_de_centavos b)
    = Ret (decimal_de_centavos a).
Proof.
  intros Ha Hsoma Hab.
  assert (∀ x y, Z.abs (x + y) < 10 ^ 28 →
            ValorMonetario_add (decimal_de_centavos x) (decimal_de_centavos y)
            = Ret (decimal_de_centavos (x + y))) as Hadd.
  { intros x y Hxy. unfold ValorMonetario_add.
    unfold decimal_de_centavos at 1 2. cbn [DecArit.add exc_bind].
    rewrite somar_finitos_centavos by done.
    by apply ValorMonetario_init_centavos. }
  split_and!; [by apply Hadd | |].
  - unfold ValorMonetario_sub.
    unfold decimal_de_centavos at 1 2. cbn [DecArit.sub exc_bind].
    assert (negb (b <? 0) = (- b <? 0) ∨ b = 0) as [-> | ->].
    { destruct (Z.ltb_spec b 0), (Z.ltb_spec (- b) 0); cbn; lia. }
    + replace (Z.abs_N b) with (Z.abs_N (- b)) by lia.
      rewrite somar_finitos_centavos by (by replace (a + - b) with (a - b) by lia).
      replace (a + - b) with (a - b) by lia.
      by apply ValorMonetario_init_centavos.
    + change (negb (0 <? 0)) with true. change (Z.abs_N 0) with 0%N.
      unfold DecArit.somar_finitos.
      change (Z.min (-2) (-2)) with (-2). change (10 ^ (-2 - -2)) with 1.
      rewrite Z.sub_0_r in *. rewrite N2Z.inj_abs_N.
      destruct (Z.abs_N a =? 0)%N eqn:Ha0.
      * apply N.eqb_eq in Ha0. assert (a = 0) as -> by lia. done.
      * cbn [andb].
        assert ((if a <? 0 then - (Z.abs a * 1) else Z.abs a * 1)
                + - (Z.of_N 0 * 1) = a) as ->
          by (destruct (Z.ltb_spec a 0); lia).
        rewrite arredondar_exato.
        -- by apply ValorMonetario_init_centavos.
        -- apply N2Z.inj_lt. rewrite N2Z.inj_abs_N.
           change (Z.of_N (10 ^ Z.to_N Dec.prec)) with (10 ^ 28). done.
  - rewrite Hadd by (by replace (a - b + b) with a by lia).
    do 2 f_equal. lia.
Qed.

Lemma ValorMonetario_add_sub_exatos_witness :
  ValorMonetario_add (decimal_de_centavos 10000) (decimal_de_centavos 250)
  = Ret (decimal_de_centavos (10000 + 250))
  ∧ ValorMonetario_sub (decimal_de_centavos 10000) (decimal_de_centavos 250)
    = Ret (decimal_de_centavos (10000 - 250))
  ∧ ValorMonetario_add (decimal_de_centavos (10000 - 250))
      (decimal_de_centavos 250)
    = Ret (decimal_de_centavos 10000).
Proof. apply (ValorMonetario_add_sub_exatos 10000 250); by vm_compute. Defined.


(** ** Numbering twice *)

Lemma agrupar_por_linha_ext {A} (f g : nat → A → nat * Resultado)
    (acc : dict Z (list nat)) (l : list A) :
  (∀ i a, (f i a).1 = (g i a).1
          ∧ transacoes_agrupadas (grupo (f i a).2)
            = transacoes_agrupadas (grupo (g i a).2)) →
  foldl agrupar_por_linha acc (imap f l)
  = foldl agrupar_por_linha acc (imap g l).
Proof.
  revert f g acc. induction l as [|a l IH]; intros f g acc Hfg; [done|].
  cbn [imap foldl].
  assert (agrupar_por_linha acc (f 0%nat a) = agrupar_por_linha acc (g 0%nat a))
    as ->.
  { destruct (Hfg 0%nat a) as [H1 H2]. unfold agrupar_por_linha.
    destruct (f 0%nat a) as [i r], (g 0%nat a) as [i' r']. cbn in H1, H2.
    by rewrite H1, H2. }
  apply IH. intros i b. apply Hfg.
Qed.

Lemma imap_imap {A B C} (f : nat → B → C) (h : nat → A → B) (l : list A) :
  imap f (imap h l) = imap (λ i a, f i (h i a)) l.
Proof.
  revert f h. induction l as [|a l IH]; intros f h; [done|].
  cbn [imap]. f_equal. apply IH.
Qed.

(** X28.  Numbering the combined divergences is idempotent: running
    [detectar_grupos_divergentes_agrupadas] again on the results it has
    numbered changes no identifier and returns the same dictionary. *)
Theorem detectar_grupos_divergentes_agrupadas_idempotente
    (rs : list Resultado) :
  ∃ st numerados,
    detectar_grupos_divergentes_agrupadas rs = Ret (st, numerados)
    ∧ detectar_grupos_divergentes_agrupadas st = Ret (st, numerados).
Proof.
  destruct (detectar_grupos_store rs) as (st & numerados & Hdet & Hlen & Hst).
  exists st, numerados. split; [done|].
  set (h := λ (i : nat) (r : Resultado),
              match id_em (agrupar rs) 1 i with
              | Some id => set_grupo_divergencia_id id r
              | None => r
              end).
  assert (st = imap h rs) as Himap.
  { apply list_eq. intros i. rewrite Hst, list_lookup_imap. unfold h.
    destruct (id_em (agrupar rs) 1 i); [done|]. by destruct (rs !! i). }
  assert (agrupar st = agrupar rs) as Hagr.
  { rewrite Himap. unfold agrupar. rewrite imap_imap.
    apply agrupar_por_linha_ext. intros i r. split; [done|].
    cbn [snd]. unfold h. by destruct (id_em (agrupar rs) 1 i). }
  destruct (detectar_grupos_store st) as (st2 & num2 & Hdet2 & Hlen2 & Hst2).
  destruct (detectar_grupos_numerados st) as (st3 & Hnum3).
  destruct (detectar_grupos_numerados rs) as (st1 & Hnum1).
  rewrite Hdet2 in Hnum3. injection Hnum3 as _ ->.
  rewrite Hdet in Hnum1. injection Hnum1 as _ ->.
  rewrite Hdet2, Hagr. do 2 f_equal.
  apply list_eq. intros i. rewrite Hst2, Hagr, Hst.
  destruct (id_em (agrupar rs) 1 i); [|done].
  by destruct (rs !! i).
Qed.

(** ** The combined divergences of a confrontation *)


